(** * QSDsan: process-model compilation and unit mass balances

    A shallow embedding of the process constructors ([CANDO], [CANDO3],
    [Sharon]) and of the unit operations ([AnaerobicBaffledReactor],
    [ElectroChemCell]) of the repository, together with the
    [Processes] / [Process] machinery they call.

    Floating-point numbers are modelled by exact rationals ([Qc]);
    stoichiometric coefficients live in an arbitrary field [K] so that the
    same development covers numeric coefficients and coefficients that are
    expressions in named parameters (the field of rational functions in the
    parameter symbols). *)

From Stdlib Require Import String List Bool Arith Lia.
From Stdlib Require Import QArith Qcanon Field.
From Stdlib Require Import Qround.
Import ListNotations.

Set Implicit Arguments.

(** ** Errors and results *)

(** The error taxonomy of the process layer, and the two Python exceptions
    the modelled source lines can raise on their own. *)
Inductive error : Type :=
| UnknownChemicalError
| ImmutableRegistryError
| UnderdeterminedStoichiometryError
| OverdeterminedStoichiometryError
| RegistryMismatchError
| UnknownParameterError
| NumericDomainError
| FileNotFoundError
| AttributeError
| TypeError.

Inductive result (A : Type) : Type :=
| Ok (a : A)
| Err (e : error).

Arguments Ok {A} a.
Arguments Err {A} e.

Definition is_ok {A : Type} (r : result A) : bool :=
  match r with
  | Ok _ => true
  | Err _ => false
  end.

Definition bind {A B : Type} (r : result A) (f : A -> result B) : result B :=
  match r with
  | Ok a => f a
  | Err e => Err e
  end.

Notation "'do' x <- c1 ; c2" := (bind c1 (fun x => c2))
  (at level 60, x name, c1 at next level, right associativity).

Fixpoint mapM {A B : Type} (f : A -> result B) (l : list A) : result (list B) :=
  match l with
  | [] => Ok []
  | a :: l' => do b <- f a; do bs <- mapM f l'; Ok (b :: bs)
  end.

(** ** The coefficient field *)

(** Operations of the field stoichiometric coefficients are taken from.
    [ksym] embeds a named parameter ([Y_PHA], [Y_PAO], ...) in the field:
    the parameter's symbol in the symbolic reading, its value in a numeric
    one. *)
Class Coeff : Type := {
  K : Type;
  kzero : K;
  kone : K;
  kadd : K -> K -> K;
  kmul : K -> K -> K;
  ksub : K -> K -> K;
  kopp : K -> K;
  kdiv : K -> K -> K;
  kinv : K -> K;
  keqb : K -> K -> bool;
  ksym : string -> K }.

Class CoeffLaws (C : Coeff) : Prop := {
  k_field : field_theory kzero kone kadd kmul ksub kopp kdiv kinv (@eq K);
  keqb_eq : forall x y : K, keqb x y = true <-> x = y }.

Declare Scope K_scope.
Delimit Scope K_scope with K.
Notation "0" := kzero : K_scope.
Notation "1" := kone : K_scope.
Infix "+" := kadd : K_scope.
Infix "*" := kmul : K_scope.
Infix "-" := ksub : K_scope.
Infix "/" := kdiv : K_scope.
Notation "- x" := (kopp x) : K_scope.

(** The rationals as a coefficient field, under a valuation of the
    parameter symbols. *)
Definition Qc_coeff (val : string -> Qc) : Coeff :=
  {| K := Qc; kzero := 0%Qc; kone := 1%Qc;
     kadd := Qcplus; kmul := Qcmult; ksub := Qcminus; kopp := Qcopp;
     kdiv := Qcdiv; kinv := Qcinv; keqb := Qc_eq_bool; ksym := val |}.

(** ** Linear systems over the coefficient field *)

Section Linear.
Context {C : Coeff}.
Open Scope K_scope.

(** A coefficient row is read as a sequence that is zero past its end. *)
Definition hd0 (r : list K) : K :=
  match r with
  | [] => 0
  | a :: _ => a
  end.

Fixpoint dot (r x : list K) : K :=
  match x with
  | [] => 0
  | x0 :: xs => hd0 r * x0 + dot (tl r) xs
  end.

Definition zeros (n : nat) : list K := repeat 0 n.

(** One linear equation [dot lhs u = rhs] in the unknowns [u]. *)
Record equation : Type := { lhs : list K; rhs : K }.

Definition holds (u : list K) (e : equation) : Prop := dot (lhs e) u = rhs e.

Definition holds0 (z : list K) (e : equation) : Prop := dot (lhs e) z = 0.

(** [axpy n f s r] is the row [s - f * r] on [n] columns. *)
Fixpoint axpy (n : nat) (f : K) (s r : list K) : list K :=
  match n with
  | O => []
  | S k => (hd0 s - f * hd0 r) :: axpy k f (tl s) (tl r)
  end.

(** Eliminate the first unknown of [e] with the pivot equation [p]. *)
Definition reduce (n : nat) (p e : equation) : equation :=
  let f := hd0 (lhs e) / hd0 (lhs p) in
  {| lhs := axpy n f (tl (lhs e)) (tl (lhs p));
     rhs := rhs e - f * rhs p |}.

(** The first equation whose leading coefficient is not zero, and the
    others in their order. *)
Fixpoint pick_pivot (eqs : list equation) : option (equation * list equation) :=
  match eqs with
  | [] => None
  | e :: rest =>
      if keqb (hd0 (lhs e)) 0 then
        match pick_pivot rest with
        | Some (p, others) => Some (p, e :: others)
        | None => None
        end
      else Some (e, rest)
  end.

(** Gaussian elimination on [n] unknowns.  A column without pivot means the
    unknowns exceed the independent equations; an equation [0 = c] with
    [c <> 0] left at the end means the system is inconsistent. *)
Fixpoint solve (n : nat) (eqs : list equation) : result (list K) :=
  match n with
  | O =>
      if forallb (fun e => keqb (rhs e) 0) eqs then Ok []
      else Err OverdeterminedStoichiometryError
  | S k =>
      match pick_pivot eqs with
      | None => Err UnderdeterminedStoichiometryError
      | Some (p, others) =>
          match solve k (map (reduce k p) others) with
          | Ok xs => Ok ((rhs p - dot (tl (lhs p)) xs) / hd0 (lhs p) :: xs)
          | Err e => Err e
          end
      end
  end.


(** What each outcome of [solve] says about the system. *)
Definition solve_outcome (n : nat) (eqs : list equation) (r : result (list K)) : Prop :=
  match r with
  | Ok x =>
      length x = n /\ Forall (holds x) eqs /\
      (forall y, length y = n -> Forall (holds y) eqs -> y = x)
  | Err UnderdeterminedStoichiometryError =>
      exists z, length z = n /\ z <> zeros n /\ Forall (holds0 z) eqs
  | Err OverdeterminedStoichiometryError =>
      (forall y, length y = n -> ~ Forall (holds y) eqs) /\
      (forall z, length z = n -> Forall (holds0 z) eqs -> z = zeros n)
  | Err _ => False
  end.

End Linear.

(** ** Rate-law expressions *)

(** A rate equation as the source writes it: numbers, component
    concentrations, named parameters, and the four arithmetic operators the
    rate strings of the repository use. *)
Inductive expr : Type :=
| Num (q : Qc)
| Conc (s : string)
| Par (s : string)
| Add (a b : expr)
| Sub (a b : expr)
| Mul (a b : expr)
| Div (a b : expr).

Declare Scope expr_scope.
Delimit Scope expr_scope with expr.
Bind Scope expr_scope with expr.
Infix "+" := Add : expr_scope.
Infix "-" := Sub : expr_scope.
Infix "*" := Mul : expr_scope.
Infix "/" := Div : expr_scope.

(** Modelled from the spec: the RateEvaluator (section 4.4) is not under
    src/.  Operands are evaluated left to right; a division whose divisor
    evaluates to zero is the undefined operation and raises
    [NumericDomainError]; nothing else raises on its own. *)
Fixpoint eval (cv pv : string -> result Qc) (e : expr) : result Qc :=
  match e with
  | Num q => Ok q
  | Conc s => cv s
  | Par s => pv s
  | Add a b => do x <- eval cv pv a; do y <- eval cv pv b; Ok (x + y)%Qc
  | Sub a b => do x <- eval cv pv a; do y <- eval cv pv b; Ok (x - y)%Qc
  | Mul a b => do x <- eval cv pv a; do y <- eval cv pv b; Ok (x * y)%Qc
  | Div a b =>
      do x <- eval cv pv a;
      do y <- eval cv pv b;
      if Qc_eq_bool y 0 then Err NumericDomainError else Ok (x / y)%Qc
  end.

(** The Monod-type saturation term [S/(K+S)]. *)
Definition monod (S Ks : expr) : expr := (S / (Ks + S))%expr.

(** [subterm s e]: [s] occurs in [e]. *)
Inductive subterm (s : expr) : expr -> Prop :=
| sub_here : subterm s s
| sub_add_l a b : subterm s a -> subterm s (Add a b)
| sub_add_r a b : subterm s b -> subterm s (Add a b)
| sub_sub_l a b : subterm s a -> subterm s (Sub a b)
| sub_sub_r a b : subterm s b -> subterm s (Sub a b)
| sub_mul_l a b : subterm s a -> subterm s (Mul a b)
| sub_mul_r a b : subterm s b -> subterm s (Mul a b)
| sub_div_l a b : subterm s a -> subterm s (Div a b)
| sub_div_r a b : subterm s b -> subterm s (Div a b).

(** [e] is a chain of products and quotients one of whose factors (a
    numerator factor) evaluates to zero. *)
Inductive has_zero_factor (cv pv : string -> result Qc) : expr -> Prop :=
| zf_here e : eval cv pv e = Ok 0 -> has_zero_factor cv pv e
| zf_mul_l a b : has_zero_factor cv pv a -> has_zero_factor cv pv (Mul a b)
| zf_mul_r a b : has_zero_factor cv pv b -> has_zero_factor cv pv (Mul a b)
| zf_div a b : has_zero_factor cv pv a -> has_zero_factor cv pv (Div a b).

(** Some division of [e] has a divisor that evaluates to zero. *)
Definition divides_by_zero (cv pv : string -> result Qc) (e : expr) : Prop :=
  exists a b, subterm (Div a b) e /\ eval cv pv b = Ok 0.

(** Modelled from the spec: the rate law of a process is a symbolic
    expression (section 3), resolved once from the rate string into the
    callable the evaluator runs (sections 4.3 and 4.4); neither is under
    src/.  A symbolic product holds each factor once, so a factor the
    string multiplies in and divides out again is not part of the law.
    [expr_eqb] tells two factors are the same one; a literal zero is no
    factor to strike. *)
Fixpoint expr_eqb (a b : expr) : bool :=
  match a, b with
  | Num p, Num q => Qc_eq_bool p q && negb (Qc_eq_bool p 0%Qc)
  | Conc s, Conc t => String.eqb s t
  | Par s, Par t => String.eqb s t
  | Add a1 a2, Add b1 b2 => expr_eqb a1 b1 && expr_eqb a2 b2
  | Sub a1 a2, Sub b1 b2 => expr_eqb a1 b1 && expr_eqb a2 b2
  | Mul a1 a2, Mul b1 b2 => expr_eqb a1 b1 && expr_eqb a2 b2
  | Div a1 a2, Div b1 b2 => expr_eqb a1 b1 && expr_eqb a2 b2
  | _, _ => false
  end.

(** [l] without the first factor equal to [x], if there is one. *)
Fixpoint remove_factor (x : expr) (l : list expr) : option (list expr) :=
  match l with
  | [] => None
  | y :: l' =>
      if expr_eqb x y then Some l'
      else match remove_factor x l' with
           | Some r => Some (y :: r)
           | None => None
           end
  end.

(** Numerator and denominator factors with the common ones struck, one
    for one. *)
Fixpoint cancel (nums dens : list expr) : list expr * list expr :=
  match nums with
  | [] => ([], dens)
  | x :: nums' =>
      match remove_factor x dens with
      | Some dens' => cancel nums' dens'
      | None => let (n, d) := cancel nums' dens in (x :: n, d)
      end
  end.

(** The product of the numerator factors over the denominator factors. *)
Definition product (nd : list expr * list expr) : expr :=
  fold_left Div (snd nd)
    (match fst nd with
     | [] => Num 1%Qc
     | x :: n => fold_left Mul n x
     end).

(** Modelled from the spec: [factors e] are the numerator and the
    denominator factors of [e] read as a symbolic product, in the order of
    the string; the sums and differences among them are held in symbolic
    form themselves. *)
Fixpoint factors (e : expr) : list expr * list expr :=
  match e with
  | Mul a b =>
      let (na, da) := factors a in
      let (nb, db) := factors b in
      cancel (na ++ nb) (da ++ db)
  | Div a b =>
      let (na, da) := factors a in
      let (nb, db) := factors b in
      cancel (na ++ db) (da ++ nb)
  | Add a b => ([Add (product (factors a)) (product (factors b))], [])
  | Sub a b => ([Sub (product (factors a)) (product (factors b))], [])
  | Num _ | Conc _ | Par _ => ([e], [])
  end.

(** Modelled from the spec: the symbolic rate law a rate string stands
    for. *)
Definition symbolic (e : expr) : expr := product (factors e).

(** Every concentration and parameter [e] names has a value. *)
Fixpoint symbols_defined (cv pv : string -> result Qc) (e : expr) : Prop :=
  match e with
  | Num _ => True
  | Conc s => exists v, cv s = Ok v
  | Par s => exists v, pv s = Ok v
  | Add a b | Sub a b | Mul a b | Div a b =>
      symbols_defined cv pv a /\ symbols_defined cv pv b
  end.

(** The product of a list of values. *)
Definition Qprod (l : list Qc) : Qc := fold_right Qcmult 1%Qc l.

(** The factors have values, none of the denominator's is zero. *)
Definition valued (cv pv : string -> result Qc) (n d : list expr) (nv dv : list Qc) : Prop :=
  mapM (eval cv pv) n = Ok nv /\ mapM (eval cv pv) d = Ok dv /\
  Forall (fun y => y <> 0%Qc) dv.

(** What the factors of [e] say of a value [v] of [e]. *)
Definition factored (cv pv : string -> result Qc) (e : expr) (v : Qc) : Prop :=
  exists nv dv, valued cv pv (fst (factors e)) (snd (factors e)) nv dv /\
                (v * Qprod dv = Qprod nv)%Qc.

(** ** Components, templates and processes *)

Section ProcessModel.
Context {C : Coeff}.
Open Scope K_scope.

(** A component of a compiled registry: its ID, its mass per unit of the
    measured-as basis, and its conversion factor for each conserved
    quantity ([COD], [N], [P], [NOD], [charge], ...). *)
Record Component : Type := {
  ID : string;
  i_mass : K;
  conversion : string -> K }.

Definition find_component (reg : list Component) (id : string) : option Component :=
  find (fun c => String.eqb (ID c) id) reg.

Definition factor (reg : list Component) (q id : string) : K :=
  match find_component reg id with
  | Some c => conversion c q
  | None => 0
  end.

(** A coefficient of a reaction string: a literal or parameter-linked
    value of the field, or the placeholder [?]. *)
Inductive coefficient : Type :=
| Known (k : K)
| Unknown.

(** One row of a Gujer matrix as written: [reactants -> products]. *)
Record ReactionTemplate : Type := {
  t_name : string;
  reactants : list (coefficient * string);
  products : list (coefficient * string);
  ref_component : string;
  rate_equation : expr;
  parameters : list string;
  conserved_for : option (list string) }.

(** A built process: its signed coefficients in the order of the reaction
    string (reactants negative), and the IDs of the registry it was built
    against. *)
Record Process : Type := {
  p_name : string;
  stoichiometry : list (string * K);
  p_ref : string;
  p_rate : expr;
  p_parameters : list string;
  p_conserved : list string;
  p_components : list string }.

(** A term of the reaction with its sign: [-1] for a reactant, [1] for a
    product. *)
Definition signed_terms (t : ReactionTemplate) : list (K * coefficient * string) :=
  map (fun tm => (kopp 1, fst tm, snd tm)) (reactants t) ++
  map (fun tm => (1, fst tm, snd tm)) (products t).

Fixpoint count_unknown (terms : list (K * coefficient * string)) : nat :=
  match terms with
  | [] => O
  | (_, Known _, _) :: r => count_unknown r
  | (_, Unknown, _) :: r => S (count_unknown r)
  end.

(** The conservation equation of quantity [q]: the unknowns' columns, and
    the known terms moved to the right-hand side. *)
Fixpoint unknown_row (reg : list Component) (q : string)
  (terms : list (K * coefficient * string)) : list K :=
  match terms with
  | [] => []
  | (_, Known _, _) :: r => unknown_row reg q r
  | (s, Unknown, id) :: r => s * factor reg q id :: unknown_row reg q r
  end.

Fixpoint known_sum (reg : list Component) (q : string)
  (terms : list (K * coefficient * string)) : K :=
  match terms with
  | [] => 0
  | (s, Known k, id) :: r => s * k * factor reg q id + known_sum reg q r
  | (_, Unknown, _) :: r => known_sum reg q r
  end.

Definition balance_equation (reg : list Component)
  (terms : list (K * coefficient * string)) (q : string) : equation :=
  {| lhs := unknown_row reg q terms; rhs := - known_sum reg q terms |}.

(** The signed coefficients once the unknowns are solved. *)
Fixpoint fill (terms : list (K * coefficient * string)) (sol : list K) : list (string * K) :=
  match terms with
  | [] => []
  | (s, Known k, id) :: r => (id, s * k) :: fill r sol
  | (s, Unknown, id) :: r => (id, s * hd0 sol) :: fill r (tl sol)
  end.

Definition known_component (reg : list Component) (id : string) : bool :=
  existsb (fun c => String.eqb (ID c) id) reg.

(** The quantities a template is balanced over: its own list, or the
    collection's. *)
Definition conserved_of (default_conserved : list string) (t : ReactionTemplate) : list string :=
  match conserved_for t with
  | Some l => l
  | None => default_conserved
  end.

(** Modelled from the spec: [Process] and its ConservationResolver
    (section 4.2) are not under src/.  One linear equation per conserved
    quantity, the [?] coefficients as unknowns, solved for the unique
    solution; a component the registry cannot resolve is refused. *)
Definition Process_new (reg : list Component) (default_conserved : list string)
  (t : ReactionTemplate) : result Process :=
  let terms := signed_terms t in
  let cons := conserved_of default_conserved t in
  if forallb (fun tm => known_component reg (snd tm)) terms then
    do sol <- solve (count_unknown terms) (map (balance_equation reg terms) cons);
    Ok {| p_name := t_name t;
          stoichiometry := fill terms sol;
          p_ref := ref_component t;
          p_rate := rate_equation t;
          p_parameters := parameters t;
          p_conserved := cons;
          p_components := map ID reg |}
  else Err UnknownChemicalError.

(** The coefficient of component [id] in a built row, and the dense row in
    registry order. *)
Fixpoint coeff_of (id : string) (st : list (string * K)) : K :=
  match st with
  | [] => 0
  | (id', k) :: r => if String.eqb id' id then k + coeff_of id r else coeff_of id r
  end.

Definition dense (reg : list Component) (st : list (string * K)) : list K :=
  map (fun c => coeff_of (ID c) st) reg.

(** The total of conserved quantity [q] carried by a dense row. *)
Definition quantity_total (reg : list Component) (q : string) (row : list K) : K :=
  dot row (map (fun c => conversion c q) reg).

(** The total of conserved quantity [q] over the signed coefficients of a
    reaction. *)
Definition sparse_total (reg : list Component) (q : string) (st : list (string * K)) : K :=
  fold_right (fun e acc => snd e * factor reg q (fst e) + acc) 0 st.

(** The IDs of a registry are unique (the registry invariant). *)
Definition unique_ids (reg : list Component) : Prop := NoDup (map ID reg).

(** A process built by the constructor against [reg]. *)
Definition built (reg : list Component) (p : Process) : Prop :=
  exists dc t, Process_new reg dc t = Ok p.





(** A weighted sum over the registry, one weight per component. *)
Definition wsum (g : Component -> K) (reg : list Component) (q : string) : K :=
  fold_right (fun c acc => g c * conversion c q + acc) 0 reg.

(** ** Process collections *)

Record Processes : Type := {
  components : list Component;
  processes : list Process;
  global_parameters : list string }.

Record CompiledProcesses : Type := {
  c_components : list Component;
  c_processes : list Process;
  stoichio : list (list K);
  parameter_table : list (string * option Qc) }.

(** The template files of the installation: what each path holds (its rows
    already split into the columns of section 6), and the default paths the
    constructors join from [data_path]. *)
Class DataFiles : Type := {
  read_tsv : string -> option (list ReactionTemplate);
  _path_CANDO : string;
  _path_CANDO3 : string;
  _path_Sharon : string }.

(** Modelled from the spec: [Processes.load_from_file] with
    [compile=False] is not under src/.  One process per row of the file, in
    the file's order, each built against [cmps]; the global parameter names
    are added to every row. *)
Definition load_from_file {F : DataFiles} (path : string) (conserved : list string)
  (params : list string) (cmps : list Component) : result Processes :=
  match read_tsv path with
  | None => Err FileNotFoundError
  | Some rows =>
      do ps <- mapM (Process_new cmps conserved) rows;
      Ok {| components := cmps; processes := ps; global_parameters := params |}
  end.

(** Modelled from the spec: [Processes.extend] is not under src/.  It
    appends already-built rows. *)
Definition extend (pc : Processes) (ps : list Process) : Processes :=
  {| components := components pc;
     processes := processes pc ++ ps;
     global_parameters := global_parameters pc |}.

Definition same_components (reg : list Component) (p : Process) : bool :=
  if list_eq_dec string_dec (map ID reg) (p_components p) then true else false.

Definition merged_parameters (pc : Processes) : list string :=
  nodup string_dec (global_parameters pc ++ flat_map p_parameters (processes pc)).

(** Modelled from the spec: [Processes.compile] is not under src/.  Rows
    built against another component set are refused; the matrix has one
    dense row per process, columns in registry order; the parameter table
    merges the global names and every row's names, no value set yet. *)
Definition compile (pc : Processes) : result CompiledProcesses :=
  if forallb (same_components (components pc)) (processes pc) then
    Ok {| c_components := components pc;
          c_processes := processes pc;
          stoichio := map (fun p => dense (components pc) (stoichiometry p)) (processes pc);
          parameter_table := map (fun n => (n, None)) (merged_parameters pc) |}
  else Err RegistryMismatchError.

(** Every row of the compiled matrix balances every quantity its process
    declares conserved. *)
Definition conserved (cp : CompiledProcesses) : Prop :=
  forall (i : nat) (p : Process) (row : list K) (q : string),
    nth_error (c_processes cp) i = Some p ->
    nth_error (stoichio cp) i = Some row ->
    In q (p_conserved p) ->
    quantity_total (c_components cp) q row = kzero.

(** ** The parameter table *)

Definition recognized (tbl : list (string * option Qc)) (n : string) : bool :=
  existsb (fun e => String.eqb (fst e) n) tbl.

Definition assign (tbl : list (string * option Qc)) (kv : string * Qc) : list (string * option Qc) :=
  map (fun e => if String.eqb (fst e) (fst kv) then (fst e, Some (snd kv)) else e) tbl.

Definition with_table (cp : CompiledProcesses) (tbl : list (string * option Qc)) : CompiledProcesses :=
  {| c_components := c_components cp;
     c_processes := c_processes cp;
     stoichio := stoichio cp;
     parameter_table := tbl |}.

(** Modelled from the spec: [set_parameters] is not under src/.  The
    collection is the state: the call returns its outcome and the
    collection after it.  Every name is checked before any value is
    written. *)
Definition set_parameters (kwargs : list (string * Qc)) (cp : CompiledProcesses)
  : result unit * CompiledProcesses :=
  if forallb (fun kv => recognized (parameter_table cp) (fst kv)) kwargs then
    (Ok tt, with_table cp (fold_left assign kwargs (parameter_table cp)))
  else (Err UnknownParameterError, cp).

(** The constructors return the collection when [set_parameters] returns,
    and its exception otherwise. *)
Definition after_set_parameters (r : result unit * CompiledProcesses) : result CompiledProcesses :=
  match fst r with
  | Ok _ => Ok (snd r)
  | Err e => Err e
  end.

(** ** Rate evaluation on a compiled collection *)

Fixpoint concentration (reg : list Component) (concs : list Qc) (id : string) : result Qc :=
  match reg, concs with
  | c :: reg', x :: concs' =>
      if String.eqb (ID c) id then Ok x else concentration reg' concs' id
  | _, _ => Err UnknownChemicalError
  end.

Definition parameter_value (tbl : list (string * option Qc)) (n : string) : result Qc :=
  match find (fun e => String.eqb (fst e) n) tbl with
  | Some (_, Some v) => Ok v
  | _ => Err UnknownParameterError
  end.

(** Modelled from the spec (section 4.4): the rate of one process is its
    rate law, in symbolic form, evaluated at the concentrations and the
    parameter values of the collection. *)
Definition rate_of (cp : CompiledProcesses) (concs : list Qc) (p : Process) : result Qc :=
  eval (concentration (c_components cp) concs) (parameter_value (parameter_table cp))
    (symbolic (p_rate p)).

Definition evaluate_rates (cp : CompiledProcesses) (concs : list Qc) : result (list Qc) :=
  mapM (rate_of cp concs) (c_processes cp).

End ProcessModel.

(** ** The process constructors of src/qsdsan/processes *)

(** The symbols of the hand-written rate equations of [_CANDO3.py]:
    component concentrations and named parameters. *)
Module Sym.
Definition S_O2 : expr := Conc "S_O2".
Definition S_PO4 : expr := Conc "S_PO4".
Definition S_ALK : expr := Conc "S_ALK".
Definition S_NO3 : expr := Conc "S_NO3".
Definition S_NH4 : expr := Conc "S_NH4".
Definition X_PHA : expr := Conc "X_PHA".
Definition X_PAO : expr := Conc "X_PAO".
Definition X_PP : expr := Conc "X_PP".
Definition q_PP : expr := Par "q_PP".
Definition mu_PAO : expr := Par "mu_PAO".
Definition k_O2 : expr := Par "k_O2".
Definition k_PS : expr := Par "k_PS".
Definition k_P : expr := Par "k_P".
Definition k_ALK : expr := Par "k_ALK".
Definition k_PHA : expr := Par "k_PHA".
Definition k_MAX : expr := Par "k_MAX".
Definition k_IPP : expr := Par "k_IPP".
Definition k_NH4 : expr := Par "k_NH4".
Definition k_NO3 : expr := Par "k_NO3".
Definition n_NO3 : expr := Par "n_NO3".
End Sym.

(** [rate_equation] of [_p12] (anox_storage_PP), operator for operator. *)
Definition p12_rate : expr :=
  let S_O2 := Sym.S_O2 in let S_PO4 := Sym.S_PO4 in let S_ALK := Sym.S_ALK in
  let S_NO3 := Sym.S_NO3 in let X_PHA := Sym.X_PHA in let X_PAO := Sym.X_PAO in
  let X_PP := Sym.X_PP in let q_PP := Sym.q_PP in let k_O2 := Sym.k_O2 in
  let k_PS := Sym.k_PS in let k_ALK := Sym.k_ALK in let k_PHA := Sym.k_PHA in
  let k_MAX := Sym.k_MAX in let k_IPP := Sym.k_IPP in let k_NO3 := Sym.k_NO3 in
  let n_NO3 := Sym.n_NO3 in
  (q_PP * S_O2/(k_O2+S_O2) * S_PO4/(k_PS+S_PO4) * S_ALK/(k_ALK+S_ALK)
   * (X_PHA/X_PAO)/(k_PHA+X_PHA/X_PAO)
   * (k_MAX-X_PP/X_PAO)/(k_IPP+k_MAX-X_PP/X_PAO)
   * X_PAO * n_NO3 * k_O2/S_O2 * S_NO3/(k_NO3+S_NO3))%expr.

(** [rate_equation] of [_p14] (PAO_anox_growth), operator for operator. *)
Definition p14_rate : expr :=
  let S_O2 := Sym.S_O2 in let S_PO4 := Sym.S_PO4 in let S_ALK := Sym.S_ALK in
  let S_NO3 := Sym.S_NO3 in let S_NH4 := Sym.S_NH4 in let X_PHA := Sym.X_PHA in
  let X_PAO := Sym.X_PAO in let mu_PAO := Sym.mu_PAO in let k_O2 := Sym.k_O2 in
  let k_NH4 := Sym.k_NH4 in let k_P := Sym.k_P in let k_ALK := Sym.k_ALK in
  let k_PHA := Sym.k_PHA in let k_NO3 := Sym.k_NO3 in let n_NO3 := Sym.n_NO3 in
  (mu_PAO * S_O2/(k_O2 + S_O2) * S_NH4/(k_NH4 + S_NH4) * S_PO4/(k_P + S_PO4)
   * S_ALK/(k_ALK + S_ALK) * (X_PHA/X_PAO)/(k_PHA + X_PHA/X_PAO)
   * X_PAO * n_NO3 * k_O2/S_O2 * S_NO3/(k_NO3 + S_NO3))%expr.

Section Constructors.
Context {C : Coeff} {F : DataFiles}.
Open Scope K_scope.

(** [if not path: path = _path]: [None] and the empty string are falsy. *)
Definition effective_path (default : string) (path : option string) : string :=
  match path with
  | None => default
  | Some s => if String.eqb s "" then default else s
  end.

(** [cmps.<id>.i_mass = v] on the shared registry object; a registry
    without that component has no such attribute. *)
Definition set_i_mass (cmps : list Component) (id : string) (v : K) : result (list Component) :=
  if known_component cmps id then
    Ok (map (fun c => if String.eqb (ID c) id
                      then {| ID := ID c; i_mass := v; conversion := conversion c |}
                      else c) cmps)
  else Err AttributeError.

(** [cmps.refresh_constants()] recomputes the arrays a compiled registry
    derives from its components' properties.  The registry is modelled by
    the components themselves, so the refreshed registry is the same
    value. *)
Definition refresh_constants (cmps : list Component) : list Component := cmps.

(** The keyword arguments of a [set_parameters] call: each listed name
    bound to the value of the constructor's argument of that name, then
    [**kwargs]. *)
Definition keywords (names : list string) (kw : string -> Qc) (kwargs : list (string * Qc))
  : list (string * Qc) :=
  map (fun n => (n, kw n)) names ++ kwargs.

(** *** CANDO *)

Definition CANDO_params : list string :=
  ["Y_PO4"; "Y_PHA"; "Y_DPAO_NOx"; "i_P_BM"; "i_P_XI"; "f_1"; "q_PSA"; "K_S_DPAO";
   "K_PP_DPAO"; "q_PP"; "K_PO4_PP"; "K_PHA"; "K_max_DPAO"; "K_iPP_DPAO";
   "K_DPAO_PO4"; "mu_DPAO1"; "mu_DPAO2"; "mu_DPAO3"; "mu_DPAO4"; "K_NO3"; "K_NO2";
   "K_NO2"; "K_NO"; "K_N2O"; "b_DPAO"; "b_PP"; "b_PHA"; "K_NOx"]%string.

Definition CANDO_call_names : list string :=
  ["Y_PO4"; "Y_PHA"; "Y_DPAO_NOx"; "i_P_BM"; "i_P_XI"; "f_1"; "q_PHA"; "K_S_DPAO";
   "K_PP_DPAO"; "q_PP"; "K_PO4_PP"; "K_PHA"; "K_max_DPAO"; "K_iPP_DPAO";
   "K_DPAO_PO4"; "mu_DPAO1"; "mu_DPAO2"; "mu_DPAO3"; "mu_DPAO4"; "K_NO3"; "K_NO2";
   "K_NO"; "K_N2O"; "b_DPAO"; "b_PP"; "b_PHA"; "K_NOx"]%string.

(** [Processes.load_from_file(..., compile=True)]: load, then compile. *)
Definition load_and_compile (path : string) (conserved params : list string)
  (cmps : list Component) : result CompiledProcesses :=
  do self <- load_from_file path conserved params cmps;
  compile self.

(** [CANDO.__new__].  [cmps] is the registry object
    [_load_components(components)] returns; the constructor writes to it,
    so it is returned with the outcome.  [kw] binds the constructor's named
    arguments. *)
Definition CANDO_new (cmps : list Component) (kw : string -> Qc) (fr_SS_COD : K)
  (path : option string) (kwargs : list (string * Qc))
  : list Component * result CompiledProcesses :=
  let path := effective_path _path_CANDO path in
  match set_i_mass cmps "X_I" fr_SS_COD with
  | Err e => (cmps, Err e)
  | Ok cmps =>
      let cmps := refresh_constants cmps in
      (cmps,
       do self <- load_and_compile path ["COD"; "charge"; "N"]%string CANDO_params cmps;
       after_set_parameters (set_parameters (keywords CANDO_call_names kw kwargs) self))
  end.

(** *** Sharon *)

Definition Sharon_params : list string := CANDO_params.

Definition Sharon_call_names : list string :=
  ["Y_1"; "Y_2"; "Y_3"; "Y_4"; "Y_5"; "n_amm"; "n_nit"; "n_het"; "h_amm"; "h_nit";
   "h_het"; "o_amm"; "o_nit"; "o_het"; "mu_amm_max"; "mu_nit_max"; "mu_dNO2_max";
   "mu_dNO3_max"; "mu_met_max"; "K_amm_nh3"; "K_I_amm_HNO2"; "K_amm_O2";
   "K_nit_HNO2"; "K_nit_O2"; "K_dNO2_NO2"; "K_hetan_CH3OH"; "K_I_O2"; "K_dNO3_NO3";
   "K_hetox_CH3OH"; "K_het_O2"]%string.

(** [Sharon.__new__]. *)
Definition Sharon_new (cmps : list Component) (kw : string -> Qc)
  (path : option string) (kwargs : list (string * Qc))
  : list Component * result CompiledProcesses :=
  let path := effective_path _path_Sharon path in
  let cmps := refresh_constants cmps in
  (cmps,
   do self <- load_and_compile path ["COD"; "charge"; "N"]%string Sharon_params cmps;
   after_set_parameters (set_parameters (keywords Sharon_call_names kw kwargs) self)).

(** *** CANDO3 *)

Definition CANDO3_params : list string :=
  ["k_H"; "k_X"; "mu_H"; "b_H"; "nu_H1"; "nu_H2"; "nu_H3"; "nu_H4"; "k_OH1"; "k_OH2";
   "k_OH3"; "k_OH4"; "k_OH5"; "k_S1"; "k_S2"; "k_S3"; "k_S4"; "k_S5";
   "k_HB_NO3"; "k_HB_NO2"; "k_HB_NO"; "k_HB_N2O"; "k_HB_I1_NO";
   "k_HB_I2_NO"; "k_HB_I3_NO"; "Y_PHA"; "Y_PAO"; "Y_PO4"; "f_XI"; "Y_H"; "f_1";
   "i_NBM"; "i_NXS"; "i_PBM"; "i_NXI";
   "b_PAO"; "b_PP"; "b_PHA"; "k_PP"; "q_PHA"; "k_A"; "k_ALK"; "q_PP"; "k_PS";
   "k_MAX"; "k_P"; "k_IPP"; "k_O2"; "k_NO3"; "k_PHA"; "n_NO3"; "mu_PAO"; "k_NH4"]%string.

Definition CANDO3_call_names : list string :=
  ["k_H"; "k_X"; "mu_H"; "b_H"; "nu_H1"; "nu_H2";
   "nu_H3"; "nu_H4"; "k_OH1"; "k_OH2"; "k_OH3";
   "k_OH4"; "k_OH5"; "k_S1"; "k_S2"; "k_S3"; "k_S4";
   "k_S5"; "k_HB_NO3"; "k_HB_NO2"; "k_HB_NO";
   "k_HB_N2O"; "k_HB_I1_NO"; "k_HB_I2_NO";
   "k_HB_I3_NO"; "Y_PHA"; "Y_PAO"; "Y_PO4"; "f_XI";
   "Y_H"; "b_PAO"; "b_PP"; "b_PHA"; "k_PP"; "q_PHA";
   "k_A"; "k_ALK"; "q_PP"; "k_PS"; "k_MAX"; "k_P";
   "k_IPP"; "k_O2"; "k_NO3"; "k_PHA"; "n_NO3";
   "mu_PAO"; "k_NH4"; "f_1"; "i_NBM"; "i_NXS"; "i_PBM"; "i_NXI"]%string.

(** [S_PO4 + [Y_PHA]X_PHA + [?]S_NO3 -> X_PP + [?]S_N2 + [?]S_NH4 + [?]S_ALK] *)
Definition p12_template : ReactionTemplate :=
  {| t_name := "anox_storage_PP";
     reactants := [(Known 1, "S_PO4"); (Known (ksym "Y_PHA"), "X_PHA"); (Unknown, "S_NO3")]%string;
     products := [(Known 1, "X_PP"); (Unknown, "S_N2"); (Unknown, "S_NH4"); (Unknown, "S_ALK")]%string;
     ref_component := "X_PP";
     rate_equation := p12_rate;
     parameters := ["Y_PHA"; "q_PP"; "k_O2"; "k_PS"; "k_ALK"; "k_PHA"; "n_NO3"; "k_IPP"; "k_NO3"]%string;
     conserved_for := Some ["COD"; "N"; "P"; "NOD"; "charge"]%string |}.

(** [[1/Y_PAO]X_PHA + [?]S_NO3 + [?]S_PO4 -> X_PAO + [?]S_N2 + [?]S_NH4 + [?]S_ALK] *)
Definition p14_template : ReactionTemplate :=
  {| t_name := "PAO_anox_growth";
     reactants := [(Known (1 / ksym "Y_PAO"), "X_PHA"); (Unknown, "S_NO3"); (Unknown, "S_PO4")]%string;
     products := [(Known 1, "X_PAO"); (Unknown, "S_N2"); (Unknown, "S_NH4"); (Unknown, "S_ALK")]%string;
     ref_component := "X_PAO";
     rate_equation := p14_rate;
     parameters := ["Y_PAO"; "mu_PAO"; "k_O2"; "k_NH4"; "k_P"; "k_ALK"; "k_PHA"; "n_NO3"; "k_NO3"]%string;
     conserved_for := Some ["COD"; "N"; "P"; "NOD"; "charge"]%string |}.

(** The collection [CANDO3.__new__] holds when it reaches
    [self.compile()]: the rows of the file, and [_p12], [_p14] appended
    under [if path == _path]. *)
Definition CANDO3_collection (cmps : list Component) (path : string) : result Processes :=
  do self <- load_from_file path ["COD"; "charge"; "N"; "P"]%string CANDO3_params cmps;
  if String.eqb path _path_CANDO3 then
    do _p12 <- Process_new cmps [] p12_template;
    do _p14 <- Process_new cmps [] p14_template;
    Ok (extend self [_p12; _p14])
  else Ok self.

(** [CANDO3.__new__]. *)
Definition CANDO3_new (cmps : list Component) (kw : string -> Qc) (fr_SS_COD : K)
  (path : option string) (kwargs : list (string * Qc))
  : list Component * result CompiledProcesses :=
  let path := effective_path _path_CANDO3 path in
  match set_i_mass cmps "X_I" fr_SS_COD with
  | Err e => (cmps, Err e)
  | Ok cmps =>
      let cmps := refresh_constants cmps in
      (cmps,
       do self <- CANDO3_collection cmps path;
       do self <- compile self;
       after_set_parameters (set_parameters (keywords CANDO3_call_names kw kwargs) self))
  end.

End Constructors.

(** ** Waste streams and the unit operations of src/qsdsan/sanunits *)

Open Scope Qc_scope.

Definition num (z : Z) : Qc := Q2Qc (inject_Z z).

(** What the unit operations read and write of a waste stream: the mass
    flow of each component ([imass], kg/hr), the stored COD ([_COD], unset
    or in g/m3) and the phase. *)
Record WasteStream : Type := {
  imass : string -> Qc;
  _COD : option Qc;
  phase : string }.

(** The properties a stream computes from its flows and the helper of
    [Decay]; they are not under src/ and are taken as given. *)
Class StreamProps : Type := {
  F_vol : WasteStream -> Qc;
  TN : WasteStream -> Qc;
  COD : WasteStream -> Qc;
  allocate_N_removal : Qc -> Qc -> Qc * Qc }.

Definition empty_stream : WasteStream :=
  {| imass := fun _ => 0; _COD := None; phase := "l" |}.

(** [self.copy_like(other)]: every modelled attribute is copied. *)
Definition copy_like (self other : WasteStream) : WasteStream := other.

(** [s.empty()]: all flows become zero. *)
Definition empty (s : WasteStream) : WasteStream :=
  {| imass := fun _ => 0; _COD := _COD s; phase := phase s |}.

(** [s.imass[c] = v] *)
Definition set_imass (s : WasteStream) (c : string) (v : Qc) : WasteStream :=
  {| imass := fun c' => if String.eqb c' c then v else imass s c';
     _COD := _COD s; phase := phase s |}.

(** [s.imass[cs] *= f] for a tuple of IDs. *)
Definition scale_imass (s : WasteStream) (cs : list string) (f : Qc) : WasteStream :=
  {| imass := fun c => if existsb (String.eqb c) cs then imass s c * f else imass s c;
     _COD := _COD s; phase := phase s |}.

Definition set_phase (s : WasteStream) (p : string) : WasteStream :=
  {| imass := imass s; _COD := _COD s; phase := p |}.

(** [self.mix_from(streams)]: the flows add up. *)
Definition mix_from (self : WasteStream) (streams : list WasteStream) : WasteStream :=
  {| imass := fun c => fold_right (fun s acc => imass s c + acc) 0 streams;
     _COD := _COD self; phase := phase self |}.

(** *** AnaerobicBaffledReactor *)

Record AnaerobicBaffledReactor : Type := {
  degraded_components : list string;
  if_capture_biogas : bool;
  if_N2O_emission : bool;
  COD_removal : Qc;
  N_removal : Qc;
  MCF_decay : Qc;
  max_CH4_emission : Qc;
  N_max_decay : Qc;
  N2O_EF_decay : Qc }.

Record ABR_outs : Type := {
  treated : WasteStream;
  biogas : WasteStream;
  CH4 : WasteStream;
  N2O : WasteStream }.

(** [waste._COD or waste.COD]: an unset or zero [_COD] is falsy. *)
Definition COD_or {P : StreamProps} (waste : WasteStream) : Qc :=
  match _COD waste with
  | Some c => if Qc_eq_bool c 0 then COD waste else c
  | None => COD waste
  end.

(** [AnaerobicBaffledReactor._run], statement by statement.  [outs] are
    the outlet streams as they are before the call.  [treated._COD *= ...]
    on an unset [_COD] is [None *= float], a [TypeError]. *)
Definition ABR_run {P : StreamProps} (self : AnaerobicBaffledReactor)
  (waste : WasteStream) (outs : ABR_outs) : result ABR_outs :=
  let treated := copy_like (treated outs) waste in
  let biogas := set_phase (biogas outs) "g" in
  let CH4 := set_phase (CH4 outs) "g" in
  let N2O := set_phase (N2O outs) "g" in
  let _COD' := COD_or waste in
  let COD_deg := _COD' * F_vol waste / num 1000 * COD_removal self in
  match _COD treated with
  | None => Err TypeError
  | Some c =>
      let treated :=
        {| imass := imass treated; _COD := Some (c * (1 - COD_removal self));
           phase := phase treated |} in
      let treated := scale_imass treated (degraded_components self) (1 - COD_removal self) in
      let CH4_prcd := COD_deg * MCF_decay self * max_CH4_emission self in
      let biogas := if if_capture_biogas self then set_imass biogas "CH4" CH4_prcd
                    else empty biogas in
      let CH4 := if if_capture_biogas self then empty CH4
                 else set_imass CH4 "CH4" CH4_prcd in
      let N_tot := TN waste / num 1000 * F_vol waste in
      let N_loss_tot := N_tot * N_removal self in
      let rmd := allocate_N_removal N_loss_tot (imass waste "NH3") in
      let treated := set_imass treated "NH3" (imass waste "NH3" - fst rmd) in
      let treated := set_imass treated "NonNH3" (imass waste "NonNH3" - snd rmd) in
      let N2O := if if_N2O_emission self
                 then set_imass N2O "N2O"
                        (N_loss_tot * N_max_decay self * N2O_EF_decay self * num 44 / num 28)
                 else empty N2O in
      Ok {| treated := treated; biogas := biogas; CH4 := CH4; N2O := N2O |}
  end.

(** *** ElectroChemCell *)

Record ECC_outs : Type := {
  recovered : WasteStream;
  removed : WasteStream;
  left : WasteStream }.

(** One pass of [for chemical, ratio in d.items()]: the target outlet gets
    the mixture's flow times the ratio, [left] loses it. *)
Definition split_off (mixture : WasteStream) (st : WasteStream * WasteStream)
  (item : string * Qc) : WasteStream * WasteStream :=
  let (target, left) := st in
  let (chemical, ratio) := item in
  (set_imass target chemical (imass mixture chemical * ratio),
   set_imass left chemical (imass left chemical - imass mixture chemical * ratio)).

(** [ElectroChemCell._run], statement by statement.  The two mappings are
    Python dicts: association lists in insertion order. *)
Definition ECC_run (recovery removal : list (string * Qc))
  (influent cleaner : WasteStream) (outs : ECC_outs) : ECC_outs :=
  let mixture := mix_from empty_stream [influent; cleaner] in
  let left := copy_like (left outs) mixture in
  let (recovered, left) := fold_left (split_off mixture) recovery (recovered outs, left) in
  let (removed, left) := fold_left (split_off mixture) removal (removed outs, left) in
  {| recovered := recovered; removed := removed; left := left |}.

(** The mass of [c] entering an [ElectroChemCell]: both inlets mixed. *)
Definition mixed_mass (influent cleaner : WasteStream) (c : string) : Qc :=
  imass influent c + imass cleaner c.

(** The sum of the ratios a mapping holds for [c]. *)
Fixpoint ratio_sum (c : string) (items : list (string * Qc)) : Qc :=
  match items with
  | [] => 0
  | (k, r) :: rest => if String.eqb k c then r + ratio_sum c rest else ratio_sum c rest
  end.

(** A stream that carries nothing. *)
Definition carries_nothing (s : WasteStream) : Prop := forall c, imass s c = 0.

(** *** Outlets and derived quantities *)

Definition ECC_outlets (o : ECC_outs) : list WasteStream :=
  [recovered o; removed o; left o].

Definition ABR_outlets (o : ABR_outs) : list WasteStream :=
  [treated o; biogas o; CH4 o; N2O o].

(** The outlet that receives the produced CH4. *)
Definition CH4_outlet (self : AnaerobicBaffledReactor) (o : ABR_outs) : WasteStream :=
  if if_capture_biogas self then biogas o else CH4 o.

(** [COD_deg] of [AnaerobicBaffledReactor._run], kg/hr. *)
Definition COD_deg {P : StreamProps} (self : AnaerobicBaffledReactor) (waste : WasteStream) : Qc :=
  COD_or waste * F_vol waste / num 1000 * COD_removal self.

(** *** Element balances *)

(** The mass of one element a stream carries, given the components of the
    property package and how much of the element each holds per unit
    mass. *)
Definition element_mass (chemicals : list string) (content : string -> Qc)
  (s : WasteStream) : Qc :=
  fold_right (fun c acc => imass s c * content c + acc) 0 chemicals.

Definition element_total (chemicals : list string) (content : string -> Qc)
  (streams : list WasteStream) : Qc :=
  fold_right (fun s acc => element_mass chemicals content s + acc) 0 streams.

(** ** The other units of src/qsdsan/sanunits and src/sanitation/units *)

(** [x / y] on floats, where the quotient is a number: on a zero divisor
    Python floats raise [ZeroDivisionError] and numpy floats give [inf] or
    [nan]; either way there is no quotient. *)
Definition fdiv (x y : Qc) : option Qc :=
  if Qc_eq_bool y 0 then None else Some (x / y).

(** [ceil(i)] of the [N_reactor] and [N_baffle] setters. *)
Definition ceil (i : Qc) : Z := Qceiling i.

(** [Decay.first_order_decay(k, t, max_decay)]; [Decay] is not under src/
    and the method is taken as given. *)
Class Decay : Type := {
  first_order_decay : Qc -> Qc -> Qc -> Qc }.

(** *** AnaerobicBaffledReactor._design *)

Module ABR.

(** The attributes [_design] reads. *)
Record dimensions : Type := {
  _N_reactor : Z;
  _N_baffle : Z;
  reactor_L : Qc;
  reactor_W : Qc;
  reactor_H : Qc;
  add_concrete : Qc;
  concrete_thickness : Qc }.

Definition gravel_density : Qc := num 1600.

(** The single reactor volume and the quantities written to the three
    construction items. *)
Record quantities : Type := {
  volume : Qc;
  concrete : Qc;
  gravel : Qc;
  excavation : Qc }.

(** [AnaerobicBaffledReactor._design], statement by statement. *)
Definition _design (self : dimensions) : option quantities :=
  let N := num (_N_reactor self) in
  let N_b := num (_N_baffle self) in
  let L := reactor_L self in
  let W := reactor_W self in
  let H := reactor_H self in
  let V := L * W * H in
  let concrete :=
    N * concrete_thickness self
    * (num 2 * L * W + num 2 * L * H + (num 2 + N_b) * W * H) * add_concrete self in
  match fdiv (N * V) (N_b + 1) with
  | None => None
  | Some q =>
      Some {| volume := V; concrete := concrete;
              gravel := q * gravel_density; excavation := N * V |}
  end.

(** The [N_baffle] setter: [self._N_baffle = ceil(i)]. *)
Definition set_N_baffle (self : dimensions) (i : Qc) : dimensions :=
  {| _N_reactor := _N_reactor self;
     _N_baffle := ceil i;
     reactor_L := reactor_L self;
     reactor_W := reactor_W self;
     reactor_H := reactor_H self;
     add_concrete := add_concrete self;
     concrete_thickness := concrete_thickness self |}.

End ABR.

(** *** AnaerobicDigestion *)

Module AD.

Record AnaerobicDigestion : Type := {
  _flow_rate : option Qc;
  degraded_components : list string;
  if_capture_biogas : bool;
  if_N2O_emission : bool;
  COD_removal : Qc;
  MCF_decay : Qc;
  max_CH4_emission : Qc;
  decay_k_N : Qc;
  N_max_decay : Qc;
  N2O_EF_decay : Qc;
  tau : Qc;
  _N_reactor : Z;
  headspace_frac : Qc }.

(** [AnaerobicDigestion._run], statement by statement; the four outlets
    are those of [AnaerobicBaffledReactor]. *)
Definition _run {P : StreamProps} {D : Decay} (self : AnaerobicDigestion)
  (waste : WasteStream) (outs : ABR_outs) : result ABR_outs :=
  let treated := copy_like (treated outs) waste in
  let biogas := set_phase (biogas outs) "g" in
  let CH4 := set_phase (CH4 outs) "g" in
  let N2O := set_phase (N2O outs) "g" in
  let _COD' := COD_or waste in
  let COD_deg := _COD' * F_vol treated / num 1000 * COD_removal self in
  match _COD treated with
  | None => Err TypeError
  | Some c =>
      let treated :=
        {| imass := imass treated; _COD := Some (c * (1 - COD_removal self));
           phase := phase treated |} in
      let treated := scale_imass treated (degraded_components self) (1 - COD_removal self) in
      let CH4_prcd := COD_deg * MCF_decay self * max_CH4_emission self in
      let biogas := if if_capture_biogas self then set_imass biogas "CH4" CH4_prcd
                    else empty biogas in
      let CH4 := if if_capture_biogas self then empty CH4
                 else set_imass CH4 "CH4" CH4_prcd in
      if if_N2O_emission self then
        let N_loss := first_order_decay (decay_k_N self) (tau self / num 365)
                        (N_max_decay self) in
        let N_loss_tot := N_loss * TN waste / num 1000 * F_vol waste in
        let rmd := allocate_N_removal N_loss_tot (imass waste "NH3") in
        let treated := set_imass treated "NH3" (imass waste "NH3" - fst rmd) in
        let treated := set_imass treated "NonNH3" (imass waste "NonNH3" - snd rmd) in
        let N2O := set_imass N2O "N2O" (N_loss_tot * N2O_EF_decay self * num 44 / num 28) in
        Ok {| treated := treated; biogas := biogas; CH4 := CH4; N2O := N2O |}
      else
        Ok {| treated := treated; biogas := biogas; CH4 := CH4; N2O := empty N2O |}
  end.

(** The [flow_rate] property: a stored value that is unset or zero is
    falsy, and the inlet flow [F_vol_in] (m3/hr) times 24 is returned. *)
Definition flow_rate (self : AnaerobicDigestion) (F_vol_in : Qc) : Qc :=
  match _flow_rate self with
  | Some q => if Qc_eq_bool q 0 then F_vol_in * num 24 else q
  | None => F_vol_in * num 24
  end.

Definition set_flow_rate (self : AnaerobicDigestion) (i : option Qc) : AnaerobicDigestion :=
  {| _flow_rate := i;
     degraded_components := degraded_components self;
     if_capture_biogas := if_capture_biogas self;
     if_N2O_emission := if_N2O_emission self;
     COD_removal := COD_removal self;
     MCF_decay := MCF_decay self;
     max_CH4_emission := max_CH4_emission self;
     decay_k_N := decay_k_N self;
     N_max_decay := N_max_decay self;
     N2O_EF_decay := N2O_EF_decay self;
     tau := tau self;
     _N_reactor := _N_reactor self;
     headspace_frac := headspace_frac self |}.

(** The [N_reactor] setter: [self._N_reactor = ceil(i)]. *)
Definition set_N_reactor (self : AnaerobicDigestion) (i : Qc) : AnaerobicDigestion :=
  {| _flow_rate := _flow_rate self;
     degraded_components := degraded_components self;
     if_capture_biogas := if_capture_biogas self;
     if_N2O_emission := if_N2O_emission self;
     COD_removal := COD_removal self;
     MCF_decay := MCF_decay self;
     max_CH4_emission := max_CH4_emission self;
     decay_k_N := decay_k_N self;
     N_max_decay := N_max_decay self;
     N2O_EF_decay := N2O_EF_decay self;
     tau := tau self;
     _N_reactor := ceil i;
     headspace_frac := headspace_frac self |}.

(** [design['Single reactor volume']] of [AnaerobicDigestion._design]: the
    statements up to [V_single].  The diameter, the height and the concrete
    that follow take a cube root and [pi] and are not modelled. *)
Definition single_reactor_volume (self : AnaerobicDigestion) (F_vol_in : Qc) : option Qc :=
  let Q := flow_rate self F_vol_in in
  let tau := tau self in
  let N := _N_reactor self in
  let V_tot := Q * tau * num 24 in
  match fdiv V_tot (1 - headspace_frac self) with
  | Some x => fdiv x (num (N - 1))
  | None => None
  end.

End AD.

(** *** SludgeDigester *)

Module SD.

Record SludgeDigester : Type := {
  SRT : Qc;
  Y : Qc;
  b : Qc;
  organics_conversion : Qc;
  COD_factor : Qc;
  methane_yield : Qc;
  _t_wall : Qc;
  _t_slab : Qc }.

(** The [t_wall] and [t_slab] properties: a stored slab thickness of zero
    is falsy, and the wall thickness plus two inches is returned. *)
Definition t_wall (self : SludgeDigester) : Qc := _t_wall self.

Definition t_slab (self : SludgeDigester) : Qc :=
  if Qc_eq_bool (_t_slab self) 0 then t_wall self + Q2Qc (2 # 12) else _t_slab self.

Definition set_t_slab (self : SludgeDigester) (i : Qc) : SludgeDigester :=
  {| SRT := SRT self; Y := Y self; b := b self;
     organics_conversion := organics_conversion self;
     COD_factor := COD_factor self;
     methane_yield := methane_yield self;
     _t_wall := _t_wall self;
     _t_slab := i |}.

End SD.

(** *** The earlier AnaerobicBaffledReactor of src/sanitation/units *)

Module Legacy.

Record AnaerobicBaffledReactor : Type := {
  if_N2O_emission : bool;
  COD_removal : Qc;
  N_removal : Qc;
  MCF_decay : Qc;
  max_CH4_emission : Qc;
  decay_k_N : Qc;
  N_max_decay : Qc;
  N2O_EF_decay : Qc;
  tau : Qc }.

Record outs : Type := {
  treated : WasteStream;
  CH4 : WasteStream;
  N2O : WasteStream }.

(** [AnaerobicBaffledReactor._run] of
    [sanitation/units/_anaerobic_baffled_reactor.py], statement by
    statement.  [waste._COD * ...] on an unset [_COD] is [None * float], a
    [TypeError]. *)
Definition _run {P : StreamProps} {D : Decay} (self : AnaerobicBaffledReactor)
  (waste : WasteStream) (outs : outs) : result Legacy.outs :=
  let treated := copy_like (treated outs) waste in
  let CH4 := set_phase (CH4 outs) "g" in
  let N2O := set_phase (N2O outs) "g" in
  match _COD waste with
  | None => Err TypeError
  | Some w =>
      let COD_deg := w * F_vol waste / num 1000 * COD_removal self in
      match _COD treated with
      | None => Err TypeError
      | Some c =>
          let treated :=
            {| imass := imass treated; _COD := Some (c * (1 - COD_removal self));
               phase := phase treated |} in
          let treated := scale_imass treated ["OtherSS"%string] (1 - COD_removal self) in
          let CH4_prcd := COD_deg * MCF_decay self * max_CH4_emission self in
          let CH4 := set_imass CH4 "CH4" CH4_prcd in
          if if_N2O_emission self then
            let N_loss := first_order_decay (decay_k_N self) (tau self / num 365)
                            (N_max_decay self) in
            let N_loss_tot := N_loss * TN waste / num 1000 * F_vol waste * N_removal self in
            let rmd := allocate_N_removal N_loss_tot (imass waste "NH3") in
            let treated := set_imass treated "NH3" (imass waste "NH3" - fst rmd) in
            let treated := set_imass treated "NonNH3" (imass waste "NonNH3" - snd rmd) in
            let N2O := set_imass N2O "N2O" (N_loss_tot * N2O_EF_decay self * num 44 / num 28) in
            Ok {| treated := treated; CH4 := CH4; N2O := N2O |}
          else
            Ok {| treated := treated; CH4 := CH4; N2O := empty N2O |}
      end
  end.

End Legacy.

(** *** The rate equations of CANDO3 without the oxygen quotient *)

(** [p12_rate] and [p14_rate] with [S_O2/(k_O2+S_O2) * ... * k_O2/S_O2]
    written as the one factor [k_O2/(k_O2+S_O2)]; every other operator is
    as in the source. *)
Definition p12_inhibited : expr :=
  let S_O2 := Sym.S_O2 in let S_PO4 := Sym.S_PO4 in let S_ALK := Sym.S_ALK in
  let S_NO3 := Sym.S_NO3 in let X_PHA := Sym.X_PHA in let X_PAO := Sym.X_PAO in
  let X_PP := Sym.X_PP in let q_PP := Sym.q_PP in let k_O2 := Sym.k_O2 in
  let k_PS := Sym.k_PS in let k_ALK := Sym.k_ALK in let k_PHA := Sym.k_PHA in
  let k_MAX := Sym.k_MAX in let k_IPP := Sym.k_IPP in let k_NO3 := Sym.k_NO3 in
  let n_NO3 := Sym.n_NO3 in
  (q_PP * k_O2/(k_O2+S_O2) * S_PO4/(k_PS+S_PO4) * S_ALK/(k_ALK+S_ALK)
   * (X_PHA/X_PAO)/(k_PHA+X_PHA/X_PAO)
   * (k_MAX-X_PP/X_PAO)/(k_IPP+k_MAX-X_PP/X_PAO)
   * X_PAO * n_NO3 * S_NO3/(k_NO3+S_NO3))%expr.

Definition p14_inhibited : expr :=
  let S_O2 := Sym.S_O2 in let S_PO4 := Sym.S_PO4 in let S_ALK := Sym.S_ALK in
  let S_NO3 := Sym.S_NO3 in let S_NH4 := Sym.S_NH4 in let X_PHA := Sym.X_PHA in
  let X_PAO := Sym.X_PAO in let mu_PAO := Sym.mu_PAO in let k_O2 := Sym.k_O2 in
  let k_NH4 := Sym.k_NH4 in let k_P := Sym.k_P in let k_ALK := Sym.k_ALK in
  let k_PHA := Sym.k_PHA in let k_NO3 := Sym.k_NO3 in let n_NO3 := Sym.n_NO3 in
  (mu_PAO * k_O2/(k_O2 + S_O2) * S_NH4/(k_NH4 + S_NH4) * S_PO4/(k_P + S_PO4)
   * S_ALK/(k_ALK + S_ALK) * (X_PHA/X_PAO)/(k_PHA + X_PHA/X_PAO)
   * X_PAO * n_NO3 * S_NO3/(k_NO3 + S_NO3))%expr.

(** *** The rate equations of CANDO3 as symbolic products *)

(** The rate equation of [_p12] with the factors struck that the string
    multiplies in and divides out again: [S_O2] of [S_O2/(k_O2+S_O2)]
    against [k_O2/S_O2], and [X_PAO] of [(X_PHA/X_PAO)] against
    [* X_PAO]. *)
Definition p12_symbolic : expr :=
  let S_O2 := Sym.S_O2 in let S_PO4 := Sym.S_PO4 in let S_ALK := Sym.S_ALK in
  let S_NO3 := Sym.S_NO3 in let X_PHA := Sym.X_PHA in let X_PAO := Sym.X_PAO in
  let X_PP := Sym.X_PP in let q_PP := Sym.q_PP in let k_O2 := Sym.k_O2 in
  let k_PS := Sym.k_PS in let k_ALK := Sym.k_ALK in let k_PHA := Sym.k_PHA in
  let k_MAX := Sym.k_MAX in let k_IPP := Sym.k_IPP in let k_NO3 := Sym.k_NO3 in
  let n_NO3 := Sym.n_NO3 in
  (q_PP * S_PO4 * S_ALK * X_PHA * (k_MAX-X_PP/X_PAO) * n_NO3 * k_O2 * S_NO3
   / (k_O2+S_O2) / (k_PS+S_PO4) / (k_ALK+S_ALK) / (k_PHA+X_PHA/X_PAO)
   / (k_IPP+k_MAX-X_PP/X_PAO) / (k_NO3+S_NO3))%expr.

(** The same for [_p14]. *)
Definition p14_symbolic : expr :=
  let S_O2 := Sym.S_O2 in let S_PO4 := Sym.S_PO4 in let S_ALK := Sym.S_ALK in
  let S_NO3 := Sym.S_NO3 in let S_NH4 := Sym.S_NH4 in let X_PHA := Sym.X_PHA in
  let X_PAO := Sym.X_PAO in let mu_PAO := Sym.mu_PAO in let k_O2 := Sym.k_O2 in
  let k_NH4 := Sym.k_NH4 in let k_P := Sym.k_P in let k_ALK := Sym.k_ALK in
  let k_PHA := Sym.k_PHA in let k_NO3 := Sym.k_NO3 in let n_NO3 := Sym.n_NO3 in
  (mu_PAO * S_NH4 * S_PO4 * S_ALK * X_PHA * n_NO3 * k_O2 * S_NO3
   / (k_O2 + S_O2) / (k_NH4 + S_NH4) / (k_P + S_PO4) / (k_ALK + S_ALK)
   / (k_PHA + X_PHA/X_PAO) / (k_NO3 + S_NO3))%expr.

(** ** A small installation, to run the definitions on *)

(** Every parameter symbol valued 1/2. *)
Definition example_val : string -> Qc := fun _ => Q2Qc (1 # 2).

Definition QcK : Coeff := Qc_coeff example_val.

(** A component from its conversion factors for COD, N, P, NOD and
    charge. *)
Definition example_component (id : string) (cod n p nod ch : Z) : @Component QcK :=
  @Build_Component QcK id 1
    (fun q =>
       if String.eqb q "COD" then num cod
       else if String.eqb q "N" then num n
       else if String.eqb q "P" then num p
       else if String.eqb q "NOD" then num nod
       else if String.eqb q "charge" then num ch
       else 0).

Definition example_cmps : list (@Component QcK) :=
  [ example_component "S_NO3" (-4) 1 0 0 (-1);
    example_component "S_NH4" 0 1 0 1 1;
    example_component "S_O2" (-1) 0 0 0 0;
    example_component "S_N2" (-2) 1 0 0 0;
    example_component "S_PO4" 0 0 1 0 (-1);
    example_component "S_ALK" 0 0 0 0 (-1);
    example_component "X_PHA" 1 0 0 0 0;
    example_component "X_PP" 0 0 1 0 (-1);
    example_component "X_I" 1 0 0 0 0;
    example_component "X_PAO" 1 0 0 0 0 ]%string.

(** [X_PHA -> X_PAO], at rate [mu_PAO * X_PAO]. *)
Definition example_row : @ReactionTemplate QcK :=
  @Build_ReactionTemplate QcK "conversion"
    [(@Known QcK 1, "X_PHA"%string)]
    [(@Known QcK 1, "X_PAO"%string)]
    "X_PAO" (Sym.mu_PAO * Sym.X_PAO)%expr ["mu_PAO"%string] None.

Definition example_files : @DataFiles QcK :=
  @Build_DataFiles QcK
    (fun path =>
       if String.eqb path "data/process_data/_CANDO3.tsv" then Some [example_row]
       else if String.eqb path "data/process_data/_CANDO.tsv" then Some [example_row]
       else if String.eqb path "data/process_data/_Sharon.tsv" then Some [example_row]
       else if String.eqb path "other.tsv" then Some [example_row; example_row]
       else None)
    "data/process_data/_CANDO.tsv"
    "data/process_data/_CANDO3.tsv"
    "data/process_data/_Sharon.tsv".

(** A process written by hand against [example_cmps], and a compiled
    collection that holds one parameter. *)
Definition example_process : @Process QcK :=
  @Build_Process QcK "by_hand" [("X_I"%string, 1)] "X_I" (Num 1) [] []
    (map (@ID QcK) example_cmps).

(** A second process written by hand: [X_PHA -> X_PAO]. *)
Definition example_growth : @Process QcK :=
  @Build_Process QcK "by_hand_growth" [("X_PHA"%string, Qcopp 1); ("X_PAO"%string, 1)]
    "X_PAO" (Num 1) [] [] (map (@ID QcK) example_cmps).

Definition example_compiled : @CompiledProcesses QcK :=
  @Build_CompiledProcesses QcK [] [] [] [("mu_PAO"%string, None)].

Definition example_kw : string -> Qc := fun _ => Q2Qc (1 # 2).

(** The rates of the collection [CANDO3.__new__] returns on the example
    installation, at the concentrations [concs] (in the order of
    [example_cmps]). *)
Definition example_rates (concs : list Qc) : result (list Qc) :=
  do cp <- snd (@CANDO3_new QcK example_files example_cmps example_kw 1 None []);
  evaluate_rates cp concs.

(** Concentrations in the order of [example_cmps]: 1, but [X_PP] 1/4; and
    the same with [S_O2] at 0. *)
Definition aerobic_concs : list Qc := [1; 1; 1; 1; 1; 1; 1; Q2Qc (1 # 4); 1; 1].

Definition anoxic_concs : list Qc := [1; 1; 0; 1; 1; 1; 1; Q2Qc (1 # 4); 1; 1].

(** Every parameter 1/2. *)
Definition half_pv : string -> result Qc := fun _ => Ok (Q2Qc (1 # 2)).

(** A process written by hand against [example_cmps] with the rate
    equation of [_p12], in a compiled collection that holds every
    parameter of [CANDO3._params] at 1/2. *)
Definition example_storage : @Process QcK :=
  @Build_Process QcK "anox_storage_PP" [("X_PP"%string, 1)] "X_PP" p12_rate
    ["Y_PHA"; "q_PP"; "k_O2"; "k_PS"; "k_ALK"; "k_PHA"; "n_NO3"; "k_IPP"; "k_NO3"]%string
    [] (map (@ID QcK) example_cmps).

Definition example_kinetics : @CompiledProcesses QcK :=
  @Build_CompiledProcesses QcK example_cmps [example_storage]
    [@dense QcK example_cmps (@stoichiometry QcK example_storage)]
    (map (fun n => (n, Some (Q2Qc (1 # 2)))) CANDO3_params).

(** Concentrations as [aerobic_concs], with [S_PO4] at 0, and with [X_PAO]
    at 0. *)
Definition phosphate_free_concs : list Qc := [1; 1; 1; 1; 0; 1; 1; Q2Qc (1 # 4); 1; 1].

Definition starved_concs : list Qc := [1; 1; 1; 1; 1; 1; 1; Q2Qc (1 # 4); 1; 0].

(** An inlet carrying 1 kg/hr of NH3 in 1000 kg/hr of water, and outlets
    that carry nothing yet. *)
Definition example_influent : WasteStream :=
  {| imass := fun c => if String.eqb c "NH3" then 1
                       else if String.eqb c "H2O" then num 1000 else 0;
     _COD := None; phase := "l" |}.

Definition example_ECC_outs : ECC_outs :=
  {| recovered := empty_stream; removed := empty_stream; left := empty_stream |}.

(** Stream properties to run the units with: 10 m3/hr, no nitrogen, a
    composite COD of 1000 g/m3, and a removal that is taken from the
    preferred pool first. *)
Definition example_props : StreamProps :=
  {| F_vol := fun _ => num 10;
     TN := fun _ => 0;
     COD := fun _ => num 1000;
     allocate_N_removal := fun tot preferred =>
       match preferred ?= 0 with
       | Gt => match preferred ?= tot with
               | Gt => (tot, 0)
               | _ => (preferred, tot - preferred)
               end
       | _ => (0, tot)
       end |}.

Definition example_ABR : AnaerobicBaffledReactor :=
  {| degraded_components := ["OtherSS"%string];
     if_capture_biogas := true;
     if_N2O_emission := false;
     COD_removal := Q2Qc (4 # 5);
     N_removal := Q2Qc (1 # 2);
     MCF_decay := Q2Qc (1 # 2);
     max_CH4_emission := Q2Qc (1 # 4);
     N_max_decay := Q2Qc (1 # 2);
     N2O_EF_decay := Q2Qc (1 # 100) |}.

(** 10 kg/hr of [OtherSS] in 1000 kg/hr of water, COD stored as 1000
    g/m3; and the same stream with no COD stored. *)
Definition example_waste : WasteStream :=
  {| imass := fun c => if String.eqb c "OtherSS" then num 10
                       else if String.eqb c "H2O" then num 1000 else 0;
     _COD := Some (num 1000); phase := "l" |}.

(** [example_ABR] removing half of the COD. *)
Definition example_ABR_half : AnaerobicBaffledReactor :=
  {| degraded_components := ["OtherSS"%string];
     if_capture_biogas := true;
     if_N2O_emission := false;
     COD_removal := Q2Qc (1 # 2);
     N_removal := Q2Qc (1 # 2);
     MCF_decay := Q2Qc (1 # 2);
     max_CH4_emission := Q2Qc (1 # 4);
     N_max_decay := Q2Qc (1 # 2);
     N2O_EF_decay := Q2Qc (1 # 100) |}.

Definition example_waste_unset : WasteStream :=
  {| imass := imass example_waste; _COD := None; phase := "l" |}.

Definition example_ABR_outs : ABR_outs :=
  {| treated := empty_stream; biogas := empty_stream;
     CH4 := empty_stream; N2O := empty_stream |}.

Definition example_chemicals : list string :=
  ["H2O"; "OtherSS"; "NH3"; "NonNH3"; "CH4"; "N2O"]%string.

(** Carbon per unit mass: 1/2 in [OtherSS], 3/4 in CH4. *)
Definition carbon_content : string -> Qc :=
  fun c => if String.eqb c "OtherSS" then Q2Qc (1 # 2)
           else if String.eqb c "CH4" then Q2Qc (3 # 4) else 0.

(** Nitrogen per unit mass: 14/17 in NH3, all of [NonNH3], 28/44 in N2O. *)
Definition nitrogen_content : string -> Qc :=
  fun c => if String.eqb c "NH3" then Q2Qc (14 # 17)
           else if String.eqb c "NonNH3" then 1
           else if String.eqb c "N2O" then Q2Qc (28 # 44) else 0.

(** Further values to run the units on.  Stream properties as
    [example_props], with 50 g/m3 of total nitrogen. *)
Definition example_props_N : StreamProps :=
  {| F_vol := fun _ => num 10;
     TN := fun _ => num 50;
     COD := fun _ => num 1000;
     allocate_N_removal := @allocate_N_removal example_props |}.

(** A stand-in for [Decay.first_order_decay]: [k * t * max_decay]. *)
Definition example_decay : Decay :=
  {| first_order_decay := fun k t max_decay => k * t * max_decay |}.

(** [example_ABR] removing all COD, and [example_ABR] with the biogas not
    captured. *)
Definition example_ABR_full : AnaerobicBaffledReactor :=
  {| degraded_components := ["OtherSS"%string];
     if_capture_biogas := true;
     if_N2O_emission := false;
     COD_removal := 1;
     N_removal := Q2Qc (1 # 2);
     MCF_decay := Q2Qc (1 # 2);
     max_CH4_emission := Q2Qc (1 # 4);
     N_max_decay := Q2Qc (1 # 2);
     N2O_EF_decay := Q2Qc (1 # 100) |}.

Definition example_ABR_fugitive : AnaerobicBaffledReactor :=
  {| degraded_components := ["OtherSS"%string];
     if_capture_biogas := false;
     if_N2O_emission := false;
     COD_removal := Q2Qc (4 # 5);
     N_removal := Q2Qc (1 # 2);
     MCF_decay := Q2Qc (1 # 2);
     max_CH4_emission := Q2Qc (1 # 4);
     N_max_decay := Q2Qc (1 # 2);
     N2O_EF_decay := Q2Qc (1 # 100) |}.

(** A digestion unit with the settings of [example_ABR], N2O considered,
    30 days of residence, three reactors and 10% of headspace. *)
Definition example_AD : AD.AnaerobicDigestion :=
  {| AD._flow_rate := None;
     AD.degraded_components := ["OtherSS"%string];
     AD.if_capture_biogas := true;
     AD.if_N2O_emission := true;
     AD.COD_removal := Q2Qc (4 # 5);
     AD.MCF_decay := Q2Qc (1 # 2);
     AD.max_CH4_emission := Q2Qc (1 # 4);
     AD.decay_k_N := num 2;
     AD.N_max_decay := Q2Qc (1 # 2);
     AD.N2O_EF_decay := Q2Qc (1 # 100);
     AD.tau := num 30;
     AD._N_reactor := 3;
     AD.headspace_frac := Q2Qc (1 # 10) |}.

(** The earlier reactor with the settings of [example_ABR]. *)
Definition example_legacy : Legacy.AnaerobicBaffledReactor :=
  {| Legacy.if_N2O_emission := false;
     Legacy.COD_removal := Q2Qc (4 # 5);
     Legacy.N_removal := Q2Qc (1 # 2);
     Legacy.MCF_decay := Q2Qc (1 # 2);
     Legacy.max_CH4_emission := Q2Qc (1 # 4);
     Legacy.decay_k_N := num 2;
     Legacy.N_max_decay := Q2Qc (1 # 2);
     Legacy.N2O_EF_decay := Q2Qc (1 # 100);
     Legacy.tau := num 30 |}.

Definition example_legacy_outs : Legacy.outs :=
  {| Legacy.treated := empty_stream; Legacy.CH4 := empty_stream;
     Legacy.N2O := empty_stream |}.

(** A sludge digester with the default arguments of
    [SludgeDigester.__init__] and the class's wall and slab thickness. *)
Definition example_SD : SD.SludgeDigester :=
  {| SD.SRT := num 20;
     SD.Y := Q2Qc (8 # 100);
     SD.b := Q2Qc (3 # 100);
     SD.organics_conversion := Q2Qc (7 # 10);
     SD.COD_factor := Q2Qc (142 # 100);
     SD.methane_yield := Q2Qc (4 # 10);
     SD._t_wall := Q2Qc (6 # 12);
     SD._t_slab := Q2Qc (8 # 12) |}.

(** Outlets of an [ElectroChemCell] that still hold 2 kg/hr of NH3 in
    [recovered] from an earlier run. *)
Definition example_ECC_stale : ECC_outs :=
  {| recovered := set_imass empty_stream "NH3" (num 2);
     removed := empty_stream; left := empty_stream |}.

(** Every concentration 1, but [X_PP] 1/4. *)
Definition aerobic_cv : string -> result Qc :=
  fun s => if String.eqb s "X_PP" then Ok (Q2Qc (1 # 4)) else Ok 1.

(** Two reactors of 3 m x 2 m x 2 m with four baffles. *)
Definition example_dimensions : ABR.dimensions :=
  {| ABR._N_reactor := 2;
     ABR._N_baffle := 4;
     ABR.reactor_L := num 3;
     ABR.reactor_W := num 2;
     ABR.reactor_H := num 2;
     ABR.add_concrete := Q2Qc (1 # 10);
     ABR.concrete_thickness := Q2Qc (1 # 4) |}.

(** * Properties *)

Unset Implicit Arguments.

(** ** The linear solver *)

Section LinearFacts.
Context {C : Coeff} {L : CoeffLaws C}.
Add Field kfield : k_field.
Open Scope K_scope.

Lemma keqb_false (x y : K) : keqb x y = false <-> x <> y.
Proof.
  split.
  - intros Hb Heq. apply keqb_eq in Heq. congruence.
  - intros Hne. destruct (keqb x y) eqn:E; [|reflexivity].
    apply keqb_eq in E. contradiction.
Qed.

Lemma k_one_neq_zero : (1 : K) <> 0.
Proof. exact (F_1_neq_0 k_field). Qed.

Lemma dot_zeros (r : list K) (n : nat) : dot r (zeros n) = 0.
Proof.
  revert r. induction n as [|n IH]; intros r; simpl.
  - reflexivity.
  - rewrite IH. ring.
Qed.

Lemma axpy_dot (n : nat) : forall (f : K) (s r u : list K),
  length u = n -> dot (axpy n f s r) u = dot s u - f * dot r u.
Proof.
  induction n as [|n IH]; intros f s r u Hlen.
  - destruct u; [simpl; ring | discriminate].
  - destruct u as [|u0 us]; [discriminate|].
    simpl in *. rewrite IH by lia. ring.
Qed.

(** Eliminating the first unknown: on [u0 :: us], the reduced row is the
    row of [e] minus the multiple of the pivot row that cancels [u0]. *)
Lemma reduce_dot (n : nat) (p e : equation) (u0 : K) (us : list K) :
  length us = n -> hd0 (lhs p) <> 0 ->
  dot (lhs (reduce n p e)) us =
  dot (lhs e) (u0 :: us) - (hd0 (lhs e) / hd0 (lhs p)) * dot (lhs p) (u0 :: us).
Proof.
  intros Hlen Ha. unfold reduce. simpl. rewrite axpy_dot by assumption.
  field. assumption.
Qed.

Lemma pick_pivot_none (eqs : list equation) :
  pick_pivot eqs = None -> Forall (fun e => hd0 (lhs e) = 0) eqs.
Proof.
  induction eqs as [|e rest IH]; simpl; intros H.
  - constructor.
  - destruct (keqb (hd0 (lhs e)) 0) eqn:E; [|discriminate].
    destruct (pick_pivot rest) as [[p others]|]; [discriminate|].
    constructor; [apply keqb_eq; exact E | apply IH; reflexivity].
Qed.

Lemma pick_pivot_some (eqs : list equation) (p : equation) (others : list equation) :
  pick_pivot eqs = Some (p, others) ->
  hd0 (lhs p) <> 0 /\
  forall P : equation -> Prop, Forall P eqs <-> P p /\ Forall P others.
Proof.
  revert p others. induction eqs as [|e rest IH]; simpl; intros p others H.
  - discriminate.
  - destruct (keqb (hd0 (lhs e)) 0) eqn:E.
    + destruct (pick_pivot rest) as [[p' others']|] eqn:Ep; [|discriminate].
      inversion H; subst. destruct (IH _ _ eq_refl) as [Hp Hall].
      split; [exact Hp|]. intros P. split.
      * intros HF. inversion HF; subst. apply Hall in H3. destruct H3.
        split; [assumption|]. constructor; assumption.
      * intros [Hpp HF]. inversion HF; subst. constructor; [assumption|].
        apply Hall. split; assumption.
    + inversion H; subst. split; [apply keqb_false; exact E|].
      intros P. split.
      * intros HF. inversion HF; subst. split; assumption.
      * intros [Hpp HF]. constructor; assumption.
Qed.

Lemma reduce_holds (n : nat) (p e : equation) (u0 : K) (us : list K) :
  length us = n -> hd0 (lhs p) <> 0 -> holds (u0 :: us) p ->
  (holds (u0 :: us) e <-> holds us (reduce n p e)).
Proof.
  intros Hlen Ha Hp. unfold holds in *.
  rewrite (@reduce_dot n p e u0 us Hlen Ha). rewrite Hp.
  unfold reduce; simpl rhs. split; intros H.
  - rewrite H. reflexivity.
  - assert (E : dot (lhs e) (u0 :: us) =
                (dot (lhs e) (u0 :: us) - hd0 (lhs e) / hd0 (lhs p) * rhs p)
                + hd0 (lhs e) / hd0 (lhs p) * rhs p) by (field; assumption).
    rewrite E, H. field. assumption.
Qed.

Lemma reduce_holds0 (n : nat) (p e : equation) (u0 : K) (us : list K) :
  length us = n -> hd0 (lhs p) <> 0 -> holds0 (u0 :: us) p ->
  (holds0 (u0 :: us) e <-> holds0 us (reduce n p e)).
Proof.
  intros Hlen Ha Hp. unfold holds0 in *.
  rewrite (@reduce_dot n p e u0 us Hlen Ha). rewrite Hp. split; intros H.
  - rewrite H. field. assumption.
  - assert (E : dot (lhs e) (u0 :: us) =
                (dot (lhs e) (u0 :: us) - hd0 (lhs e) / hd0 (lhs p) * 0)) by (field; assumption).
    rewrite E, H. reflexivity.
Qed.

Lemma Forall_reduce (P Q : equation -> Prop) (f : equation -> equation) (l : list equation) :
  (forall e, P e <-> Q (f e)) -> (Forall P l <-> Forall Q (map f l)).
Proof.
  intros H. rewrite Forall_map. split; apply Forall_impl; intros e; apply H.
Qed.

Lemma pivot_value (p : equation) (u0 : K) (us : list K) :
  hd0 (lhs p) <> 0 ->
  (holds (u0 :: us) p <-> u0 = (rhs p - dot (tl (lhs p)) us) / hd0 (lhs p)).
Proof.
  intros Ha. unfold holds. simpl. split; intros H.
  - rewrite <- H. field. assumption.
  - rewrite H. field. assumption.
Qed.

Lemma solve_spec (n : nat) : forall eqs, solve_outcome n eqs (solve n eqs).
Proof.
  induction n as [|k IH]; intros eqs.
  - simpl. destruct (forallb _ eqs) eqn:E.
    + simpl. split; [reflexivity|]. split.
      * rewrite forallb_forall in E. apply Forall_forall. intros e He.
        unfold holds. simpl. symmetry. apply keqb_eq. apply E. exact He.
      * intros y Hy _. destruct y; [reflexivity|discriminate].
    + simpl. split.
      * intros y Hy HF. destruct y; [|discriminate].
        assert (forallb (fun e => keqb (rhs e) 0) eqs = true); [|congruence].
        apply forallb_forall. intros e He. rewrite Forall_forall in HF.
        apply keqb_eq. symmetry. apply (HF e He).
      * intros z Hz _. destruct z; [reflexivity|discriminate].
  - simpl. destruct (pick_pivot eqs) as [[p others]|] eqn:Ep.
    + destruct (@pick_pivot_some _ _ _ Ep) as [Ha Hall].
      specialize (IH (map (reduce k p) others)).
      destruct (solve k (map (reduce k p) others)) as [xs|[]]; simpl in *; try contradiction.
      * destruct IH as [Hlen [Hsat Huniq]].
        set (x0 := (rhs p - dot (tl (lhs p)) xs) / hd0 (lhs p)).
        assert (Hp : holds (x0 :: xs) p) by (apply pivot_value; [assumption|reflexivity]).
        split; [simpl; lia|]. split.
        -- apply Hall. split; [exact Hp|].
           apply (@Forall_reduce (holds (x0 :: xs)) (holds xs) (reduce k p)); [|exact Hsat].
           intros e. apply reduce_holds; assumption.
        -- intros y Hy HF. destruct y as [|y0 ys]; [discriminate|].
           apply Hall in HF. destruct HF as [Hyp Hyo].
           assert (Hys : ys = xs).
           { apply Huniq; [simpl in Hy; lia|].
             apply (@Forall_reduce (holds (y0 :: ys)) (holds ys) (reduce k p)); [|exact Hyo].
             intros e. apply reduce_holds; [simpl in Hy; lia|assumption|assumption]. }
           subst ys. apply pivot_value in Hyp; [|assumption]. subst y0. reflexivity.
      * destruct IH as [z [Hlen [Hnz Hker]]].
        set (z0 := (0 - dot (tl (lhs p)) z) / hd0 (lhs p)).
        assert (Hp : holds0 (z0 :: z) p).
        { unfold holds0. simpl. unfold z0. field. assumption. }
        exists (z0 :: z). split; [simpl; lia|]. split.
        -- intros Heq. apply Hnz. unfold zeros in *. simpl in Heq.
           injection Heq as _ Hz. exact Hz.
        -- apply Hall. split; [exact Hp|].
           apply (@Forall_reduce (holds0 (z0 :: z)) (holds0 z) (reduce k p)); [|exact Hker].
           intros e. apply reduce_holds0; assumption.
      * destruct IH as [Hno Hker]. split.
        -- intros y Hy HF. destruct y as [|y0 ys]; [discriminate|].
           apply Hall in HF. destruct HF as [Hyp Hyo].
           apply (Hno ys); [simpl in Hy; lia|].
           apply (@Forall_reduce (holds (y0 :: ys)) (holds ys) (reduce k p)); [|exact Hyo].
           intros e. apply reduce_holds; [simpl in Hy; lia|assumption|assumption].
        -- intros z Hz HF. destruct z as [|z0 zs]; [discriminate|].
           apply Hall in HF. destruct HF as [Hzp Hzo].
           assert (Hzs : zs = zeros k).
           { apply Hker; [simpl in Hz; lia|].
             apply (@Forall_reduce (holds0 (z0 :: zs)) (holds0 zs) (reduce k p)); [|exact Hzo].
             intros e. apply reduce_holds0; [simpl in Hz; lia|assumption|assumption]. }
           subst zs. unfold holds0 in Hzp. simpl in Hzp. rewrite dot_zeros in Hzp.
           assert (Hz0 : z0 = 0).
           { assert (E : z0 = (hd0 (lhs p) * z0 + 0) / hd0 (lhs p)) by (field; assumption).
             rewrite E, Hzp. field. assumption. }
           subst z0. reflexivity.
    + simpl. exists (1 :: zeros k). split; [simpl; unfold zeros; rewrite repeat_length; reflexivity|].
      split.
      * intros Heq. unfold zeros in Heq. simpl in Heq.
        injection Heq as H1. exact (k_one_neq_zero H1).
      * apply pick_pivot_none in Ep. revert Ep. apply Forall_impl.
        intros e He. unfold holds0. simpl. rewrite He, dot_zeros. ring.
Qed.
End LinearFacts.

(** ** Conservation of built processes *)

Section ProcessFacts.
Context {C : Coeff} {L : CoeffLaws C}.
Add Field kfield2 : k_field.
Open Scope K_scope.

Lemma fill_total (reg : list Component) (q : string) (terms : list (K * coefficient * string)) :
  forall sol, length sol = count_unknown terms ->
  sparse_total reg q (fill terms sol) = dot (unknown_row reg q terms) sol + known_sum reg q terms.
Proof.
  induction terms as [|[[s c] id] r IH]; intros sol Hlen; simpl in *.
  - destruct sol; [simpl; ring | discriminate].
  - destruct c as [k|]; simpl.
    + rewrite IH by assumption. ring.
    + destruct sol as [|u sol']; [discriminate|]. simpl in *.
      rewrite IH by lia. ring.
Qed.

Lemma quantity_total_map (g : Component -> K) (reg : list Component) (q : string) :
  quantity_total reg q (map g reg) = wsum g reg q.
Proof.
  unfold quantity_total. induction reg as [|c reg IH]; simpl.
  - reflexivity.
  - rewrite IH. reflexivity.
Qed.

Lemma wsum_ext (g h : Component -> K) (reg : list Component) (q : string) :
  (forall c, g c = h c) -> wsum g reg q = wsum h reg q.
Proof.
  intros E. induction reg as [|c reg IH]; simpl; [reflexivity|].
  rewrite E, IH. reflexivity.
Qed.

Lemma wsum_add (g h : Component -> K) (reg : list Component) (q : string) :
  wsum (fun c => g c + h c) reg q = wsum g reg q + wsum h reg q.
Proof.
  induction reg as [|c reg IH]; simpl; [ring|]. rewrite IH. ring.
Qed.

Lemma wsum_zero (reg : list Component) (q : string) : wsum (fun _ => 0) reg q = 0.
Proof. induction reg as [|c reg IH]; simpl; [reflexivity|]. rewrite IH. ring. Qed.

Lemma wsum_absent (id : string) (k : K) (reg : list Component) (q : string) :
  ~ In id (map ID reg) ->
  wsum (fun c => if String.eqb id (ID c) then k else 0) reg q = 0.
Proof.
  induction reg as [|c reg IH]; simpl; intros Hn; [reflexivity|].
  destruct (String.eqb_spec id (ID c)) as [E|E].
  - exfalso. apply Hn. left. symmetry. exact E.
  - rewrite IH by (intros H; apply Hn; right; exact H). ring.
Qed.

Lemma wsum_indicator (id : string) (k : K) (reg : list Component) (q : string) :
  unique_ids reg ->
  wsum (fun c => if String.eqb id (ID c) then k else 0) reg q = k * factor reg q id.
Proof.
  unfold unique_ids, factor, find_component.
  induction reg as [|c reg IH]; simpl; intros Hnd.
  - ring.
  - inversion Hnd as [|x l Hnotin Hnd']; subst.
    rewrite (String.eqb_sym (ID c) id).
    destruct (String.eqb_spec id (ID c)) as [E|E].
    + subst id. rewrite wsum_absent by assumption. ring.
    + rewrite IH by assumption. ring.
Qed.

Lemma coeff_of_cons (id' : string) (k : K) (r : list (string * K)) (id : string) :
  coeff_of id ((id', k) :: r) = (if String.eqb id' id then k else 0) + coeff_of id r.
Proof. simpl. destruct (String.eqb id' id); ring. Qed.

(** With unique IDs, a dense row carries the same total of each conserved
    quantity as the reaction it was built from. *)
Lemma dense_total (reg : list Component) (q : string) (st : list (string * K)) :
  unique_ids reg -> quantity_total reg q (dense reg st) = sparse_total reg q st.
Proof.
  intros Hnd. unfold dense. rewrite quantity_total_map.
  induction st as [|[id k] r IH].
  - simpl. apply wsum_zero.
  - rewrite (wsum_ext _ (fun c => (if String.eqb id (ID c) then k else 0) + coeff_of (ID c) r))
      by (intros c; apply coeff_of_cons).
    rewrite wsum_add, wsum_indicator by assumption. simpl. rewrite IH. reflexivity.
Qed.

Lemma Process_new_inv (reg : list Component) (dc : list string) (t : ReactionTemplate) (p : Process) :
  Process_new reg dc t = Ok p ->
  forallb (fun tm => known_component reg (snd tm)) (signed_terms t) = true /\
  exists sol, solve (count_unknown (signed_terms t))
                (map (balance_equation reg (signed_terms t)) (conserved_of dc t)) = Ok sol /\
              stoichiometry p = fill (signed_terms t) sol /\ p_conserved p = conserved_of dc t /\
              p_components p = map ID reg /\ p_name p = t_name t /\
              p_parameters p = parameters t /\ p_rate p = rate_equation t.
Proof.
  unfold Process_new. intros H.
  destruct (forallb _ (signed_terms t)); [|discriminate]. split; [reflexivity|].
  destruct (solve _ _) as [sol|e]; simpl in H; [|discriminate].
  exists sol. inversion H; subst; simpl. repeat split; reflexivity.
Qed.

Lemma holds_balance (reg : list Component) (terms : list (K * coefficient * string))
  (q : string) (sol : list K) :
  length sol = count_unknown terms ->
  (holds sol (balance_equation reg terms q) <-> sparse_total reg q (fill terms sol) = 0).
Proof.
  intros Hlen. unfold holds. simpl. rewrite (fill_total reg q terms sol Hlen).
  split; intros H.
  - rewrite H. ring.
  - assert (E : dot (unknown_row reg q terms) sol =
                (dot (unknown_row reg q terms) sol + known_sum reg q terms)
                - known_sum reg q terms) by ring.
    rewrite E, H. ring.
Qed.

Lemma Forall_balance (reg : list Component) (terms : list (K * coefficient * string))
  (cons : list string) (sol : list K) :
  length sol = count_unknown terms ->
  (Forall (holds sol) (map (balance_equation reg terms) cons) <->
   forall q, In q cons -> sparse_total reg q (fill terms sol) = 0).
Proof.
  intros Hlen. rewrite Forall_map, Forall_forall. split; intros H q Hq.
  - apply holds_balance; [assumption|]. apply H. exact Hq.
  - apply holds_balance; [assumption|]. apply H. exact Hq.
Qed.

(** A built process balances every quantity it was declared conserved for. *)
Lemma built_conserved (reg : list Component) (p : Process) (q : string) :
  unique_ids reg -> built reg p -> In q (p_conserved p) ->
  quantity_total reg q (dense reg (stoichiometry p)) = 0.
Proof.
  intros Hnd [dc [t Hb]] Hq. rewrite dense_total by assumption.
  destruct (Process_new_inv _ _ _ _ Hb) as [_ [sol [Hs [Hst [Hc _]]]]].
  pose proof (solve_spec (count_unknown (signed_terms t))
                (map (balance_equation reg (signed_terms t)) (conserved_of dc t))) as Hspec.
  rewrite Hs in Hspec. simpl in Hspec. destruct Hspec as [Hlen [Hsat _]].
  rewrite Hst. rewrite Hc in Hq.
  apply (proj1 (Forall_balance reg (signed_terms t) (conserved_of dc t) sol Hlen)); assumption.
Qed.
End ProcessFacts.

(** ** Compiled collections *)

Section CollectionFacts.
Context {C : Coeff} {L : CoeffLaws C} {F : DataFiles}.
Open Scope K_scope.

Lemma mapM_Forall2 {A B : Type} (f : A -> result B) (l : list A) :
  forall bs, mapM f l = Ok bs -> Forall2 (fun a b => f a = Ok b) l bs.
Proof.
  induction l as [|a l IH]; simpl; intros bs H.
  - inversion H. constructor.
  - destruct (f a) as [b|e] eqn:Ea; simpl in H; [|discriminate].
    destruct (mapM f l) as [bs'|e]; simpl in H; [|discriminate].
    inversion H; subst. constructor; [exact Ea | apply IH; reflexivity].
Qed.

Lemma Process_new_components (reg : list Component) (dc : list string)
  (t : ReactionTemplate) (p : Process) :
  Process_new reg dc t = Ok p -> same_components reg p = true.
Proof.
  intros H. destruct (Process_new_inv _ _ _ _ H) as [_ [sol [_ [_ [_ [Hc _]]]]]].
  unfold same_components. rewrite Hc.
  destruct (list_eq_dec string_dec (map ID reg) (map ID reg)); [reflexivity|contradiction].
Qed.

Lemma built_same_components (reg : list Component) (p : Process) :
  built reg p -> same_components reg p = true.
Proof. intros [dc [t H]]. exact (Process_new_components _ _ _ _ H). Qed.

(** What [load_from_file] returns: one built process per row of the file. *)
Lemma load_from_file_inv (path : string) (cons params : list string)
  (cmps : list Component) (pc : Processes) :
  load_from_file path cons params cmps = Ok pc ->
  exists rows, read_tsv path = Some rows /\
    components pc = cmps /\ global_parameters pc = params /\
    Forall2 (fun t p => Process_new cmps cons t = Ok p) rows (processes pc).
Proof.
  unfold load_from_file. destruct (read_tsv path) as [rows|]; [|discriminate].
  destruct (mapM (Process_new cmps cons) rows) as [ps|e] eqn:E; simpl; [|discriminate].
  intros H. inversion H; subst; simpl. exists rows.
  repeat split. apply mapM_Forall2. exact E.
Qed.

Lemma Forall2_built (cmps : list Component) (cons : list string)
  (rows : list ReactionTemplate) (ps : list Process) :
  Forall2 (fun t p => Process_new cmps cons t = Ok p) rows ps -> Forall (built cmps) ps.
Proof.
  induction 1 as [|t p rows ps H _ IH]; constructor; [|exact IH].
  exists cons, t. exact H.
Qed.

Lemma compile_inv (pc : Processes) (cp : CompiledProcesses) :
  compile pc = Ok cp ->
  forallb (same_components (components pc)) (processes pc) = true /\
  c_components cp = components pc /\ c_processes cp = processes pc /\
  stoichio cp = map (fun p => dense (components pc) (stoichiometry p)) (processes pc) /\
  parameter_table cp = map (fun n => (n, None)) (merged_parameters pc).
Proof.
  unfold compile. destruct (forallb _ _); [|discriminate].
  intros H. inversion H; subst; simpl. repeat split.
Qed.

Lemma compile_ok (pc : Processes) :
  forallb (same_components (components pc)) (processes pc) = true ->
  exists cp, compile pc = Ok cp.
Proof. intros H. unfold compile. rewrite H. eexists. reflexivity. Qed.

Lemma compile_conserved (pc : Processes) (cp : CompiledProcesses) :
  unique_ids (components pc) ->
  Forall (built (components pc)) (processes pc) ->
  compile pc = Ok cp -> conserved cp.
Proof.
  intros Hnd Hb Hc. destruct (compile_inv _ _ Hc) as [_ [Hcc [Hcp [Hst _]]]].
  intros i p row q Hp Hrow Hq. rewrite Hcc.
  rewrite Hst, nth_error_map in Hrow. rewrite Hcp in Hp. rewrite Hp in Hrow.
  simpl in Hrow. inversion Hrow; subst row.
  apply built_conserved; [assumption| |assumption].
  rewrite Forall_forall in Hb. apply Hb. eapply nth_error_In. exact Hp.
Qed.

Lemma set_parameters_frame (kwargs : list (string * Qc)) (cp : CompiledProcesses) :
  c_components (snd (set_parameters kwargs cp)) = c_components cp /\
  c_processes (snd (set_parameters kwargs cp)) = c_processes cp /\
  stoichio (snd (set_parameters kwargs cp)) = stoichio cp.
Proof.
  unfold set_parameters. destruct (forallb _ kwargs); simpl; repeat split.
Qed.

Lemma after_set_parameters_conserved (kwargs : list (string * Qc))
  (cp cp' : CompiledProcesses) :
  conserved cp -> after_set_parameters (set_parameters kwargs cp) = Ok cp' -> conserved cp'.
Proof.
  intros Hc H. unfold after_set_parameters in H.
  destruct (fst (set_parameters kwargs cp)); [|discriminate].
  inversion H; subst cp'.
  destruct (set_parameters_frame kwargs cp) as [H1 [H2 H3]].
  unfold conserved. rewrite H1, H2, H3. exact Hc.
Qed.

Lemma set_i_mass_ids (cmps cmps' : list Component) (id : string) (v : K) :
  set_i_mass cmps id v = Ok cmps' -> map ID cmps' = map ID cmps.
Proof.
  unfold set_i_mass. destruct (known_component cmps id); [|discriminate].
  intros H. inversion H; subst. rewrite map_map. apply map_ext.
  intros c. destruct (String.eqb (ID c) id); reflexivity.
Qed.

Lemma load_and_compile_conserved (path : string) (cons params : list string)
  (cmps : list Component) (cp : CompiledProcesses) :
  unique_ids cmps -> load_and_compile path cons params cmps = Ok cp -> conserved cp.
Proof.
  intros Hnd H. unfold load_and_compile in H.
  destruct (load_from_file path cons params cmps) as [pc|e] eqn:El; simpl in H; [|discriminate].
  destruct (load_from_file_inv _ _ _ _ _ El) as [rows [_ [Hc [_ HF]]]].
  apply (compile_conserved pc); [rewrite Hc; exact Hnd | | exact H].
  rewrite Hc. exact (Forall2_built _ _ _ _ HF).
Qed.

Lemma CANDO3_collection_built (cmps : list Component) (path : string) (pc : Processes) :
  CANDO3_collection cmps path = Ok pc ->
  components pc = cmps /\ Forall (built cmps) (processes pc).
Proof.
  unfold CANDO3_collection.
  destruct (load_from_file path _ CANDO3_params cmps) as [self|e] eqn:El; simpl; [|discriminate].
  destruct (load_from_file_inv _ _ _ _ _ El) as [rows [_ [Hc [_ HF]]]].
  apply Forall2_built in HF.
  destruct (String.eqb path _path_CANDO3).
  - destruct (Process_new cmps [] p12_template) as [p12|e] eqn:E12; simpl; [|discriminate].
    destruct (Process_new cmps [] p14_template) as [p14|e] eqn:E14; simpl; [|discriminate].
    intros H. inversion H; subst pc. simpl. split; [exact Hc|].
    apply Forall_app. split; [exact HF|].
    constructor; [exists [], p12_template; exact E12|].
    constructor; [exists [], p14_template; exact E14|constructor].
  - intros H. inversion H; subst pc. split; assumption.
Qed.

(** C1.  Conservation holds post-compile: in a collection compiled from
    processes built against a registry with unique IDs, every row of the
    stoichiometry matrix gives total zero for every conserved quantity of
    its process, the component conversion factors as weights; and so do the
    collections [CANDO.__new__], [CANDO3.__new__] and [Sharon.__new__]
    return. *)
Theorem conservation_post_compile :
  (forall (pc : Processes) (cp : CompiledProcesses),
      unique_ids (components pc) ->
      Forall (built (components pc)) (processes pc) ->
      compile pc = Ok cp -> conserved cp) /\
  (forall cmps kw fr_SS_COD path kwargs cmps' cp,
      unique_ids cmps ->
      CANDO_new cmps kw fr_SS_COD path kwargs = (cmps', Ok cp) -> conserved cp) /\
  (forall cmps kw fr_SS_COD path kwargs cmps' cp,
      unique_ids cmps ->
      CANDO3_new cmps kw fr_SS_COD path kwargs = (cmps', Ok cp) -> conserved cp) /\
  (forall cmps kw path kwargs cmps' cp,
      unique_ids cmps ->
      Sharon_new cmps kw path kwargs = (cmps', Ok cp) -> conserved cp).
Proof.
  split; [exact compile_conserved|]. split; [|split].
  - intros cmps kw fr path kwargs cmps' cp Hnd H. unfold CANDO_new in H.
    destruct (set_i_mass cmps "X_I" fr) as [c1|e] eqn:Es; [|inversion H].
    apply set_i_mass_ids in Es. unfold refresh_constants in H.
    injection H as _ H.
    destruct (load_and_compile _ _ CANDO_params c1) as [self|e] eqn:El; simpl in H; [|discriminate].
    eapply after_set_parameters_conserved; [|exact H].
    eapply load_and_compile_conserved; [|exact El].
    unfold unique_ids. rewrite Es. exact Hnd.
  - intros cmps kw fr path kwargs cmps' cp Hnd H. unfold CANDO3_new in H.
    destruct (set_i_mass cmps "X_I" fr) as [c1|e] eqn:Es; [|inversion H].
    apply set_i_mass_ids in Es. unfold refresh_constants in H.
    injection H as _ H.
    destruct (CANDO3_collection c1 _) as [pc|e] eqn:Ec; simpl in H; [|discriminate].
    destruct (compile pc) as [self|e] eqn:Ecp; simpl in H; [|discriminate].
    eapply after_set_parameters_conserved; [|exact H].
    destruct (CANDO3_collection_built _ _ _ Ec) as [Hc Hb].
    apply (compile_conserved pc); [| |exact Ecp].
    + rewrite Hc. unfold unique_ids. rewrite Es. exact Hnd.
    + rewrite Hc. exact Hb.
  - intros cmps kw path kwargs cmps' cp Hnd H. unfold Sharon_new in H.
    unfold refresh_constants in H. injection H as _ H.
    destruct (load_and_compile _ _ Sharon_params cmps) as [self|e] eqn:El; simpl in H; [|discriminate].
    eapply after_set_parameters_conserved; [|exact H].
    eapply load_and_compile_conserved; [exact Hnd|exact El].
Qed.

End CollectionFacts.

(** ** The example installation *)

Lemma Qc_laws (val : string -> Qc) : CoeffLaws (Qc_coeff val).
Proof.
  split.
  - exact Qcft.
  - intros x y. simpl. split.
    + apply Qc_eq_bool_correct.
    + intros ->. unfold Qc_eq_bool. destruct (Qc_eq_dec y y); congruence.
Qed.

Lemma example_cmps_unique : unique_ids example_cmps.
Proof.
  unfold unique_ids. simpl.
  repeat (constructor; [simpl; intuition discriminate|]). constructor.
Qed.

Lemma conservation_post_compile_witness :
  unique_ids example_cmps /\
  exists cp, snd (@CANDO3_new QcK example_files example_cmps example_kw 1 None []) = Ok cp /\
             conserved cp.
Proof.
  split; [exact example_cmps_unique|].
  destruct (@CANDO3_new QcK example_files example_cmps example_kw 1 None []) as [cmps' r] eqn:E.
  assert (Hok : is_ok (snd (@CANDO3_new QcK example_files example_cmps example_kw 1 None [])) = true)
    by (vm_compute; reflexivity).
  rewrite E in Hok. simpl in Hok. destruct r as [cp|e]; [|discriminate].
  exists cp. split; [reflexivity|].
  exact (proj1 (proj2 (proj2 (@conservation_post_compile QcK (Qc_laws _) example_files)))
           example_cmps example_kw 1 None [] cmps' cp example_cmps_unique E).
Defined.

(** ** The conservation resolver *)

Section ResolverFacts.
Context {C : Coeff} {L : CoeffLaws C}.
Add Field kfield3 : k_field.
Open Scope K_scope.











End ResolverFacts.



(** ** Extending, compiling and setting parameters *)

Section ExtendFacts.
Context {C : Coeff} {L : CoeffLaws C} {F : DataFiles}.
Local Open Scope nat_scope.

Lemma Forall2_same_components (cmps : list Component) (cons : list string)
  (rows : list ReactionTemplate) (ps : list Process) :
  Forall2 (fun t p => Process_new cmps cons t = Ok p) rows ps ->
  forallb (same_components cmps) ps = true.
Proof.
  induction 1 as [|t p rows ps H _ IH]; simpl; [reflexivity|].
  rewrite (Process_new_components _ _ _ _ H), IH. reflexivity.
Qed.

Add Field kfield4 : k_field.

(** A built row stores one coefficient per component ID (a dict in the
    source); the dense row reads it back, and reads zero for a component
    the row does not mention. *)
Lemma coeff_of_absent (id : string) (st : list (string * K)) :
  ~ In id (map fst st) -> coeff_of id st = 0%K.
Proof.
  induction st as [|[id' k'] r IH]; simpl; intros Hn; [reflexivity|].
  destruct (String.eqb_spec id' id) as [E|E].
  - exfalso. apply Hn. left. exact E.
  - apply IH. intros H. apply Hn. right. exact H.
Qed.

Lemma coeff_of_In (id : string) (k : K) (st : list (string * K)) :
  NoDup (map fst st) -> In (id, k) st -> coeff_of id st = k.
Proof.
  induction st as [|[id' k'] r IH]; simpl; intros Hnd Hin; [contradiction|].
  inversion Hnd as [|x l Hx Hnd' Heq]; subst x l.
  destruct Hin as [Hin|Hin].
  - injection Hin as -> ->. rewrite String.eqb_refl.
    rewrite (coeff_of_absent id r Hx). ring.
  - destruct (String.eqb_spec id' id) as [E|E].
    + exfalso. apply Hx. subst id'. change id with (fst (id, k)). apply in_map. exact Hin.
    + apply IH; assumption.
Qed.

(** C6.  A collection loaded from a file of [n] rows, extended by two
    built processes of the same registry, compiles; the matrix is the one
    the loaded collection compiles to, of [n] rows, followed by two rows.
    In each of the two, the entry of a component is the coefficient the
    appended process stores for that component, and zero for a component
    the process does not mention. *)
Theorem extend_then_compile (path : string) (cons params : list string)
  (cmps : list Component) (rows : list ReactionTemplate) (pc : Processes)
  (p1 p2 : Process) :
  read_tsv path = Some rows ->
  load_from_file path cons params cmps = Ok pc ->
  same_components cmps p1 = true ->
  same_components cmps p2 = true ->
  NoDup (map fst (stoichiometry p1)) ->
  NoDup (map fst (stoichiometry p2)) ->
  exists cp0 cp r1 r2,
    compile pc = Ok cp0 /\
    compile (extend pc [p1; p2]) = Ok cp /\
    length (stoichio cp0) = length rows /\
    length (stoichio cp) = length rows + 2 /\
    stoichio cp = stoichio cp0 ++ [r1; r2] /\
    c_processes cp = c_processes cp0 ++ [p1; p2] /\
    length r1 = length cmps /\ length r2 = length cmps /\
    forall j c, nth_error cmps j = Some c ->
      (forall k, In (ID c, k) (stoichiometry p1) -> nth_error r1 j = Some k) /\
      (~ In (ID c) (map fst (stoichiometry p1)) -> nth_error r1 j = Some 0%K) /\
      (forall k, In (ID c, k) (stoichiometry p2) -> nth_error r2 j = Some k) /\
      (~ In (ID c) (map fst (stoichiometry p2)) -> nth_error r2 j = Some 0%K).
Proof.
  intros Hr Hl H1 H2 Hd1 Hd2.
  destruct (load_from_file_inv _ _ _ _ _ Hl) as [rows' [Hr' [Hc [_ HF]]]].
  rewrite Hr in Hr'. injection Hr' as <-.
  pose proof (Forall2_length HF) as Hlen.
  pose proof (Forall2_same_components _ _ _ _ HF) as Hsame.
  unfold compile, extend. cbn [components processes global_parameters].
  rewrite Hc, forallb_app, Hsame. cbn [forallb andb].
  rewrite H1, H2. cbn [andb].
  eexists. eexists. exists (dense cmps (stoichiometry p1)), (dense cmps (stoichiometry p2)).
  split; [reflexivity|]. split; [reflexivity|].
  cbn [c_processes stoichio]. rewrite map_app. cbn [map].
  split; [rewrite length_map; symmetry; exact Hlen|].
  split; [rewrite length_app, length_map, Hlen; simpl; reflexivity|].
  split; [reflexivity|]. split; [reflexivity|].
  split; [apply length_map|]. split; [apply length_map|].
  intros j c Hj. unfold dense.
  assert (Hnth : forall st, nth_error (map (fun c0 => coeff_of (ID c0) st) cmps) j
                            = Some (coeff_of (ID c) st)).
  { intros st. rewrite nth_error_map, Hj. reflexivity. }
  rewrite !Hnth. repeat split.
  - intros k Hin. f_equal. apply coeff_of_In; assumption.
  - intros Hn. f_equal. apply coeff_of_absent. exact Hn.
  - intros k Hin. f_equal. apply coeff_of_In; assumption.
  - intros Hn. f_equal. apply coeff_of_absent. exact Hn.
Qed.

(** C10.  [CANDO3.__new__] appends [_p12] and [_p14] exactly when the
    path the caller gives is the default one, or none ([None] and the empty
    string stand for the default): the compiled rows are then those of the
    default file followed by the two PAO processes.  For every other path
    the caller gives, the rows are loaded from that very file and the
    compiled rows are these alone, without the two PAO processes. *)
Theorem CANDO3_appends_iff_default_path (cmps : list Component) (kw : string -> Qc)
  (fr_SS_COD : K) (path : option string) (kwargs : list (string * Qc))
  (cmps' : list Component) (cp : CompiledProcesses) :
  CANDO3_new cmps kw fr_SS_COD path kwargs = (cmps', Ok cp) ->
  (path = None \/ path = Some ""%string \/ path = Some _path_CANDO3 ->
     exists rows loaded _p12 _p14,
       read_tsv _path_CANDO3 = Some rows /\
       load_from_file _path_CANDO3 ["COD"; "charge"; "N"; "P"]%string CANDO3_params cmps'
         = Ok loaded /\
       length (processes loaded) = length rows /\
       Process_new cmps' [] p12_template = Ok _p12 /\
       Process_new cmps' [] p14_template = Ok _p14 /\
       p_name _p12 = "anox_storage_PP"%string /\
       p_name _p14 = "PAO_anox_growth"%string /\
       c_processes cp = processes loaded ++ [_p12; _p14] /\
       length (stoichio cp) = length rows + 2) /\
  (forall s, path = Some s -> s <> ""%string -> s <> _path_CANDO3 ->
     exists rows loaded,
       read_tsv s = Some rows /\
       load_from_file s ["COD"; "charge"; "N"; "P"]%string CANDO3_params cmps' = Ok loaded /\
       length (processes loaded) = length rows /\
       c_processes cp = processes loaded /\
       length (stoichio cp) = length rows).
Proof.
  intros H. unfold CANDO3_new in H.
  destruct (set_i_mass cmps "X_I" fr_SS_COD) as [c1|e] eqn:Es; [|inversion H].
  unfold refresh_constants in H. injection H as Hc1 H. subst cmps'.
  remember (effective_path _path_CANDO3 path) as p eqn:Hpath.
  destruct (CANDO3_collection c1 p) as [pc|e] eqn:Ec; simpl in H; [|discriminate].
  destruct (compile pc) as [self|e] eqn:Ecp; simpl in H; [|discriminate].
  unfold after_set_parameters in H.
  destruct (fst (set_parameters (keywords CANDO3_call_names kw kwargs) self)) eqn:Ef;
    [|discriminate].
  injection H as H.
  destruct (set_parameters_frame (keywords CANDO3_call_names kw kwargs) self) as [_ [Hp Hst]].
  rewrite H in Hp, Hst.
  destruct (compile_inv _ _ Ecp) as [_ [_ [Hcp [Hcs _]]]].
  unfold CANDO3_collection in Ec.
  destruct (load_from_file p _ CANDO3_params c1) as [loaded|e] eqn:El; simpl in Ec;
    [|discriminate].
  destruct (load_from_file_inv _ _ _ _ _ El) as [rows [Hr [_ [_ HF]]]].
  pose proof (Forall2_length HF) as Hlen.
  split.
  - intros Hdef.
    assert (Ep : p = _path_CANDO3).
    { rewrite Hpath. destruct Hdef as [-> | [-> | ->]]; simpl; [reflexivity|reflexivity|].
      destruct (String.eqb _path_CANDO3 ""%string); reflexivity. }
    rewrite Ep in *. rewrite String.eqb_refl in Ec.
    destruct (Process_new c1 [] p12_template) as [q12|e] eqn:E12; simpl in Ec; [|discriminate].
    destruct (Process_new c1 [] p14_template) as [q14|e] eqn:E14; simpl in Ec; [|discriminate].
    injection Ec as Ec. subst pc. simpl in *.
    exists rows, loaded, q12, q14.
    split; [exact Hr|]. split; [exact El|]. split; [symmetry; exact Hlen|].
    split; [reflexivity|]. split; [reflexivity|].
    split; [|split; [|split]].
    + destruct (Process_new_inv _ _ _ _ E12) as [_ [sol [_ [_ [_ [_ [Hn _]]]]]]]. exact Hn.
    + destruct (Process_new_inv _ _ _ _ E14) as [_ [sol [_ [_ [_ [_ [Hn _]]]]]]]. exact Hn.
    + rewrite Hp. exact Hcp.
    + rewrite Hst, Hcs, length_map, length_app. simpl. lia.
  - intros s Hs Hne Hnd.
    assert (Ep : p = s).
    { rewrite Hpath, Hs. simpl. destruct (String.eqb_spec s ""%string); [contradiction|reflexivity]. }
    rewrite Ep in *.
    destruct (String.eqb_spec s _path_CANDO3) as [E|E]; [contradiction|].
    injection Ec as Ec. subst pc.
    exists rows, loaded.
    split; [exact Hr|]. split; [exact El|]. split; [symmetry; exact Hlen|].
    split.
    + rewrite Hp. exact Hcp.
    + rewrite Hst, Hcs, length_map. lia.
Qed.

End ExtendFacts.

Section ParameterFacts.
Context {C : Coeff} {F : DataFiles}.

Lemma recognized_In (tbl : list (string * option Qc)) (n : string) :
  recognized tbl n = true <-> In n (map fst tbl).
Proof.
  unfold recognized. rewrite existsb_exists. split.
  - intros [e [He Heq]]. apply String.eqb_eq in Heq. subst n. apply in_map. exact He.
  - intros Hin. apply in_map_iff in Hin. destruct Hin as [e [Heq He]].
    exists e. split; [exact He|]. apply String.eqb_eq. exact Heq.
Qed.

Lemma Sharon_names_outside : Forall (fun n => ~ In n Sharon_params) Sharon_call_names.
Proof.
  apply Forall_forall. intros n Hn Hp.
  assert (Hb : forallb (fun n => negb (existsb (String.eqb n) Sharon_params))
                 Sharon_call_names = true) by reflexivity.
  rewrite forallb_forall in Hb. specialize (Hb n Hn).
  apply negb_true_iff in Hb.
  assert (Ht : existsb (String.eqb n) Sharon_params = true).
  { apply existsb_exists. exists n. split; [exact Hp|apply String.eqb_refl]. }
  congruence.
Qed.

(** C4.  A [set_parameters] call with a name the table does not hold
    raises [UnknownParameterError] and leaves the collection, its table
    included, exactly as it was; a call whose names are all held returns
    normally.  Every name [Sharon.__new__] passes is outside
    [Sharon._params], so on a table that holds no other names its call
    raises. *)
Theorem set_parameters_unknown_name (kwargs : list (string * Qc)) (cp : CompiledProcesses) :
  ((exists kv, In kv kwargs /\ recognized (parameter_table cp) (fst kv) = false) ->
     set_parameters kwargs cp = (Err UnknownParameterError, cp)) /\
  ((forall kv, In kv kwargs -> recognized (parameter_table cp) (fst kv) = true) ->
     fst (set_parameters kwargs cp) = Ok tt) /\
  Forall (fun n => ~ In n Sharon_params) Sharon_call_names /\
  (forall kw,
     (forall n, In n (map fst (parameter_table cp)) -> In n Sharon_params) ->
     set_parameters (keywords Sharon_call_names kw kwargs) cp = (Err UnknownParameterError, cp)).
Proof.
  assert (Hbad : forall kws, (exists kv, In kv kws /\ recognized (parameter_table cp) (fst kv) = false) ->
                 set_parameters kws cp = (Err UnknownParameterError, cp)).
  { intros kws [kv [Hin Hr]]. unfold set_parameters.
    destruct (forallb _ kws) eqn:E; [|reflexivity].
    rewrite forallb_forall in E. specialize (E kv Hin). congruence. }
  split; [apply Hbad|]. split; [|split].
  - intros Hall. unfold set_parameters.
    assert (E : forallb (fun kv => recognized (parameter_table cp) (fst kv)) kwargs = true)
      by (apply forallb_forall; exact Hall).
    rewrite E. reflexivity.
  - exact Sharon_names_outside.
  - intros kw Htbl. apply Hbad. exists ("Y_1"%string, kw "Y_1"%string). split.
    + unfold keywords. apply in_or_app. left. simpl. left. reflexivity.
    + simpl. destruct (recognized (parameter_table cp) "Y_1") eqn:E; [|reflexivity].
      apply recognized_In in E. apply Htbl in E. exfalso.
      pose proof Sharon_names_outside as Ho. rewrite Forall_forall in Ho.
      apply (Ho "Y_1"%string); [simpl; left; reflexivity|exact E].
Qed.

End ParameterFacts.

Lemma extend_then_compile_witness :
  exists pc cp,
    @load_from_file QcK example_files "data/process_data/_CANDO.tsv"%string
      ["COD"; "charge"; "N"]%string [] example_cmps = Ok pc /\
    compile (extend pc [example_process; example_growth]) = Ok cp /\
    length (stoichio cp) = 3%nat /\
    nth_error (stoichio cp) 1 = Some [0; 0; 0; 0; 0; 0; 0; 0; 1; 0] /\
    nth_error (stoichio cp) 2 = Some [0; 0; 0; 0; 0; 0; Qcopp 1; 0; 0; 1].
Proof.
  destruct (@load_from_file QcK example_files "data/process_data/_CANDO.tsv"%string
              ["COD"; "charge"; "N"]%string [] example_cmps) as [pc|e] eqn:E.
  - assert (Hd1 : NoDup (map fst (stoichiometry example_process))).
    { simpl. constructor; [intros []|constructor]. }
    assert (Hd2 : NoDup (map fst (stoichiometry example_growth))).
    { simpl. constructor; [|constructor; [intros []|constructor]].
      intros [H|[]]. discriminate H. }
    destruct (@extend_then_compile QcK (Qc_laws example_val) example_files
                "data/process_data/_CANDO.tsv"%string
                ["COD"; "charge"; "N"]%string [] example_cmps [example_row] pc
                example_process example_growth eq_refl E eq_refl eq_refl Hd1 Hd2)
      as [cp0 [cp [r1 [r2 [_ [Hc [Hl0 [Hl [Hs [_ [L1 [L2 Hent]]]]]]]]]]]].
    exists pc, cp. split; [reflexivity|]. split; [exact Hc|]. split; [exact Hl|].
    assert (Hin : forall (id : string) (k : Qc) (st : list (string * Qc)),
              existsb (fun e => String.eqb (fst e) id && Qc_eq_bool (snd e) k) st = true ->
              In (id, k) st).
    { intros id k st H. apply existsb_exists in H. destruct H as [[i v] [Hi Hb]].
      apply andb_true_iff in Hb. destruct Hb as [Hb1 Hb2]. simpl in Hb1, Hb2.
      apply String.eqb_eq in Hb1. apply Qc_eq_bool_correct in Hb2. subst. exact Hi. }
    assert (Hout : forall (id : string) (st : list (string * Qc)),
              existsb (String.eqb id) (map fst st) = false -> ~ In id (map fst st)).
    { intros id st H Hi. assert (Ht : existsb (String.eqb id) (map fst st) = true).
      { apply existsb_exists. exists id. split; [exact Hi|apply String.eqb_refl]. }
      congruence. }
    destruct (Hent 0%nat _ eq_refl) as [Ja0 [Jb0 [Jc0 Jd0]]].
    destruct (Hent 1%nat _ eq_refl) as [Ja1 [Jb1 [Jc1 Jd1]]].
    destruct (Hent 2%nat _ eq_refl) as [Ja2 [Jb2 [Jc2 Jd2]]].
    destruct (Hent 3%nat _ eq_refl) as [Ja3 [Jb3 [Jc3 Jd3]]].
    destruct (Hent 4%nat _ eq_refl) as [Ja4 [Jb4 [Jc4 Jd4]]].
    destruct (Hent 5%nat _ eq_refl) as [Ja5 [Jb5 [Jc5 Jd5]]].
    destruct (Hent 6%nat _ eq_refl) as [Ja6 [Jb6 [Jc6 Jd6]]].
    destruct (Hent 7%nat _ eq_refl) as [Ja7 [Jb7 [Jc7 Jd7]]].
    destruct (Hent 8%nat _ eq_refl) as [Ja8 [Jb8 [Jc8 Jd8]]].
    destruct (Hent 9%nat _ eq_refl) as [Ja9 [Jb9 [Jc9 Jd9]]].
    assert (E1 : r1 = [0; 0; 0; 0; 0; 0; 0; 0; 1; 0]).
    { destruct r1 as [|a0 [|a1 [|a2 [|a3 [|a4 [|a5 [|a6 [|a7 [|a8 [|a9 [|a10 r1]]]]]]]]]]];
        try discriminate L1.
      assert (H0 : Some a0 = Some 0) by (apply Jb0, Hout; reflexivity).
      assert (H1 : Some a1 = Some 0) by (apply Jb1, Hout; reflexivity).
      assert (H2 : Some a2 = Some 0) by (apply Jb2, Hout; reflexivity).
      assert (H3 : Some a3 = Some 0) by (apply Jb3, Hout; reflexivity).
      assert (H4 : Some a4 = Some 0) by (apply Jb4, Hout; reflexivity).
      assert (H5 : Some a5 = Some 0) by (apply Jb5, Hout; reflexivity).
      assert (H6 : Some a6 = Some 0) by (apply Jb6, Hout; reflexivity).
      assert (H7 : Some a7 = Some 0) by (apply Jb7, Hout; reflexivity).
      assert (H8 : Some a8 = Some 1) by (apply Ja8, Hin; reflexivity).
      assert (H9 : Some a9 = Some 0) by (apply Jb9, Hout; reflexivity).
      injection H0 as ->.
      injection H1 as ->.
      injection H2 as ->.
      injection H3 as ->.
      injection H4 as ->.
      injection H5 as ->.
      injection H6 as ->.
      injection H7 as ->.
      injection H8 as ->.
      injection H9 as ->.
      reflexivity. }
    assert (E2 : r2 = [0; 0; 0; 0; 0; 0; Qcopp 1; 0; 0; 1]).
    { destruct r2 as [|a0 [|a1 [|a2 [|a3 [|a4 [|a5 [|a6 [|a7 [|a8 [|a9 [|a10 r2]]]]]]]]]]];
        try discriminate L2.
      assert (H0 : Some a0 = Some 0) by (apply Jd0, Hout; reflexivity).
      assert (H1 : Some a1 = Some 0) by (apply Jd1, Hout; reflexivity).
      assert (H2 : Some a2 = Some 0) by (apply Jd2, Hout; reflexivity).
      assert (H3 : Some a3 = Some 0) by (apply Jd3, Hout; reflexivity).
      assert (H4 : Some a4 = Some 0) by (apply Jd4, Hout; reflexivity).
      assert (H5 : Some a5 = Some 0) by (apply Jd5, Hout; reflexivity).
      assert (H6 : Some a6 = Some (Qcopp 1)) by (apply Jc6, Hin; reflexivity).
      assert (H7 : Some a7 = Some 0) by (apply Jd7, Hout; reflexivity).
      assert (H8 : Some a8 = Some 0) by (apply Jd8, Hout; reflexivity).
      assert (H9 : Some a9 = Some 1) by (apply Jc9, Hin; reflexivity).
      injection H0 as ->.
      injection H1 as ->.
      injection H2 as ->.
      injection H3 as ->.
      injection H4 as ->.
      injection H5 as ->.
      injection H6 as ->.
      injection H7 as ->.
      injection H8 as ->.
      injection H9 as ->.
      reflexivity. }
    assert (Hn0 : length (stoichio cp0) = 1%nat) by exact Hl0.
    rewrite Hs. destruct (stoichio cp0) as [|row0 [|row1 rest]]; try discriminate Hn0.
    simpl. rewrite E1, E2. split; reflexivity.
  - exfalso.
    assert (H : is_ok (@load_from_file QcK example_files "data/process_data/_CANDO.tsv"%string
                         ["COD"; "charge"; "N"]%string [] example_cmps) = true)
      by (vm_compute; reflexivity).
    rewrite E in H. discriminate H.
Defined.

Lemma CANDO3_appends_iff_default_path_witness :
  (exists cmps' cp,
     @CANDO3_new QcK example_files example_cmps example_kw 1 None [] = (cmps', Ok cp) /\
     length (stoichio cp) = 3%nat) /\
  (exists cmps' cp loaded,
     @CANDO3_new QcK example_files example_cmps example_kw 1 (Some "other.tsv"%string) []
       = (cmps', Ok cp) /\
     @load_from_file QcK example_files "other.tsv"%string ["COD"; "charge"; "N"; "P"]%string
       CANDO3_params cmps' = Ok loaded /\
     c_processes cp = processes loaded /\
     length (stoichio cp) = 2%nat).
Proof.
  split.
  - destruct (@CANDO3_new QcK example_files example_cmps example_kw 1 None [])
      as [cmps' r] eqn:E.
    assert (Hok : is_ok (snd (@CANDO3_new QcK example_files example_cmps example_kw 1 None []))
                  = true) by (vm_compute; reflexivity).
    rewrite E in Hok. simpl in Hok. destruct r as [cp|e]; [|discriminate].
    exists cmps', cp. split; [reflexivity|].
    destruct (proj1 (@CANDO3_appends_iff_default_path QcK example_files example_cmps
                       example_kw 1 None [] cmps' cp E) (or_introl eq_refl))
      as [rows [loaded [q12 [q14 [Hr [_ [_ [_ [_ [_ [_ [_ Hlen]]]]]]]]]]]].
    simpl in Hr. injection Hr as Hr. subst rows. exact Hlen.
  - destruct (@CANDO3_new QcK example_files example_cmps example_kw 1
                (Some "other.tsv"%string) []) as [cmps' r] eqn:E.
    assert (Hok : is_ok (snd (@CANDO3_new QcK example_files example_cmps example_kw 1
                                (Some "other.tsv"%string) [])) = true)
      by (vm_compute; reflexivity).
    rewrite E in Hok. simpl in Hok. destruct r as [cp|e]; [|discriminate].
    assert (Hn1 : "other.tsv"%string <> ""%string) by discriminate.
    assert (Hn2 : "other.tsv"%string <> @_path_CANDO3 QcK example_files) by discriminate.
    destruct (proj2 (@CANDO3_appends_iff_default_path QcK example_files example_cmps
                       example_kw 1 (Some "other.tsv"%string) [] cmps' cp E)
                "other.tsv"%string eq_refl Hn1 Hn2)
      as [rows [loaded [Hr [Hl [_ [Hc Hlen]]]]]].
    simpl in Hr. injection Hr as Hr. subst rows.
    exists cmps', cp, loaded. split; [reflexivity|]. split; [exact Hl|].
    split; [exact Hc|exact Hlen].
Defined.

Lemma set_parameters_unknown_name_witness :
  set_parameters [("mu_PAO"%string, 1); ("Y_1"%string, 1)] example_compiled =
  (Err UnknownParameterError, example_compiled).
Proof.
  apply (proj1 (@set_parameters_unknown_name QcK
                  [("mu_PAO"%string, 1); ("Y_1"%string, 1)] example_compiled)).
  exists ("Y_1"%string, 1). split; [simpl; right; left; reflexivity | reflexivity].
Defined.

(** ** Rate evaluation *)

Section RateFacts.
Variables cv pv : string -> result Qc.

Lemma Qc_eq_bool_true (x y : Qc) : Qc_eq_bool x y = true <-> x = y.
Proof.
  split; [apply Qc_eq_bool_correct|].
  intros ->. unfold Qc_eq_bool. destruct (Qc_eq_dec y y); congruence.
Qed.

Lemma Qc_eq_bool_false (x y : Qc) : x <> y -> Qc_eq_bool x y = false.
Proof.
  intros H. destruct (Qc_eq_bool x y) eqn:E; [|reflexivity].
  apply Qc_eq_bool_true in E. contradiction.
Qed.

Lemma eval_monod_zero (S Ks : expr) (k : Qc) :
  eval cv pv S = Ok 0 -> eval cv pv Ks = Ok k -> 0 < k ->
  eval cv pv (monod S Ks) = Ok 0.
Proof.
  intros HS HK Hk. unfold monod. simpl. rewrite HS, HK. simpl.
  assert (Hne : k + 0 <> 0).
  { intros H. rewrite Qcplus_0_r in H. subst k. exact (Qclt_not_eq _ _ Hk eq_refl). }
  rewrite (Qc_eq_bool_false _ _ Hne). f_equal. field.
  intros H. apply Hne. rewrite H. ring.
Qed.

Lemma zero_factor_zero (e : expr) :
  has_zero_factor cv pv e -> forall v, eval cv pv e = Ok v -> v = 0.
Proof.
  induction 1 as [e He|a b _ IH|a b _ IH|a b _ IH]; intros v Hv.
  - congruence.
  - simpl in Hv. destruct (eval cv pv a) as [x|]; simpl in Hv; [|discriminate].
    destruct (eval cv pv b) as [y|]; simpl in Hv; [|discriminate].
    injection Hv as <-. rewrite (IH x eq_refl). ring.
  - simpl in Hv. destruct (eval cv pv a) as [x|]; simpl in Hv; [|discriminate].
    destruct (eval cv pv b) as [y|]; simpl in Hv; [|discriminate].
    injection Hv as <-. rewrite (IH y eq_refl). ring.
  - simpl in Hv. destruct (eval cv pv a) as [x|]; simpl in Hv; [|discriminate].
    destruct (eval cv pv b) as [y|]; simpl in Hv; [|discriminate].
    destruct (Qc_eq_bool y 0) eqn:E; [discriminate|].
    injection Hv as <-. rewrite (IH x eq_refl).
    unfold Qcdiv. ring.
Qed.

End RateFacts.

Section SymbolicFacts.
Variables cv pv : string -> result Qc.

Lemma expr_eqb_eq (a b : expr) : expr_eqb a b = true -> a = b.
Proof.
  revert b. induction a as [p|s|s|a1 IH1 a2 IH2|a1 IH1 a2 IH2|a1 IH1 a2 IH2|a1 IH1 a2 IH2];
    intros [q|t|t|b1 b2|b1 b2|b1 b2|b1 b2] H; simpl in H; try discriminate.
  - apply andb_true_iff in H. destruct H as [H _].
    apply Qc_eq_bool_correct in H. subst. reflexivity.
  - apply String.eqb_eq in H. subst. reflexivity.
  - apply String.eqb_eq in H. subst. reflexivity.
  - apply andb_true_iff in H. destruct H as [H1 H2].
    rewrite (IH1 _ H1), (IH2 _ H2). reflexivity.
  - apply andb_true_iff in H. destruct H as [H1 H2].
    rewrite (IH1 _ H1), (IH2 _ H2). reflexivity.
  - apply andb_true_iff in H. destruct H as [H1 H2].
    rewrite (IH1 _ H1), (IH2 _ H2). reflexivity.
  - apply andb_true_iff in H. destruct H as [H1 H2].
    rewrite (IH1 _ H1), (IH2 _ H2). reflexivity.
Qed.

Lemma remove_factor_split (x : expr) (l l' : list expr) :
  remove_factor x l = Some l' ->
  exists l1 l2, l = l1 ++ x :: l2 /\ l' = l1 ++ l2.
Proof.
  revert l'. induction l as [|y l IH]; intros l' H; simpl in H; [discriminate|].
  destruct (expr_eqb x y) eqn:E.
  - injection H as <-. apply expr_eqb_eq in E. subst y.
    exists [], l. split; reflexivity.
  - destruct (remove_factor x l) as [r|]; [|discriminate].
    injection H as <-. destruct (IH r eq_refl) as [l1 [l2 [H1 H2]]].
    exists (y :: l1), l2. subst. split; reflexivity.
Qed.

Lemma mapM_app_ok {A B : Type} (f : A -> result B) (l1 l2 : list A) (v1 v2 : list B) :
  mapM f l1 = Ok v1 -> mapM f l2 = Ok v2 -> mapM f (l1 ++ l2) = Ok (v1 ++ v2).
Proof.
  revert v1. induction l1 as [|a l1 IH]; intros v1 H1 H2; simpl in *.
  - injection H1 as <-. exact H2.
  - destruct (f a) as [b|]; simpl in *; [|discriminate].
    destruct (mapM f l1) as [bs|]; simpl in *; [|discriminate].
    injection H1 as <-. rewrite (IH bs eq_refl H2). reflexivity.
Qed.

Lemma mapM_app_inv {A B : Type} (f : A -> result B) (l1 l2 : list A) (v : list B) :
  mapM f (l1 ++ l2) = Ok v ->
  exists v1 v2, mapM f l1 = Ok v1 /\ mapM f l2 = Ok v2 /\ v = v1 ++ v2.
Proof.
  revert v. induction l1 as [|a l1 IH]; intros v H; simpl in *.
  - exists [], v. repeat split. exact H.
  - destruct (f a) as [b|]; simpl in *; [|discriminate].
    destruct (mapM f (l1 ++ l2)) as [bs|]; simpl in *; [|discriminate].
    injection H as <-. destruct (IH bs eq_refl) as [v1 [v2 [H1 [H2 ->]]]].
    exists (b :: v1), v2. rewrite H1. repeat split. exact H2.
Qed.

Lemma Qprod_app (a b : list Qc) : Qprod (a ++ b) = Qprod a * Qprod b.
Proof.
  induction a as [|x a IH]; simpl.
  - ring.
  - rewrite IH. ring.
Qed.

Lemma Qc_mult_nonzero (x y : Qc) : x <> 0 -> y <> 0 -> x * y <> 0.
Proof.
  intros Hx Hy H. apply Qcmult_integral in H. destruct H; contradiction.
Qed.

Lemma Qc_mult_cancel_r (a b c : Qc) : c <> 0 -> a * c = b * c -> a = b.
Proof.
  intros Hc H. replace a with (a * c / c) by (field; exact Hc).
  rewrite H. field. exact Hc.
Qed.

Lemma Qprod_nonzero (l : list Qc) : Forall (fun y => y <> 0) l -> Qprod l <> 0.
Proof.
  induction 1 as [|x l Hx _ IH]; simpl.
  - discriminate.
  - apply Qc_mult_nonzero; assumption.
Qed.

Lemma nonzero_of_Qprod (l : list Qc) : Qprod l <> 0 -> Forall (fun y => y <> 0) l.
Proof.
  induction l as [|x l IH]; simpl; intros H; constructor.
  - intros E. apply H. rewrite E. ring.
  - apply IH. intros E. apply H. rewrite E. ring.
Qed.

Lemma cancel_sound (n : list expr) : forall (d : list expr) (nv dv : list Qc),
  valued cv pv n d nv dv ->
  exists nv' dv', valued cv pv (fst (cancel n d)) (snd (cancel n d)) nv' dv' /\
                  Qprod nv * Qprod dv' = Qprod nv' * Qprod dv.
Proof.
  induction n as [|x n IH]; intros d nv dv [Hn [Hd Hz]].
  - simpl in *. injection Hn as <-. exists [], dv. split; [repeat split; assumption|ring].
  - simpl in Hn. destruct (eval cv pv x) as [xv|] eqn:Ex; simpl in Hn; [|discriminate].
    destruct (mapM (eval cv pv) n) as [nv0|] eqn:En; simpl in Hn; [|discriminate].
    injection Hn as <-. simpl.
    destruct (remove_factor x d) as [d'|] eqn:Er.
    + destruct (remove_factor_split _ _ _ Er) as [l1 [l2 [-> ->]]].
      destruct (mapM_app_inv _ _ _ _ Hd) as [v1 [v2' [H1 [H2 ->]]]].
      simpl in H2. rewrite Ex in H2. simpl in H2.
      destruct (mapM (eval cv pv) l2) as [v2|] eqn:E2; simpl in H2; [|discriminate].
      injection H2 as <-.
      apply Forall_app in Hz. destruct Hz as [Hz1 Hz2].
      inversion Hz2 as [|y l Hx Hz2' Heq]; subst y l.
      destruct (IH (l1 ++ l2) nv0 (v1 ++ v2)) as [nv' [dv' [Hv He]]].
      { split; [exact En|]. split; [apply mapM_app_ok; assumption|].
        apply Forall_app. split; assumption. }
      exists nv', dv'. split; [exact Hv|].
      rewrite Qprod_app in *. simpl.
      transitivity (xv * (Qprod nv0 * Qprod dv')); [ring|]. rewrite He. ring.
    + destruct (IH d nv0 dv) as [nv' [dv' [[Hn' [Hd' Hz']] He]]].
      { split; [exact En|]. split; assumption. }
      destruct (cancel n d) as [n1 d1]. simpl in *.
      exists (xv :: nv'), dv'. split.
      * split; [|split; assumption]. simpl. rewrite Ex, Hn'. reflexivity.
      * simpl. transitivity (xv * (Qprod nv0 * Qprod dv')); [ring|]. rewrite He. ring.
Qed.

Lemma fold_Mul_eval (l : list expr) : forall (acc : expr) (a : Qc) (lv : list Qc),
  eval cv pv acc = Ok a -> mapM (eval cv pv) l = Ok lv ->
  eval cv pv (fold_left Mul l acc) = Ok (a * Qprod lv).
Proof.
  induction l as [|x l IH]; intros acc a lv Ha Hl; simpl in *.
  - injection Hl as <-. rewrite Ha. f_equal. simpl. ring.
  - destruct (eval cv pv x) as [xv|] eqn:Ex; simpl in Hl; [|discriminate].
    destruct (mapM (eval cv pv) l) as [lv0|] eqn:El; simpl in Hl; [|discriminate].
    injection Hl as <-.
    rewrite (IH (Mul acc x) (a * xv) lv0).
    + f_equal. simpl. ring.
    + simpl. rewrite Ha, Ex. reflexivity.
    + reflexivity.
Qed.

Lemma fold_Div_eval (l : list expr) : forall (acc : expr) (a : Qc) (lv : list Qc),
  eval cv pv acc = Ok a -> mapM (eval cv pv) l = Ok lv ->
  Forall (fun y => y <> 0) lv ->
  eval cv pv (fold_left Div l acc) = Ok (a / Qprod lv).
Proof.
  induction l as [|x l IH]; intros acc a lv Ha Hl Hz; simpl in *.
  - injection Hl as <-. rewrite Ha. f_equal. simpl. field. discriminate.
  - destruct (eval cv pv x) as [xv|] eqn:Ex; simpl in Hl; [|discriminate].
    destruct (mapM (eval cv pv) l) as [lv0|] eqn:El; simpl in Hl; [|discriminate].
    injection Hl as <-.
    inversion Hz as [|y l' Hx Hz' Heq]; subst y l'.
    rewrite (IH (Div acc x) (a / xv) lv0).
    + f_equal. simpl. field. split; [apply Qprod_nonzero; exact Hz'|exact Hx].
    + simpl. rewrite Ha, Ex. simpl. rewrite (Qc_eq_bool_false _ _ Hx). reflexivity.
    + reflexivity.
    + exact Hz'.
Qed.

Lemma product_eval (n d : list expr) (nv dv : list Qc) :
  valued cv pv n d nv dv -> eval cv pv (product (n, d)) = Ok (Qprod nv / Qprod dv).
Proof.
  intros [Hn [Hd Hz]]. unfold product. cbn [fst snd].
  apply fold_Div_eval; [|exact Hd|exact Hz].
  destruct n as [|x n]; simpl in Hn.
  - injection Hn as <-. reflexivity.
  - destruct (eval cv pv x) as [xv|] eqn:Ex; simpl in Hn; [|discriminate].
    destruct (mapM (eval cv pv) n) as [nv0|] eqn:En; simpl in Hn; [|discriminate].
    injection Hn as <-. simpl. apply fold_Mul_eval; [exact Ex|exact En].
Qed.

Lemma factored_symbolic (e : expr) (v : Qc) :
  factored cv pv e v -> eval cv pv (symbolic e) = Ok v.
Proof.
  intros [nv [dv [Hv He]]]. unfold symbolic.
  rewrite (surjective_pairing (factors e)).
  rewrite (product_eval _ _ _ _ Hv). f_equal.
  destruct Hv as [_ [_ Hz]]. pose proof (Qprod_nonzero _ Hz) as Hnz.
  rewrite <- He. field. exact Hnz.
Qed.

Lemma factors_sound (e : expr) : forall v, eval cv pv e = Ok v -> factored cv pv e v.
Proof.
  induction e as [q|s|s|a IHa b IHb|a IHa b IHb|a IHa b IHb|a IHa b IHb]; intros v H.
  - simpl in H. injection H as <-. exists [q], [].
    split; [split; [reflexivity|split; [reflexivity|constructor]]|simpl; ring].
  - simpl in H. exists [v], [].
    split; [split; [simpl; rewrite H; reflexivity|split; [reflexivity|constructor]]
           |simpl; ring].
  - simpl in H. exists [v], [].
    split; [split; [simpl; rewrite H; reflexivity|split; [reflexivity|constructor]]
           |simpl; ring].
  - simpl in H. destruct (eval cv pv a) as [x|] eqn:Ea; simpl in H; [|discriminate].
    destruct (eval cv pv b) as [y|] eqn:Eb; simpl in H; [|discriminate].
    injection H as <-.
    pose proof (factored_symbolic a x (IHa x eq_refl)) as Sa.
    pose proof (factored_symbolic b y (IHb y eq_refl)) as Sb.
    unfold symbolic in Sa, Sb.
    exists [x + y], [].
    split; [split; [simpl; rewrite Sa, Sb; reflexivity|split; [reflexivity|constructor]]
           |simpl; ring].
  - simpl in H. destruct (eval cv pv a) as [x|] eqn:Ea; simpl in H; [|discriminate].
    destruct (eval cv pv b) as [y|] eqn:Eb; simpl in H; [|discriminate].
    injection H as <-.
    pose proof (factored_symbolic a x (IHa x eq_refl)) as Sa.
    pose proof (factored_symbolic b y (IHb y eq_refl)) as Sb.
    unfold symbolic in Sa, Sb.
    exists [x - y], [].
    split; [split; [simpl; rewrite Sa, Sb; reflexivity|split; [reflexivity|constructor]]
           |simpl; ring].
  - simpl in H. destruct (eval cv pv a) as [x|] eqn:Ea; simpl in H; [|discriminate].
    destruct (eval cv pv b) as [y|] eqn:Eb; simpl in H; [|discriminate].
    injection H as <-.
    destruct (IHa x eq_refl) as [nva [dva [[Hna [Hda Hza]] Hea]]].
    destruct (IHb y eq_refl) as [nvb [dvb [[Hnb [Hdb Hzb]] Heb]]].
    unfold factored. simpl.
    destruct (factors a) as [na da]. destruct (factors b) as [nb db]. simpl in *.
    destruct (cancel_sound (na ++ nb) (da ++ db) (nva ++ nvb) (dva ++ dvb))
      as [nv' [dv' [Hv He]]].
    { split; [apply mapM_app_ok; assumption|].
      split; [apply mapM_app_ok; assumption|]. apply Forall_app. split; assumption. }
    exists nv', dv'. split; [exact Hv|].
    rewrite !Qprod_app in He.
    assert (Hnz : Qprod dva * Qprod dvb <> 0)
      by (apply Qc_mult_nonzero; apply Qprod_nonzero; assumption).
    apply (Qc_mult_cancel_r _ _ (Qprod dva * Qprod dvb) Hnz).
    transitivity (x * Qprod dva * (y * Qprod dvb) * Qprod dv'); [ring|].
    rewrite Hea, Heb, He. ring.
  - simpl in H. destruct (eval cv pv a) as [x|] eqn:Ea; simpl in H; [|discriminate].
    destruct (eval cv pv b) as [y|] eqn:Eb; simpl in H; [|discriminate].
    destruct (Qc_eq_bool y 0) eqn:Ey; [discriminate|].
    injection H as <-.
    assert (Hy : y <> 0).
    { intros E. subst y. unfold Qc_eq_bool in Ey. destruct (Qc_eq_dec 0 0); congruence. }
    destruct (IHa x eq_refl) as [nva [dva [[Hna [Hda Hza]] Hea]]].
    destruct (IHb y eq_refl) as [nvb [dvb [[Hnb [Hdb Hzb]] Heb]]].
    unfold factored. simpl.
    destruct (factors a) as [na da]. destruct (factors b) as [nb db]. simpl in *.
    assert (Hznb : Forall (fun y => y <> 0) nvb).
    { apply nonzero_of_Qprod. rewrite <- Heb.
      apply Qc_mult_nonzero; [exact Hy|apply Qprod_nonzero; exact Hzb]. }
    destruct (cancel_sound (na ++ db) (da ++ nb) (nva ++ dvb) (dva ++ nvb))
      as [nv' [dv' [Hv He]]].
    { split; [apply mapM_app_ok; assumption|].
      split; [apply mapM_app_ok; assumption|]. apply Forall_app. split; assumption. }
    exists nv', dv'. split; [exact Hv|].
    rewrite !Qprod_app in He.
    assert (Hnz : Qprod dva * Qprod nvb <> 0)
      by (apply Qc_mult_nonzero; apply Qprod_nonzero; assumption).
    apply (Qc_mult_cancel_r _ _ (Qprod dva * Qprod nvb) Hnz).
    transitivity (Qprod nv' * (Qprod dva * Qprod nvb)); [|ring].
    rewrite <- He, <- Hea, <- Heb. field. exact Hy.
Qed.

(** The symbolic form has every value the string has. *)
Lemma symbolic_sound (e : expr) (v : Qc) :
  eval cv pv e = Ok v -> eval cv pv (symbolic e) = Ok v.
Proof.
  intros H. apply factored_symbolic. apply factors_sound. exact H.
Qed.

End SymbolicFacts.

Section RateErrors.
Variables cv pv : string -> result Qc.

(** With a value for every symbol, evaluation raises only on a division
    whose divisor evaluates to zero, and then [NumericDomainError]. *)
Lemma eval_raises_only_on_division (e : expr) (err : error) :
  symbols_defined cv pv e -> eval cv pv e = Err err ->
  err = NumericDomainError /\ divides_by_zero cv pv e.
Proof.
  revert err. unfold divides_by_zero.
  induction e as [q|s|s|a IHa b IHb|a IHa b IHb|a IHa b IHb|a IHa b IHb]; intros err Hd H;
    simpl in H, Hd.
  - discriminate.
  - destruct Hd as [v Hv]. congruence.
  - destruct Hd as [v Hv]. congruence.
  - destruct Hd as [Hda Hdb]. destruct (eval cv pv a) as [x|ea]; simpl in H.
    + destruct (eval cv pv b) as [y|eb]; simpl in H; [discriminate|].
      injection H as <-. destruct (IHb eb Hdb eq_refl) as [He [a0 [b0 [Hs Hz]]]].
      split; [exact He|]. exists a0, b0. split; [apply sub_add_r; exact Hs|exact Hz].
    + injection H as <-. destruct (IHa ea Hda eq_refl) as [He [a0 [b0 [Hs Hz]]]].
      split; [exact He|]. exists a0, b0. split; [apply sub_add_l; exact Hs|exact Hz].
  - destruct Hd as [Hda Hdb]. destruct (eval cv pv a) as [x|ea]; simpl in H.
    + destruct (eval cv pv b) as [y|eb]; simpl in H; [discriminate|].
      injection H as <-. destruct (IHb eb Hdb eq_refl) as [He [a0 [b0 [Hs Hz]]]].
      split; [exact He|]. exists a0, b0. split; [apply sub_sub_r; exact Hs|exact Hz].
    + injection H as <-. destruct (IHa ea Hda eq_refl) as [He [a0 [b0 [Hs Hz]]]].
      split; [exact He|]. exists a0, b0. split; [apply sub_sub_l; exact Hs|exact Hz].
  - destruct Hd as [Hda Hdb]. destruct (eval cv pv a) as [x|ea]; simpl in H.
    + destruct (eval cv pv b) as [y|eb]; simpl in H; [discriminate|].
      injection H as <-. destruct (IHb eb Hdb eq_refl) as [He [a0 [b0 [Hs Hz]]]].
      split; [exact He|]. exists a0, b0. split; [apply sub_mul_r; exact Hs|exact Hz].
    + injection H as <-. destruct (IHa ea Hda eq_refl) as [He [a0 [b0 [Hs Hz]]]].
      split; [exact He|]. exists a0, b0. split; [apply sub_mul_l; exact Hs|exact Hz].
  - destruct Hd as [Hda Hdb]. destruct (eval cv pv a) as [x|ea] eqn:Ea; simpl in H.
    + destruct (eval cv pv b) as [y|eb] eqn:Eb; simpl in H.
      * destruct (Qc_eq_bool y 0) eqn:E; [|discriminate].
        injection H as <-. apply Qc_eq_bool_true in E. subst y.
        split; [reflexivity|]. exists a, b. split; [apply sub_here|exact Eb].
      * injection H as <-. destruct (IHb eb Hdb eq_refl) as [He [a0 [b0 [Hs Hz]]]].
        split; [exact He|]. exists a0, b0. split; [apply sub_div_r; exact Hs|exact Hz].
    + injection H as <-. destruct (IHa ea Hda eq_refl) as [He [a0 [b0 [Hs Hz]]]].
      split; [exact He|]. exists a0, b0. split; [apply sub_div_l; exact Hs|exact Hz].
Qed.

End RateErrors.

Ltac find_subterm :=
  solve [ apply sub_here
        | apply sub_mul_l; find_subterm | apply sub_mul_r; find_subterm
        | apply sub_div_l; find_subterm | apply sub_div_r; find_subterm
        | apply sub_add_l; find_subterm | apply sub_add_r; find_subterm
        | apply sub_sub_l; find_subterm | apply sub_sub_r; find_subterm ].

Lemma symbolic_p12 : symbolic p12_rate = p12_symbolic.
Proof. vm_compute. reflexivity. Qed.

Lemma symbolic_p14 : symbolic p14_rate = p14_symbolic.
Proof. vm_compute. reflexivity. Qed.

Section RateOfFacts.
Context {C : Coeff}.
Variables (cp : CompiledProcesses) (concs : list Qc).

(** C3, as amended.  Rate evaluation works on the rate law in symbolic
    form, which has every value the rate string has.  A Monod term
    [S/(K+S)] with [S = 0] and [K > 0] evaluates to 0, and a process whose
    symbolic rate law has a factor that evaluates to 0 has rate 0 whenever
    its rate evaluates.  With a value for every symbol of the law, the
    evaluation raises only [NumericDomainError] and only when a division
    of the law has a divisor that evaluates to zero.  In the rate
    equations of [_p12] and [_p14] the factor [S_O2] of the Monod term is
    struck against [k_O2/S_O2]: their symbolic form holds [S_O2] in
    [k_O2/(k_O2+S_O2)] alone, and the rate at [S_O2 = 0] is that of this
    form, not 0.  The quotient [X_PHA/X_PAO] stays in the law, which
    divides by zero at [X_PAO = 0]. *)
Theorem rate_zero_or_domain_error (p : Process) :
  (forall S Ks k,
     eval (concentration (c_components cp) concs) (parameter_value (parameter_table cp)) S
       = Ok 0 ->
     eval (concentration (c_components cp) concs) (parameter_value (parameter_table cp)) Ks
       = Ok k ->
     0 < k ->
     eval (concentration (c_components cp) concs) (parameter_value (parameter_table cp))
       (monod S Ks) = Ok 0) /\
  (forall v,
     has_zero_factor (concentration (c_components cp) concs)
       (parameter_value (parameter_table cp)) (symbolic (p_rate p)) ->
     rate_of cp concs p = Ok v -> v = 0) /\
  (forall err,
     symbols_defined (concentration (c_components cp) concs)
       (parameter_value (parameter_table cp)) (symbolic (p_rate p)) ->
     rate_of cp concs p = Err err ->
     err = NumericDomainError /\
     divides_by_zero (concentration (c_components cp) concs)
       (parameter_value (parameter_table cp)) (symbolic (p_rate p))) /\
  (forall v,
     eval (concentration (c_components cp) concs) (parameter_value (parameter_table cp))
       (p_rate p) = Ok v ->
     rate_of cp concs p = Ok v) /\
  (p_rate p = p12_rate ->
     rate_of cp concs p =
     eval (concentration (c_components cp) concs) (parameter_value (parameter_table cp))
       p12_symbolic) /\
  (p_rate p = p14_rate ->
     rate_of cp concs p =
     eval (concentration (c_components cp) concs) (parameter_value (parameter_table cp))
       p14_symbolic) /\
  (p_rate p = p12_rate \/ p_rate p = p14_rate ->
     concentration (c_components cp) concs "X_PAO"%string = Ok 0 ->
     divides_by_zero (concentration (c_components cp) concs)
       (parameter_value (parameter_table cp)) (symbolic (p_rate p))).
Proof.
  split; [|split; [|split; [|split; [|split; [|split]]]]].
  - intros S Ks k. apply eval_monod_zero.
  - intros v Hz Hv. exact (zero_factor_zero _ _ _ Hz v Hv).
  - intros err Hd He. exact (eval_raises_only_on_division _ _ _ err Hd He).
  - intros v Hv. unfold rate_of. apply symbolic_sound. exact Hv.
  - intros E. unfold rate_of. rewrite E, symbolic_p12. reflexivity.
  - intros E. unfold rate_of. rewrite E, symbolic_p14. reflexivity.
  - intros [E|E] H0; rewrite E; [rewrite symbolic_p12|rewrite symbolic_p14];
      exists Sym.X_PHA, Sym.X_PAO; (split; [|exact H0]);
      [unfold p12_symbolic|unfold p14_symbolic]; cbv zeta; find_subterm.
Qed.

End RateOfFacts.

Lemma rate_zero_or_domain_error_witness :
  eval (concentration example_cmps anoxic_concs)
       (parameter_value (parameter_table example_kinetics))
       (monod Sym.S_O2 Sym.k_O2) = Ok 0 /\
  rate_of example_kinetics phosphate_free_concs example_storage = Ok 0 /\
  rate_of example_kinetics starved_concs example_storage = Err NumericDomainError /\
  rate_of example_kinetics aerobic_concs example_storage
    = eval (concentration example_cmps aerobic_concs)
           (parameter_value (parameter_table example_kinetics)) p12_rate.
Proof.
  split; [|split; [|split]].
  - apply (proj1 (@rate_zero_or_domain_error QcK example_kinetics anoxic_concs
                    example_storage) Sym.S_O2 Sym.k_O2 (Q2Qc (1 # 2))); reflexivity.
  - destruct (rate_of example_kinetics phosphate_free_concs example_storage) as [v|e] eqn:E.
    + f_equal.
      apply (proj1 (proj2 (@rate_zero_or_domain_error QcK example_kinetics
                             phosphate_free_concs example_storage)) v); [|exact E].
      change (p_rate example_storage) with p12_rate. rewrite symbolic_p12.
      unfold p12_symbolic. cbv zeta.
      do 6 apply zf_div. do 6 apply zf_mul_l. apply zf_mul_r. apply zf_here. reflexivity.
    + exfalso.
      assert (H : is_ok (rate_of example_kinetics phosphate_free_concs example_storage) = true)
        by (vm_compute; reflexivity).
      rewrite E in H. discriminate H.
  - destruct (rate_of example_kinetics starved_concs example_storage) as [v|e] eqn:E.
    + exfalso.
      assert (H : is_ok (rate_of example_kinetics starved_concs example_storage) = false)
        by (vm_compute; reflexivity).
      rewrite E in H. discriminate H.
    + f_equal.
      apply (proj1 (proj2 (proj2 (@rate_zero_or_domain_error QcK example_kinetics
                                    starved_concs example_storage))) e); [|exact E].
      change (p_rate example_storage) with p12_rate. rewrite symbolic_p12.
      unfold p12_symbolic. cbv zeta. simpl.
      repeat split; eexists; reflexivity.
  - destruct (eval (concentration example_cmps aerobic_concs)
                (parameter_value (parameter_table example_kinetics)) p12_rate)
      as [v|e] eqn:E.
    + apply (proj1 (proj2 (proj2 (proj2 (@rate_zero_or_domain_error QcK example_kinetics
                                           aerobic_concs example_storage)))) v).
      exact E.
    + exfalso.
      assert (H : is_ok (eval (concentration example_cmps aerobic_concs)
                           (parameter_value (parameter_table example_kinetics)) p12_rate)
                  = true) by (vm_compute; reflexivity).
      rewrite E in H. discriminate H.
Defined.

(** C3 as stated fails: on the collection [CANDO3.__new__] returns, with
    [S_O2 = 0] and the half-saturation constant [k_O2 = 1/2 > 0], the
    Monod term of [S_O2] is 0, yet rate evaluation returns 4/243 for
    [_p12] and 8/243 for [_p14], not 0. *)
Lemma rate_not_zero_at_zero_oxygen :
  (do cp <- snd (@CANDO3_new QcK example_files example_cmps example_kw 1 None []);
   eval (concentration (c_components cp) anoxic_concs)
        (parameter_value (parameter_table cp)) (monod Sym.S_O2 Sym.k_O2)) = Ok 0 /\
  example_rates anoxic_concs = Ok [Q2Qc (1 # 2); Q2Qc (4 # 243); Q2Qc (8 # 243)] /\
  Q2Qc (4 # 243) <> 0 /\ Q2Qc (8 # 243) <> 0.
Proof.
  split; [|split; [|split]].
  - vm_compute. first [reflexivity | f_equal; apply Qc_is_canon; reflexivity].
  - vm_compute. repeat (f_equal; try (apply Qc_is_canon; reflexivity)).
  - discriminate.
  - discriminate.
Qed.

(** ** ElectroChemCell *)

Section SplitLoop.
Variable mixture : WasteStream.

Lemma split_loop_left (items : list (string * Qc)) :
  forall (t l : WasteStream) (c : string),
    imass (snd (fold_left (split_off mixture) items (t, l))) c =
    imass l c - imass mixture c * ratio_sum c items.
Proof.
  induction items as [|[k r] rest IH]; intros t l c; simpl.
  - ring.
  - rewrite IH. simpl. destruct (String.eqb_spec c k) as [E|E].
    + subst k. rewrite String.eqb_refl. ring.
    + destruct (String.eqb_spec k c) as [E'|E']; [congruence|]. ring.
Qed.

Lemma split_loop_target_absent (items : list (string * Qc)) :
  forall (t l : WasteStream) (c : string),
    ~ In c (map fst items) ->
    imass (fst (fold_left (split_off mixture) items (t, l))) c = imass t c.
Proof.
  induction items as [|[k r] rest IH]; intros t l c Hn; simpl.
  - reflexivity.
  - rewrite IH by (intros H; apply Hn; right; exact H). simpl.
    destruct (String.eqb_spec c k) as [E|E]; [|reflexivity].
    exfalso. apply Hn. left. symmetry. exact E.
Qed.

Lemma split_loop_target (items : list (string * Qc)) :
  forall (t l : WasteStream) (c : string) (r : Qc),
    NoDup (map fst items) -> In (c, r) items ->
    imass (fst (fold_left (split_off mixture) items (t, l))) c = imass mixture c * r.
Proof.
  induction items as [|[k r0] rest IH]; intros t l c r Hnd Hin; simpl in *.
  - contradiction.
  - inversion Hnd as [|x xs Hnotin Hnd']; subst.
    destruct Hin as [E|Hin].
    + injection E as -> ->. rewrite split_loop_target_absent by exact Hnotin.
      simpl. rewrite String.eqb_refl. reflexivity.
    + apply IH; assumption.
Qed.

Lemma ratio_sum_absent (c : string) (items : list (string * Qc)) :
  ~ In c (map fst items) -> ratio_sum c items = 0.
Proof.
  induction items as [|[k r] rest IH]; simpl; intros Hn; [reflexivity|].
  destruct (String.eqb_spec k c) as [E|E].
  - exfalso. apply Hn. left. exact E.
  - apply IH. intros H. apply Hn. right. exact H.
Qed.

Lemma ratio_sum_present (c : string) (r : Qc) (items : list (string * Qc)) :
  NoDup (map fst items) -> In (c, r) items -> ratio_sum c items = r.
Proof.
  induction items as [|[k r0] rest IH]; simpl; intros Hnd Hin; [contradiction|].
  inversion Hnd as [|x xs Hnotin Hnd']; subst.
  destruct Hin as [E|Hin].
  - injection E as -> ->. rewrite String.eqb_refl.
    rewrite ratio_sum_absent by exact Hnotin. ring.
  - destruct (String.eqb_spec k c) as [E|E].
    + exfalso. subst k. apply Hnotin. apply (in_map fst) in Hin. exact Hin.
    + apply IH; assumption.
Qed.

(** From an empty target, the loop leaves in it the mixture's flow times
    the mapping's ratio. *)
Lemma split_loop_target_sum (items : list (string * Qc)) (t l : WasteStream) (c : string) :
  NoDup (map fst items) -> carries_nothing t ->
  imass (fst (fold_left (split_off mixture) items (t, l))) c =
  imass mixture c * ratio_sum c items.
Proof.
  intros Hnd Ht. destruct (in_dec string_dec c (map fst items)) as [Hin|Hn].
  - apply in_map_iff in Hin. destruct Hin as [[k r] [Hk Hin]]. simpl in Hk. subst k.
    rewrite (split_loop_target items t l c r Hnd Hin).
    rewrite (ratio_sum_present c r items Hnd Hin). reflexivity.
  - rewrite split_loop_target_absent by exact Hn.
    rewrite ratio_sum_absent by exact Hn. rewrite Ht. ring.
Qed.

End SplitLoop.

Lemma mix_two (influent cleaner : WasteStream) (c : string) :
  imass (mix_from empty_stream [influent; cleaner]) c = mixed_mass influent cleaner c.
Proof. unfold mixed_mass. simpl. ring. Qed.

(** The flows of the three outlets of [ElectroChemCell._run]. *)
Lemma ECC_run_flows (recovery removal : list (string * Qc))
  (influent cleaner : WasteStream) (outs : ECC_outs) (c : string) :
  let mixture := mix_from empty_stream [influent; cleaner] in
  imass (recovered (ECC_run recovery removal influent cleaner outs)) c =
    imass (fst (fold_left (split_off mixture) recovery (recovered outs, mixture))) c /\
  imass (removed (ECC_run recovery removal influent cleaner outs)) c =
    imass (fst (fold_left (split_off mixture) removal
                  (removed outs,
                   snd (fold_left (split_off mixture) recovery (recovered outs, mixture))))) c /\
  imass (left (ECC_run recovery removal influent cleaner outs)) c =
    mixed_mass influent cleaner c
    - mixed_mass influent cleaner c * ratio_sum c recovery
    - mixed_mass influent cleaner c * ratio_sum c removal.
Proof.
  intros mixture. unfold ECC_run, copy_like. fold mixture.
  destruct (fold_left (split_off mixture) recovery (recovered outs, mixture))
    as [rec1 left1] eqn:E1.
  destruct (fold_left (split_off mixture) removal (removed outs, left1))
    as [rem2 left2] eqn:E2.
  simpl. split; [reflexivity|]. split; [rewrite E2; reflexivity|].
  assert (H2 : left2 = snd (fold_left (split_off mixture) removal (removed outs, left1)))
    by (rewrite E2; reflexivity).
  assert (H1 : left1 = snd (fold_left (split_off mixture) recovery (recovered outs, mixture)))
    by (rewrite E1; reflexivity).
  rewrite H2, split_loop_left, H1, split_loop_left.
  unfold mixture. rewrite mix_two. reflexivity.
Qed.

(** C9.  For a component held by both mappings (Python dicts: unique
    keys), [left] gets the mixed inlet mass times
    [1 - recovery[c] - removal[c]], [recovered] the mixed mass times
    [recovery[c]] and [removed] the mixed mass times [removal[c]]; a
    component in neither mapping passes to [left] unchanged.  Nothing
    checks the ratios: when they add up to more than 1 and the component
    is present, its mass in [left] is negative. *)
Theorem ECC_run_split (recovery removal : list (string * Qc))
  (influent cleaner : WasteStream) (outs : ECC_outs) (c : string) :
  NoDup (map fst recovery) -> NoDup (map fst removal) ->
  (forall r m, In (c, r) recovery -> In (c, m) removal ->
     imass (left (ECC_run recovery removal influent cleaner outs)) c =
       mixed_mass influent cleaner c * (1 - r - m) /\
     imass (recovered (ECC_run recovery removal influent cleaner outs)) c =
       mixed_mass influent cleaner c * r /\
     imass (removed (ECC_run recovery removal influent cleaner outs)) c =
       mixed_mass influent cleaner c * m /\
     (1 < r + m -> 0 < mixed_mass influent cleaner c ->
      imass (left (ECC_run recovery removal influent cleaner outs)) c < 0)) /\
  (~ In c (map fst recovery) -> ~ In c (map fst removal) ->
     imass (left (ECC_run recovery removal influent cleaner outs)) c =
       mixed_mass influent cleaner c).
Proof.
  intros Hnd1 Hnd2.
  destruct (ECC_run_flows recovery removal influent cleaner outs c) as [Hrec [Hrem Hleft]].
  split.
  - intros r m Hr Hm.
    assert (Hl : imass (left (ECC_run recovery removal influent cleaner outs)) c =
                 mixed_mass influent cleaner c * (1 - r - m)).
    { rewrite Hleft, (ratio_sum_present c r recovery Hnd1 Hr),
        (ratio_sum_present c m removal Hnd2 Hm). ring. }
    split; [exact Hl|]. split; [|split].
    + rewrite Hrec, (split_loop_target _ recovery _ _ c r Hnd1 Hr), mix_two. reflexivity.
    + rewrite Hrem, (split_loop_target _ removal _ _ c m Hnd2 Hm), mix_two. reflexivity.
    + intros Hgt Hpos. rewrite Hl.
      assert (Hneg : 1 - r - m < 0).
      { apply Qclt_minus_iff. apply Qclt_minus_iff in Hgt.
        replace (0 + - (1 - r - m)) with (r + m + Qcopp 1) by ring. exact Hgt. }
      pose proof (Qcmult_lt_compat_r _ _ _ Hpos Hneg) as H.
      replace (0 * mixed_mass influent cleaner c) with 0 in H by ring.
      rewrite Qcmult_comm. exact H.
  - intros Hn1 Hn2. rewrite Hleft, (ratio_sum_absent c recovery Hn1),
      (ratio_sum_absent c removal Hn2). ring.
Qed.

Lemma ECC_run_split_witness :
  imass (left (ECC_run [("NH3"%string, Q2Qc (3 # 5))] [("NH3"%string, Q2Qc (3 # 5))]
                 example_influent empty_stream example_ECC_outs)) "NH3" < 0.
Proof.
  assert (Hnd : NoDup (map fst [("NH3"%string, Q2Qc (3 # 5))])).
  { simpl. constructor; [intros H; exact H | constructor]. }
  apply (proj1 (ECC_run_split [("NH3"%string, Q2Qc (3 # 5))] [("NH3"%string, Q2Qc (3 # 5))]
                  example_influent empty_stream example_ECC_outs "NH3" Hnd Hnd)
           (Q2Qc (3 # 5)) (Q2Qc (3 # 5))).
  - left. reflexivity.
  - left. reflexivity.
  - vm_compute. reflexivity.
  - vm_compute. reflexivity.
Defined.

(** ** Unit mass balances *)

Lemma element_mass_balance (chemicals : list string) (content : string -> Qc)
  (a b x y z : WasteStream) :
  (forall c, imass x c + imass y c + imass z c = imass a c + imass b c) ->
  element_mass chemicals content x + element_mass chemicals content y
  + element_mass chemicals content z =
  element_mass chemicals content a + element_mass chemicals content b.
Proof.
  intros H. induction chemicals as [|c cs IH]; simpl.
  - ring.
  - transitivity ((imass x c + imass y c + imass z c) * content c
                  + (element_mass cs content x + element_mass cs content y
                     + element_mass cs content z)); [ring|].
    rewrite H, IH. ring.
Qed.

(** [ElectroChemCell._run] conserves the mass of every component when the
    product outlets start empty. *)
Lemma ECC_run_component_balance (recovery removal : list (string * Qc))
  (influent cleaner : WasteStream) (outs : ECC_outs) (c : string) :
  NoDup (map fst recovery) -> NoDup (map fst removal) ->
  carries_nothing (recovered outs) -> carries_nothing (removed outs) ->
  imass (recovered (ECC_run recovery removal influent cleaner outs)) c
  + imass (removed (ECC_run recovery removal influent cleaner outs)) c
  + imass (left (ECC_run recovery removal influent cleaner outs)) c =
  imass influent c + imass cleaner c.
Proof.
  intros Hnd1 Hnd2 He1 He2.
  destruct (ECC_run_flows recovery removal influent cleaner outs c) as [Hrec [Hrem Hleft]].
  rewrite Hrec, Hrem, Hleft.
  rewrite (split_loop_target_sum _ recovery _ _ c Hnd1 He1).
  rewrite (split_loop_target_sum _ removal _ _ c Hnd2 He2).
  rewrite mix_two. unfold mixed_mass. ring.
Qed.

Section ABRFacts.
Context {P : StreamProps}.

Lemma ABR_run_inv (self : AnaerobicBaffledReactor) (waste : WasteStream) (outs o : ABR_outs) :
  ABR_run self waste outs = Ok o ->
  exists C, _COD waste = Some C /\
    _COD (treated o) = Some (C * (1 - COD_removal self)) /\
    (forall c, imass (treated o) c =
       if String.eqb c "NonNH3" then
         imass waste "NonNH3"
         - snd (allocate_N_removal (TN waste / num 1000 * F_vol waste * N_removal self)
                  (imass waste "NH3"))
       else if String.eqb c "NH3" then
         imass waste "NH3"
         - fst (allocate_N_removal (TN waste / num 1000 * F_vol waste * N_removal self)
                  (imass waste "NH3"))
       else if existsb (String.eqb c) (degraded_components self)
       then imass waste c * (1 - COD_removal self)
       else imass waste c) /\
    imass (CH4_outlet self o) "CH4" =
      COD_deg self waste * MCF_decay self * max_CH4_emission self.
Proof.
  unfold ABR_run, copy_like. destruct (_COD waste) as [C|] eqn:EC; [|discriminate].
  intros H. injection H as H. subst o. exists C. split; [reflexivity|].
  split; [reflexivity|]. split.
  - intros c. simpl. reflexivity.
  - unfold CH4_outlet, COD_deg. simpl. destruct (if_capture_biogas self); reflexivity.
Qed.

Lemma ABR_run_gas (self : AnaerobicBaffledReactor) (waste : WasteStream) (outs o : ABR_outs) :
  ABR_run self waste outs = Ok o ->
  biogas o = (if if_capture_biogas self
              then set_imass (set_phase (biogas outs) "g") "CH4"
                     (COD_deg self waste * MCF_decay self * max_CH4_emission self)
              else empty (set_phase (biogas outs) "g")) /\
  CH4 o = (if if_capture_biogas self
           then empty (set_phase (CH4 outs) "g")
           else set_imass (set_phase (CH4 outs) "g") "CH4"
                  (COD_deg self waste * MCF_decay self * max_CH4_emission self)) /\
  N2O o = (if if_N2O_emission self
           then set_imass (set_phase (N2O outs) "g") "N2O"
                  (TN waste / num 1000 * F_vol waste * N_removal self
                   * N_max_decay self * N2O_EF_decay self * num 44 / num 28)
           else empty (set_phase (N2O outs) "g")).
Proof.
  unfold ABR_run, copy_like. destruct (_COD waste) as [C|] eqn:EC; [|discriminate].
  intros H. injection H as H. subst o. simpl. unfold COD_deg. repeat split.
Qed.

Lemma ABR_run_ok (self : AnaerobicBaffledReactor) (waste : WasteStream) (outs : ABR_outs) (C : Qc) :
  _COD waste = Some C -> exists o, ABR_run self waste outs = Ok o.
Proof.
  intros H. unfold ABR_run, copy_like. rewrite H. eexists. reflexivity.
Qed.

(** C8, as amended.  With the inlet's COD stored as [C], the treated
    outlet's stored COD is [C * (1 - COD_removal)] and the degraded
    components are scaled by the same factor.  Of the degraded COD mass
    [COD_deg = C * F_vol / 1e3 * COD_removal] (for [C <> 0]) the biogas
    outlet, or the fugitive CH4 outlet when biogas is not captured, is
    given the CH4 mass [COD_deg * MCF_decay * max_CH4_emission], and no
    outlet is given the rest: the run writes nothing else to that outlet,
    empties the other methane outlet, writes at most N2O to the N2O
    outlet, and gives the treated outlet no more of any component than
    the inlet carries of it, less the nitrogen removed. *)
Theorem ABR_run_COD (self : AnaerobicBaffledReactor) (waste : WasteStream)
  (outs : ABR_outs) (C : Qc) :
  _COD waste = Some C ->
  exists o, ABR_run self waste outs = Ok o /\
    _COD (treated o) = Some (C * (1 - COD_removal self)) /\
    (forall c, existsb (String.eqb c) (degraded_components self) = true ->
       c <> "NH3"%string -> c <> "NonNH3"%string ->
       imass (treated o) c = imass waste c * (1 - COD_removal self)) /\
    imass (CH4_outlet self o) "CH4" =
      COD_deg self waste * MCF_decay self * max_CH4_emission self /\
    (C <> 0 -> COD_deg self waste = C * F_vol waste / num 1000 * COD_removal self) /\
    (forall c, c <> "CH4"%string ->
       imass (CH4_outlet self o) c = imass (CH4_outlet self outs) c) /\
    carries_nothing (if if_capture_biogas self then CH4 o else biogas o) /\
    (forall c, c <> "N2O"%string ->
       imass (N2O o) c = if if_N2O_emission self then imass (N2O outs) c else 0) /\
    (forall c, existsb (String.eqb c) (degraded_components self) = false ->
       c <> "NH3"%string -> c <> "NonNH3"%string ->
       imass (treated o) c = imass waste c) /\
    imass (treated o) "NH3" + imass (treated o) "NonNH3" =
      imass waste "NH3" + imass waste "NonNH3"
      - (fst (allocate_N_removal (TN waste / num 1000 * F_vol waste * N_removal self)
                (imass waste "NH3"))
         + snd (allocate_N_removal (TN waste / num 1000 * F_vol waste * N_removal self)
                  (imass waste "NH3"))).
Proof.
  intros HC. destruct (ABR_run_ok self waste outs C HC) as [o Ho].
  exists o. split; [exact Ho|].
  destruct (ABR_run_inv self waste outs o Ho) as [C' [HC' [Ht [Hi Hg]]]].
  destruct (ABR_run_gas self waste outs o Ho) as [Hb [Hc Hn]].
  rewrite HC in HC'. injection HC' as <-.
  split; [exact Ht|]. split; [|split; [exact Hg|split; [|split; [|split; [|split; [|split]]]]]].
  - intros c Hd H1 H2. rewrite Hi.
    destruct (String.eqb_spec c "NonNH3"); [contradiction|].
    destruct (String.eqb_spec c "NH3"); [contradiction|].
    rewrite Hd. reflexivity.
  - intros Hne. unfold COD_deg, COD_or. rewrite HC.
    rewrite (Qc_eq_bool_false _ _ Hne). reflexivity.
  - intros c Hne. unfold CH4_outlet. rewrite Hb, Hc.
    destruct (if_capture_biogas self); simpl;
      (destruct (String.eqb_spec c "CH4"); [contradiction|reflexivity]).
  - intros c. rewrite Hb, Hc. destruct (if_capture_biogas self); reflexivity.
  - intros c Hne. rewrite Hn. destruct (if_N2O_emission self); simpl; [|reflexivity].
    destruct (String.eqb_spec c "N2O"); [contradiction|reflexivity].
  - intros c Hd H1 H2. rewrite Hi.
    destruct (String.eqb_spec c "NonNH3"); [contradiction|].
    destruct (String.eqb_spec c "NH3"); [contradiction|].
    rewrite Hd. reflexivity.
  - rewrite !Hi. simpl. ring.
Qed.

(** A component that does not degrade and is neither NH3 nor NonNH3
    passes to the treated outlet unchanged. *)
Lemma ABR_run_passes (self : AnaerobicBaffledReactor) (waste : WasteStream)
  (outs o : ABR_outs) (c : string) :
  ABR_run self waste outs = Ok o ->
  existsb (String.eqb c) (degraded_components self) = false ->
  c <> "NH3"%string -> c <> "NonNH3"%string ->
  imass (treated o) c = imass waste c.
Proof.
  intros Ho Hd H1 H2.
  destruct (ABR_run_inv self waste outs o Ho) as [C [_ [_ [Hi _]]]].
  rewrite Hi.
  destruct (String.eqb_spec c "NonNH3"); [contradiction|].
  destruct (String.eqb_spec c "NH3"); [contradiction|].
  rewrite Hd. reflexivity.
Qed.

End ABRFacts.

(** C5, as amended.  [ElectroChemCell._run] balances every element between
    its two inlets and its three outlets when the mappings have unique
    keys and the recovered and removed outlets start empty.
    [AnaerobicBaffledReactor._run] keeps no such balance: it passes to the
    treated outlet, unchanged, every component that is not degraded and is
    neither NH3 nor NonNH3, scales the degraded components by
    [1 - COD_removal], and sets the CH4 and the N2O it sends out from the
    COD and the total nitrogen of the inlet by the factors of the unit. *)
Theorem unit_element_balance :
  (forall recovery removal influent cleaner outs chemicals content,
     NoDup (map fst recovery) -> NoDup (map fst removal) ->
     carries_nothing (recovered outs) -> carries_nothing (removed outs) ->
     element_total chemicals content (ECC_outlets (ECC_run recovery removal influent cleaner outs))
     = element_total chemicals content [influent; cleaner]) /\
  (forall (P : StreamProps) self waste outs o,
     ABR_run self waste outs = Ok o ->
     (forall c, existsb (String.eqb c) (degraded_components self) = false ->
        c <> "NH3"%string -> c <> "NonNH3"%string ->
        imass (treated o) c = imass waste c) /\
     (forall c, existsb (String.eqb c) (degraded_components self) = true ->
        c <> "NH3"%string -> c <> "NonNH3"%string ->
        imass (treated o) c = imass waste c * (1 - COD_removal self)) /\
     imass (CH4_outlet self o) "CH4" =
       COD_or waste * F_vol waste / num 1000 * COD_removal self
       * MCF_decay self * max_CH4_emission self /\
     carries_nothing (if if_capture_biogas self then CH4 o else biogas o) /\
     (if_N2O_emission self = true ->
        imass (N2O o) "N2O" =
          TN waste / num 1000 * F_vol waste * N_removal self
          * N_max_decay self * N2O_EF_decay self * num 44 / num 28) /\
     (if_N2O_emission self = false -> carries_nothing (N2O o))).
Proof.
  split.
  - intros recovery removal influent cleaner outs chemicals content Hnd1 Hnd2 He1 He2.
    unfold element_total, ECC_outlets. simpl.
    transitivity (element_mass chemicals content influent
                  + element_mass chemicals content cleaner); [|ring].
    rewrite <- (element_mass_balance chemicals content influent cleaner
                  (recovered (ECC_run recovery removal influent cleaner outs))
                  (removed (ECC_run recovery removal influent cleaner outs))
                  (left (ECC_run recovery removal influent cleaner outs))).
    + ring.
    + intros c. apply ECC_run_component_balance; assumption.
  - intros P self waste outs o Ho.
    destruct (ABR_run_inv self waste outs o Ho) as [C [_ [_ [Hi Hg]]]].
    destruct (ABR_run_gas self waste outs o Ho) as [Hb [Hc Hn]].
    split; [|split; [|split; [|split; [|split]]]].
    + intros c. apply (ABR_run_passes self waste outs o c Ho).
    + intros c Hd H1 H2. rewrite Hi.
      destruct (String.eqb_spec c "NonNH3"); [contradiction|].
      destruct (String.eqb_spec c "NH3"); [contradiction|].
      rewrite Hd. reflexivity.
    + rewrite Hg. reflexivity.
    + intros c. rewrite Hb, Hc. destruct (if_capture_biogas self); reflexivity.
    + intros E. rewrite Hn, E. reflexivity.
    + intros E c. rewrite Hn, E. reflexivity.
Qed.

Lemma unit_element_balance_witness :
  (element_total example_chemicals nitrogen_content
     (ECC_outlets (ECC_run [("NH3"%string, Q2Qc (3 # 5))] [("NH3"%string, Q2Qc (1 # 5))]
                     example_influent empty_stream example_ECC_outs))
   = element_total example_chemicals nitrogen_content [example_influent; empty_stream] /\
   element_total example_chemicals nitrogen_content [example_influent; empty_stream]
   = Q2Qc (14 # 17)) /\
  (exists o, @ABR_run example_props example_ABR_half example_waste example_ABR_outs = Ok o /\
     imass (treated o) "H2O" = num 1000 /\
     imass (treated o) "OtherSS" = num 5 /\
     imass (biogas o) "CH4" = Q2Qc (5 # 8) /\
     carries_nothing (CH4 o) /\ carries_nothing (N2O o)).
Proof.
  split; [split|].
  - apply (proj1 unit_element_balance).
    + simpl. constructor; [intros H; exact H | constructor].
    + simpl. constructor; [intros H; exact H | constructor].
    + intros c. reflexivity.
    + intros c. reflexivity.
  - apply Qc_is_canon. vm_compute. reflexivity.
  - destruct (@ABR_run example_props example_ABR_half example_waste example_ABR_outs)
      as [o|e] eqn:E; [|discriminate E].
    destruct (proj2 unit_element_balance example_props example_ABR_half example_waste
                example_ABR_outs o E) as [Hpass [Hscale [Hgas [Hother [_ Hn]]]]].
    exists o. split; [reflexivity|].
    split; [|split; [|split; [|split]]].
    + rewrite (Hpass "H2O"%string eq_refl); [reflexivity|discriminate|discriminate].
    + rewrite (Hscale "OtherSS"%string eq_refl); [|discriminate|discriminate].
      apply Qc_is_canon. vm_compute. reflexivity.
    + change (imass (biogas o) "CH4") with (imass (CH4_outlet example_ABR_half o) "CH4").
      rewrite Hgas. apply Qc_is_canon. vm_compute. reflexivity.
    + exact Hother.
    + apply Hn. reflexivity.
Defined.

(** C5 as stated fails for [AnaerobicBaffledReactor._run]: 5 kg/hr of
    carbon enter with the waste and 95/32 kg/hr leave over the four
    outlets together, the biogas included. *)
Lemma ABR_run_loses_carbon :
  element_total example_chemicals carbon_content [example_waste] = num 5 /\
  (do o <- @ABR_run example_props example_ABR_half example_waste example_ABR_outs;
   Ok (element_total example_chemicals carbon_content (ABR_outlets o)))
  = Ok (Q2Qc (95 # 32)).
Proof.
  split.
  - apply Qc_is_canon. vm_compute. reflexivity.
  - vm_compute. f_equal. apply Qc_is_canon. reflexivity.
Qed.

Lemma ABR_run_COD_witness :
  exists o, @ABR_run example_props example_ABR_half example_waste example_ABR_outs = Ok o /\
            _COD (treated o) = Some (num 500) /\
            imass (treated o) "OtherSS" = num 5 /\
            imass (biogas o) "CH4" = Q2Qc (5 # 8) /\
            @COD_deg example_props example_ABR_half example_waste = num 5 /\
            (forall c, c <> "CH4"%string -> imass (biogas o) c = 0) /\
            carries_nothing (CH4 o) /\ carries_nothing (N2O o).
Proof.
  destruct (@ABR_run_COD example_props example_ABR_half example_waste example_ABR_outs
              (num 1000) eq_refl)
    as [o [Ho [Hc [Hs [Hg [Hd [Hf [He [Hn _]]]]]]]]].
  exists o. split; [exact Ho|].
  assert (Hnz : num 1000 <> 0).
  { intros H. apply (f_equal (fun q => Qnum (this q))) in H. vm_compute in H. discriminate H. }
  split; [|split; [|split; [|split; [|split; [|split]]]]].
  - rewrite Hc. f_equal. apply Qc_is_canon. vm_compute. reflexivity.
  - rewrite (Hs "OtherSS"%string eq_refl); [|discriminate|discriminate].
    apply Qc_is_canon. vm_compute. reflexivity.
  - change (imass (biogas o) "CH4") with (imass (CH4_outlet example_ABR_half o) "CH4").
    rewrite Hg, (Hd Hnz). apply Qc_is_canon. vm_compute. reflexivity.
  - rewrite (Hd Hnz). apply Qc_is_canon. vm_compute. reflexivity.
  - intros c Hne. exact (Hf c Hne).
  - exact He.
  - intros c. destruct (String.eqb_spec c "N2O") as [->|Hne].
    + pose proof (ABR_run_gas example_ABR_half example_waste example_ABR_outs o Ho)
        as [_ [_ HN]].
      rewrite HN. reflexivity.
    + exact (Hn c Hne).
Defined.

(** C8 as stated fails: the treated outlet's COD is 500 g/m3, but of the
    5 kg/hr of degraded COD the gas outlets receive 5/8 kg/hr of CH4
    ([MCF_decay * max_CH4_emission] of it) and no other outlet receives
    the rest; and on an inlet with no COD stored the run raises. *)
Lemma ABR_run_routes_fraction :
  (do o <- @ABR_run example_props example_ABR_half example_waste example_ABR_outs;
   Ok (_COD (treated o), imass (biogas o) "CH4" + imass (CH4 o) "CH4"))
  = Ok (Some (num 500), Q2Qc (5 # 8)) /\
  @COD_deg example_props example_ABR_half example_waste = num 5 /\
  is_ok (@ABR_run example_props example_ABR_half example_waste_unset example_ABR_outs) = false.
Proof.
  split; [|split].
  - vm_compute. do 3 f_equal; apply Qc_is_canon; reflexivity.
  - apply Qc_is_canon. vm_compute. reflexivity.
  - reflexivity.
Qed.

(** ** AnaerobicBaffledReactor: gas outlets and nitrogen *)

Lemma Qc_eq_bool_refl (x : Qc) : Qc_eq_bool x x = true.
Proof. apply Qc_eq_bool_true. reflexivity. Qed.

Lemma Qc_eq_bool_nonzero (y : Qc) : Qc_eq_bool y 0 = false -> y <> 0.
Proof.
  intros E H. subst y. rewrite Qc_eq_bool_refl in E. discriminate.
Qed.

Section ABRMore.
Context {P : StreamProps}.

(** X2.  Of the biogas outlet and the fugitive CH4 outlet, the one that
    does not receive the produced CH4 is emptied; the one that receives it
    keeps whatever it held of every other component.  The N2O outlet is
    emptied unless N2O emission is considered, and then only its N2O is
    written.  All three gas outlets end in phase [g]. *)
Theorem ABR_run_gas_outlets (self : AnaerobicBaffledReactor) (waste : WasteStream)
  (outs o : ABR_outs) :
  ABR_run self waste outs = Ok o ->
  (if_capture_biogas self = true ->
     carries_nothing (CH4 o) /\
     forall c, c <> "CH4"%string -> imass (biogas o) c = imass (biogas outs) c) /\
  (if_capture_biogas self = false ->
     carries_nothing (biogas o) /\
     forall c, c <> "CH4"%string -> imass (CH4 o) c = imass (CH4 outs) c) /\
  (if_N2O_emission self = false -> carries_nothing (N2O o)) /\
  (if_N2O_emission self = true ->
     forall c, c <> "N2O"%string -> imass (N2O o) c = imass (N2O outs) c) /\
  phase (biogas o) = "g"%string /\ phase (CH4 o) = "g"%string /\ phase (N2O o) = "g"%string.
Proof.
  intros Ho. destruct (ABR_run_gas self waste outs o Ho) as [Hb [Hc Hn]].
  rewrite Hb, Hc, Hn.
  assert (Hset : forall s k v c, c <> k -> imass (set_imass s k v) c = imass s c).
  { intros s k v c Hne. simpl. destruct (String.eqb_spec c k); [contradiction|reflexivity]. }
  split; [|split; [|split; [|split; [|split; [|split]]]]].
  - intros H. rewrite H. split; [intros c; reflexivity|].
    intros c Hne. rewrite Hset by exact Hne. reflexivity.
  - intros H. rewrite H. split; [intros c; reflexivity|].
    intros c Hne. rewrite Hset by exact Hne. reflexivity.
  - intros H. rewrite H. intros c. reflexivity.
  - intros H. rewrite H. intros c Hne. rewrite Hset by exact Hne. reflexivity.
  - destruct (if_capture_biogas self); reflexivity.
  - destruct (if_capture_biogas self); reflexivity.
  - destruct (if_N2O_emission self); reflexivity.
Qed.

(** X3.  When [allocate_N_removal] splits the loss it is given, NH3 and
    NonNH3 of the treated outlet together are the inlet's less
    [TN/1e3 * F_vol * N_removal], whether or not N2O emission is considered
    and whether or not NH3 or NonNH3 are listed as degraded components (the
    two assignments come after the scaling and override it). *)
Theorem ABR_run_nitrogen (self : AnaerobicBaffledReactor) (waste : WasteStream)
  (outs o : ABR_outs) :
  ABR_run self waste outs = Ok o ->
  fst (allocate_N_removal (TN waste / num 1000 * F_vol waste * N_removal self) (imass waste "NH3"))
  + snd (allocate_N_removal (TN waste / num 1000 * F_vol waste * N_removal self) (imass waste "NH3"))
  = TN waste / num 1000 * F_vol waste * N_removal self ->
  imass (treated o) "NH3" + imass (treated o) "NonNH3"
  = imass waste "NH3" + imass waste "NonNH3"
    - TN waste / num 1000 * F_vol waste * N_removal self.
Proof.
  intros Ho Hsplit.
  destruct (ABR_run_inv self waste outs o Ho) as [C [_ [_ [Hi _]]]].
  rewrite !Hi. simpl. rewrite <- Hsplit at 3. ring.
Qed.

(** X4.  A reactor that removes all COD stores [_COD = 0] on its treated
    outlet; zero is falsy, so a second reactor fed by that outlet does not
    raise and computes its degraded COD, and the CH4 it writes, from the
    composite [COD] of the stream instead of the stored zero. *)
Theorem ABR_series_reads_composite_COD (first second : AnaerobicBaffledReactor)
  (waste : WasteStream) (outs outs2 o : ABR_outs) :
  ABR_run first waste outs = Ok o ->
  COD_removal first = 1 ->
  _COD (treated o) = Some 0 /\
  exists o2, ABR_run second (treated o) outs2 = Ok o2 /\
    imass (CH4_outlet second o2) "CH4" =
      COD (treated o) * F_vol (treated o) / num 1000 * COD_removal second
      * MCF_decay second * max_CH4_emission second.
Proof.
  intros Ho Hr.
  destruct (ABR_run_inv first waste outs o Ho) as [C [_ [Ht _]]].
  assert (H0 : _COD (treated o) = Some 0).
  { rewrite Ht, Hr. f_equal. ring. }
  split; [exact H0|].
  destruct (ABR_run_ok second (treated o) outs2 0 H0) as [o2 Ho2].
  exists o2. split; [exact Ho2|].
  destruct (ABR_run_inv second (treated o) outs2 o2 Ho2) as [C' [_ [_ [_ Hg]]]].
  rewrite Hg. unfold COD_deg, COD_or. rewrite H0, Qc_eq_bool_refl. reflexivity.
Qed.

End ABRMore.

(** ** AnaerobicDigestion *)

Section ADFacts.
Context {P : StreamProps} {D : Decay}.

Lemma AD_run_inv (self : AD.AnaerobicDigestion) (waste : WasteStream) (outs o : ABR_outs) :
  AD._run self waste outs = Ok o ->
  exists C, _COD waste = Some C /\
    _COD (treated o) = Some (C * (1 - AD.COD_removal self)) /\
    biogas o = (if AD.if_capture_biogas self
                then set_imass (set_phase (biogas outs) "g") "CH4"
                       (COD_or waste * F_vol waste / num 1000 * AD.COD_removal self
                        * AD.MCF_decay self * AD.max_CH4_emission self)
                else empty (set_phase (biogas outs) "g")) /\
    CH4 o = (if AD.if_capture_biogas self
             then empty (set_phase (CH4 outs) "g")
             else set_imass (set_phase (CH4 outs) "g") "CH4"
                    (COD_or waste * F_vol waste / num 1000 * AD.COD_removal self
                     * AD.MCF_decay self * AD.max_CH4_emission self)) /\
    (forall c, imass (treated o) c =
       if AD.if_N2O_emission self then
         let N_loss_tot :=
           first_order_decay (AD.decay_k_N self) (AD.tau self / num 365) (AD.N_max_decay self)
           * TN waste / num 1000 * F_vol waste in
         if String.eqb c "NonNH3" then
           imass waste "NonNH3" - snd (allocate_N_removal N_loss_tot (imass waste "NH3"))
         else if String.eqb c "NH3" then
           imass waste "NH3" - fst (allocate_N_removal N_loss_tot (imass waste "NH3"))
         else if existsb (String.eqb c) (AD.degraded_components self)
         then imass waste c * (1 - AD.COD_removal self)
         else imass waste c
       else if existsb (String.eqb c) (AD.degraded_components self)
       then imass waste c * (1 - AD.COD_removal self)
       else imass waste c) /\
    (forall c, imass (N2O o) c =
       if AD.if_N2O_emission self then
         if String.eqb c "N2O" then
           first_order_decay (AD.decay_k_N self) (AD.tau self / num 365) (AD.N_max_decay self)
           * TN waste / num 1000 * F_vol waste * AD.N2O_EF_decay self * num 44 / num 28
         else imass (N2O outs) c
       else 0).
Proof.
  unfold AD._run, copy_like. destruct (_COD waste) as [C|] eqn:EC; [|discriminate].
  intros H. exists C. split; [reflexivity|].
  destruct (AD.if_N2O_emission self); injection H as H; subst o; simpl;
    repeat split.
Qed.

Lemma AD_run_ok (self : AD.AnaerobicDigestion) (waste : WasteStream) (outs : ABR_outs) (C : Qc) :
  _COD waste = Some C -> exists o, AD._run self waste outs = Ok o.
Proof.
  intros H. unfold AD._run, copy_like. rewrite H.
  destruct (AD.if_N2O_emission self); eexists; reflexivity.
Qed.

(** X5.  On the same inlet and outlets, [AnaerobicDigestion._run] and
    [AnaerobicBaffledReactor._run] with the same degraded components,
    capture switch, COD removal and methane factors succeed or raise
    together, and leave the same biogas and CH4 outlets, the same stored
    COD and the same treated flows of every component but NH3 and
    NonNH3. *)
Theorem AD_run_agrees_with_ABR (ad : AD.AnaerobicDigestion) (abr : AnaerobicBaffledReactor)
  (waste : WasteStream) (outs : ABR_outs) :
  AD.degraded_components ad = degraded_components abr ->
  AD.if_capture_biogas ad = if_capture_biogas abr ->
  AD.COD_removal ad = COD_removal abr ->
  AD.MCF_decay ad = MCF_decay abr ->
  AD.max_CH4_emission ad = max_CH4_emission abr ->
  is_ok (AD._run ad waste outs) = is_ok (ABR_run abr waste outs) /\
  forall o o', AD._run ad waste outs = Ok o -> ABR_run abr waste outs = Ok o' ->
    biogas o = biogas o' /\ CH4 o = CH4 o' /\ _COD (treated o) = _COD (treated o') /\
    forall c, c <> "NH3"%string -> c <> "NonNH3"%string ->
      imass (treated o) c = imass (treated o') c.
Proof.
  intros Hd Hc Hr Hm Hx. split.
  - unfold AD._run, ABR_run, copy_like. destruct (_COD waste); [|reflexivity].
    destruct (AD.if_N2O_emission ad); reflexivity.
  - intros o o' Ho Ho'.
    destruct (AD_run_inv ad waste outs o Ho) as [C [HC [Ht [Hb [Hg [Hi _]]]]]].
    destruct (ABR_run_inv abr waste outs o' Ho') as [C' [HC' [Ht' [Hi' _]]]].
    destruct (ABR_run_gas abr waste outs o' Ho') as [Hb' [Hg' _]].
    rewrite HC in HC'. injection HC' as <-.
    rewrite Hb, Hg, Hb', Hg', Ht, Ht'. unfold COD_deg.
    rewrite Hc, Hr, Hm, Hx. repeat split.
    intros c H1 H2. rewrite Hi, Hi'. rewrite Hd, Hr.
    destruct (String.eqb_spec c "NonNH3"); [contradiction|].
    destruct (String.eqb_spec c "NH3"); [contradiction|].
    destruct (AD.if_N2O_emission ad); reflexivity.
Qed.

(** X6.  [AnaerobicDigestion._run] touches nitrogen only when N2O emission
    is considered.  Without it the N2O outlet is emptied and every
    component that is not degraded, NH3 and NonNH3 included, passes
    unchanged.  With it, when [allocate_N_removal] splits the loss, NH3 and
    NonNH3 together drop by [first_order_decay(...) * TN/1e3 * F_vol] and
    the N2O written is that loss times [N2O_EF_decay * 44/28]. *)
Theorem AD_run_nitrogen (self : AD.AnaerobicDigestion) (waste : WasteStream)
  (outs o : ABR_outs) :
  AD._run self waste outs = Ok o ->
  (AD.if_N2O_emission self = false ->
     carries_nothing (N2O o) /\
     forall c, existsb (String.eqb c) (AD.degraded_components self) = false ->
       imass (treated o) c = imass waste c) /\
  (AD.if_N2O_emission self = true ->
     forall N_loss_tot,
       N_loss_tot =
         first_order_decay (AD.decay_k_N self) (AD.tau self / num 365) (AD.N_max_decay self)
         * TN waste / num 1000 * F_vol waste ->
       fst (allocate_N_removal N_loss_tot (imass waste "NH3"))
       + snd (allocate_N_removal N_loss_tot (imass waste "NH3")) = N_loss_tot ->
       imass (treated o) "NH3" + imass (treated o) "NonNH3"
       = imass waste "NH3" + imass waste "NonNH3" - N_loss_tot /\
       imass (N2O o) "N2O" = N_loss_tot * AD.N2O_EF_decay self * num 44 / num 28).
Proof.
  intros Ho. destruct (AD_run_inv self waste outs o Ho) as [C [_ [_ [_ [_ [Hi Hn]]]]]].
  split.
  - intros Hf. split.
    + intros c. rewrite Hn, Hf. reflexivity.
    + intros c Hd. rewrite Hi, Hf, Hd. reflexivity.
  - intros Ht N_loss_tot HN Hsplit. split.
    + rewrite !Hi, Ht. cbv zeta. rewrite <- HN. simpl. rewrite <- Hsplit at 3. ring.
    + rewrite Hn, Ht. simpl. rewrite <- HN. reflexivity.
Qed.

End ADFacts.

Lemma fdiv_some (x y q : Qc) : fdiv x y = Some q -> y <> 0 /\ q = x / y.
Proof.
  unfold fdiv. destruct (Qc_eq_bool y 0) eqn:E; [discriminate|].
  intros H. injection H as <-. split; [|reflexivity].
  intros Hy. subst y. rewrite (proj2 (Qc_eq_bool_true 0 0) eq_refl) in E. discriminate.
Qed.

Lemma fdiv_none (x y : Qc) : fdiv x y = None <-> y = 0.
Proof.
  unfold fdiv. destruct (Qc_eq_bool y 0) eqn:E.
  - apply Qc_eq_bool_true in E. tauto.
  - split; [discriminate|]. intros Hy. subst y.
    rewrite (proj2 (Qc_eq_bool_true 0 0) eq_refl) in E. discriminate.
Qed.

Lemma num_zero (z : Z) : num z = 0 <-> z = 0%Z.
Proof.
  unfold num. split.
  - intros H. apply Q2Qc_eq_iff in H. unfold Qeq in H. simpl in H. lia.
  - intros ->. apply Qc_is_canon. reflexivity.
Qed.

Lemma minus_one_zero (h : Qc) : 1 - h = 0 <-> h = 1.
Proof.
  split; intros H.
  - transitivity (h + (1 - h)); [rewrite H|]; ring.
  - subst h. ring.
Qed.

(** X7.  The single reactor volume of [AnaerobicDigestion._design] has no
    value exactly when the headspace fraction is 1 or the reactor number
    is 1 (one reactor is the backup); otherwise [N - 1] reactors, less their
    headspace, hold the daily flow times the residence time:
    [V * (N - 1) * (1 - headspace_frac) = flow_rate * tau * 24].  The flow
    rate is the stored one when it is set and not zero, and the inlet flow
    times 24 otherwise. *)
Theorem AD_single_reactor_volume (self : AD.AnaerobicDigestion) (F_vol_in : Qc) :
  (AD.single_reactor_volume self F_vol_in = None <->
     AD.headspace_frac self = 1 \/ AD._N_reactor self = 1%Z) /\
  (forall V, AD.single_reactor_volume self F_vol_in = Some V ->
     V * num (AD._N_reactor self - 1) * (1 - AD.headspace_frac self) =
     AD.flow_rate self F_vol_in * AD.tau self * num 24) /\
  (forall q, q <> 0 -> AD.flow_rate (AD.set_flow_rate self (Some q)) F_vol_in = q) /\
  AD.flow_rate (AD.set_flow_rate self (Some 0)) F_vol_in = F_vol_in * num 24 /\
  AD.flow_rate (AD.set_flow_rate self None) F_vol_in = F_vol_in * num 24.
Proof.
  unfold AD.single_reactor_volume. cbv zeta.
  split; [|split; [|split; [|split]]].
  - destruct (fdiv _ (1 - AD.headspace_frac self)) as [x|] eqn:E.
    + apply fdiv_some in E. destruct E as [Hh _].
      rewrite fdiv_none, num_zero. split.
      * intros H. right. lia.
      * intros [H|H]; [|lia]. exfalso. apply Hh. apply minus_one_zero. exact H.
    + apply fdiv_none in E. apply minus_one_zero in E. tauto.
  - intros V. destruct (fdiv _ (1 - AD.headspace_frac self)) as [x|] eqn:E; [|discriminate].
    intros H. apply fdiv_some in E. destruct E as [Hh ->].
    apply fdiv_some in H. destruct H as [Hn ->]. field. split; assumption.
  - intros q Hq. unfold AD.flow_rate, AD.set_flow_rate. cbn [AD._flow_rate].
    rewrite (Qc_eq_bool_false _ _ Hq). reflexivity.
  - unfold AD.flow_rate, AD.set_flow_rate. cbn [AD._flow_rate].
    rewrite (proj2 (Qc_eq_bool_true 0 0) eq_refl). reflexivity.
  - reflexivity.
Qed.
Lemma Qc_le_Q (x y : Qc) : x <= y <-> (this x <= this y)%Q.
Proof. reflexivity. Qed.

Lemma Qc_lt_Q (x y : Qc) : x < y <-> (this x < this y)%Q.
Proof. reflexivity. Qed.

Lemma num_this (z : Z) : (this (num z) == inject_Z z)%Q.
Proof. unfold num. exact (Qred_correct (inject_Z z)). Qed.

(** X8.  The [N_reactor] setter stores the least integer that is not below
    the value it is given; so any value in (0, 1] stores one reactor, for
    which the design has no single reactor volume. *)
Theorem AD_N_reactor_setter (self : AD.AnaerobicDigestion) (i : Qc) (F_vol_in : Qc) :
  i <= num (AD._N_reactor (AD.set_N_reactor self i)) /\
  num (AD._N_reactor (AD.set_N_reactor self i) - 1) < i /\
  (forall m : Z, i <= num m -> (AD._N_reactor (AD.set_N_reactor self i) <= m)%Z) /\
  (0 < i -> i <= 1 -> AD.single_reactor_volume (AD.set_N_reactor self i) F_vol_in = None).
Proof.
  unfold AD.set_N_reactor at 1 2 3, ceil. cbn [AD._N_reactor].
  assert (H1 : i <= num (Qceiling i)).
  { apply Qc_le_Q. rewrite num_this. apply Qle_ceiling. }
  assert (H2 : num (Qceiling i - 1) < i).
  { apply Qc_lt_Q. rewrite num_this. apply Qceiling_lt. }
  assert (H3 : forall m : Z, i <= num m -> (Qceiling i <= m)%Z).
  { intros m Hm.
    assert (Hm' : (this i <= inject_Z m)%Q) by (rewrite <- num_this; exact Hm).
    rewrite <- (Qceiling_Z m). apply Qceiling_resp_le. exact Hm'. }
  split; [exact H1|]. split; [exact H2|]. split; [exact H3|].
  intros Hpos Hle.
  assert (HN : Qceiling i = 1%Z).
  { assert (Ha : (Qceiling i <= 1)%Z).
    { apply H3. replace (num 1) with 1 by (apply Qc_is_canon; reflexivity). exact Hle. }
    assert (Hb : (0 < Qceiling i)%Z).
    { destruct (Z.lt_ge_cases 0 (Qceiling i)) as [Hlt|Hge]; [exact Hlt|].
      exfalso.
      assert (H1' : (this i <= inject_Z (Qceiling i))%Q) by (rewrite <- num_this; exact H1).
      assert (Hpos' : (0 < this i)%Q) by exact Hpos.
      assert (Hc : (inject_Z (Qceiling i) <= 0)%Q).
      { unfold Qle. simpl. lia. }
      apply (Qlt_irrefl 0). eapply Qlt_le_trans; [exact Hpos'|].
      eapply Qle_trans; [exact H1'|exact Hc]. }
    lia. }
  unfold AD.single_reactor_volume, AD.set_N_reactor, ceil. cbv zeta.
  cbn [AD._N_reactor AD.headspace_frac AD.tau]. rewrite HN.
  match goal with
  | |- context [fdiv ?a (1 - ?h)] => destruct (fdiv a (1 - h)) as [x|]; [|reflexivity]
  end.
  apply fdiv_none. apply num_zero. reflexivity.
Qed.

(** ** SludgeDigester *)

(** X11.  The slab thickness read back is never zero when the wall
    thickness and the value set are not negative: a value other than zero
    is read back as set, and zero is read back as the wall thickness plus
    two inches. *)
Theorem t_slab_positive (self : SD.SludgeDigester) (i : Qc) :
  0 <= SD.t_wall self -> 0 <= i ->
  0 < SD.t_slab (SD.set_t_slab self i) /\
  (i <> 0 -> SD.t_slab (SD.set_t_slab self i) = i) /\
  SD.t_slab (SD.set_t_slab self 0) = SD.t_wall self + Q2Qc (2 # 12).
Proof.
  intros Hw Hi. unfold SD.t_slab, SD.set_t_slab, SD.t_wall. cbn [SD._t_slab SD._t_wall].
  split; [|split].
  - destruct (Qc_eq_bool i 0) eqn:E.
    + apply Qclt_le_trans with (0 + Q2Qc (2 # 12)).
      * reflexivity.
      * apply Qcplus_le_compat; [exact Hw|apply Qcle_refl].
    + destruct (Qcle_lt_or_eq _ _ Hi) as [Hlt|Heq]; [exact Hlt|].
      subst i. rewrite (proj2 (Qc_eq_bool_true 0 0) eq_refl) in E. discriminate.
  - intros Hne. rewrite (Qc_eq_bool_false _ _ Hne). reflexivity.
  - rewrite (proj2 (Qc_eq_bool_true 0 0) eq_refl). reflexivity.
Qed.

(** ** The earlier AnaerobicBaffledReactor *)

Section LegacyFacts.
Context {P : StreamProps} {D : Decay}.

(** X12.  On an inlet whose COD is stored and not zero, the reactor of
    [src/qsdsan] set to degrade [OtherSS] and not to capture biogas agrees
    with the earlier reactor of [src/sanitation] on the stored COD, on the
    CH4 written to the CH4 outlet and on every treated flow but NH3 and
    NonNH3; the earlier reactor leaves NH3 and NonNH3 as they are unless
    N2O emission is considered. *)
Theorem Legacy_run_agrees_with_ABR (old : Legacy.AnaerobicBaffledReactor)
  (new : AnaerobicBaffledReactor) (waste : WasteStream)
  (outs : ABR_outs) (outs' : Legacy.outs) (C : Qc) :
  degraded_components new = ["OtherSS"%string] ->
  if_capture_biogas new = false ->
  COD_removal new = Legacy.COD_removal old ->
  MCF_decay new = Legacy.MCF_decay old ->
  max_CH4_emission new = Legacy.max_CH4_emission old ->
  _COD waste = Some C -> C <> 0 ->
  exists o o', ABR_run new waste outs = Ok o /\ Legacy._run old waste outs' = Ok o' /\
    _COD (treated o) = _COD (Legacy.treated o') /\
    imass (CH4 o) "CH4" = imass (Legacy.CH4 o') "CH4" /\
    (forall c, c <> "NH3"%string -> c <> "NonNH3"%string ->
       imass (treated o) c = imass (Legacy.treated o') c) /\
    (Legacy.if_N2O_emission old = false ->
       imass (Legacy.treated o') "NH3" = imass waste "NH3" /\
       imass (Legacy.treated o') "NonNH3" = imass waste "NonNH3").
Proof.
  intros Hd Hc Hr Hm Hx HC Hne.
  unfold ABR_run, Legacy._run, copy_like. rewrite HC, Hd, Hc, Hr, Hm, Hx.
  unfold COD_or. rewrite HC, (Qc_eq_bool_false _ _ Hne).
  destruct (Legacy.if_N2O_emission old) eqn:En; eexists; eexists;
    (split; [reflexivity|]); (split; [reflexivity|]); simpl.
  - split; [reflexivity|]. split; [reflexivity|]. split; [|discriminate].
    intros c H1 H2.
    destruct (String.eqb_spec c "NonNH3"); [contradiction|].
    destruct (String.eqb_spec c "NH3"); [contradiction|]. reflexivity.
  - split; [reflexivity|]. split; [reflexivity|]. split.
    + intros c H1 H2.
      destruct (String.eqb_spec c "NonNH3"); [contradiction|].
      destruct (String.eqb_spec c "NH3"); [contradiction|]. reflexivity.
    + intros _. split; reflexivity.
Qed.

End LegacyFacts.

(** ** ElectroChemCell: reruns, stale outlets and bounds *)

Section SplitLoopMore.
Variable mixture : WasteStream.

Lemma split_loop_target_indep (items : list (string * Qc)) :
  forall (t l t' l' : WasteStream) (c : string),
    In c (map fst items) ->
    imass (fst (fold_left (split_off mixture) items (t, l))) c =
    imass (fst (fold_left (split_off mixture) items (t', l'))) c.
Proof.
  induction items as [|[k r] rest IH]; intros t l t' l' c Hin; simpl in *.
  - contradiction.
  - destruct (in_dec string_dec c (map fst rest)) as [Hr|Hr].
    + apply IH. exact Hr.
    + rewrite !split_loop_target_absent by exact Hr.
      destruct Hin as [E|E]; [|contradiction]. subst k. simpl.
      rewrite String.eqb_refl. reflexivity.
Qed.

End SplitLoopMore.

(** X13.  Running [ElectroChemCell._run] again on the outlets it has just
    written, with the same inlets and mappings, changes no flow of any
    outlet. *)
Theorem ECC_run_rerun (recovery removal : list (string * Qc))
  (influent cleaner : WasteStream) (outs : ECC_outs) (c : string) :
  let once := ECC_run recovery removal influent cleaner outs in
  let twice := ECC_run recovery removal influent cleaner once in
  imass (recovered twice) c = imass (recovered once) c /\
  imass (removed twice) c = imass (removed once) c /\
  imass (left twice) c = imass (left once) c.
Proof.
  intros once twice. unfold twice.
  destruct (ECC_run_flows recovery removal influent cleaner once c) as [H1 [H2 H3]].
  destruct (ECC_run_flows recovery removal influent cleaner outs c) as [G1 [G2 G3]].
  fold once in G1, G2, G3. cbv zeta in *.
  rewrite H1, H2, H3, G3. split; [|split; [|reflexivity]].
  - destruct (in_dec string_dec c (map fst recovery)) as [Hin|Hn].
    + rewrite G1. apply split_loop_target_indep. exact Hin.
    + rewrite split_loop_target_absent by exact Hn. reflexivity.
  - destruct (in_dec string_dec c (map fst removal)) as [Hin|Hn].
    + rewrite G2. apply split_loop_target_indep. exact Hin.
    + rewrite split_loop_target_absent by exact Hn. reflexivity.
Qed.
Lemma existsb_eqb_In (c : string) (l : list string) :
  existsb (String.eqb c) l = true <-> In c l.
Proof.
  rewrite existsb_exists. split.
  - intros [x [Hx E]]. apply String.eqb_eq in E. subst x. exact Hx.
  - intros H. exists c. split; [exact H|apply String.eqb_refl].
Qed.

Lemma split_loop_target_general (mixture : WasteStream) (items : list (string * Qc))
  (t l : WasteStream) (c : string) :
  NoDup (map fst items) ->
  imass (fst (fold_left (split_off mixture) items (t, l))) c =
  imass mixture c * ratio_sum c items
  + (if existsb (String.eqb c) (map fst items) then 0 else imass t c).
Proof.
  intros Hnd. destruct (existsb (String.eqb c) (map fst items)) eqn:E.
  - apply existsb_eqb_In in E. apply in_map_iff in E.
    destruct E as [[k r] [Hk Hin]]. simpl in Hk. subst k.
    rewrite (split_loop_target mixture items t l c r Hnd Hin).
    rewrite (ratio_sum_present c r items Hnd Hin). ring.
  - assert (Hn : ~ In c (map fst items)).
    { intros H. apply existsb_eqb_In in H. congruence. }
    rewrite split_loop_target_absent by exact Hn.
    rewrite ratio_sum_absent by exact Hn. ring.
Qed.

(** X14.  [ElectroChemCell._run] never clears [recovered] or [removed]: a
    component that is not a key of the mapping keeps the flow the outlet
    held before the run, and the three outlets together carry the inlets'
    flow of the component plus exactly these stale amounts. *)
Theorem ECC_run_stale_balance (recovery removal : list (string * Qc))
  (influent cleaner : WasteStream) (outs : ECC_outs) (c : string) :
  NoDup (map fst recovery) -> NoDup (map fst removal) ->
  imass (recovered (ECC_run recovery removal influent cleaner outs)) c
  + imass (removed (ECC_run recovery removal influent cleaner outs)) c
  + imass (left (ECC_run recovery removal influent cleaner outs)) c =
  imass influent c + imass cleaner c
  + (if existsb (String.eqb c) (map fst recovery) then 0 else imass (recovered outs) c)
  + (if existsb (String.eqb c) (map fst removal) then 0 else imass (removed outs) c).
Proof.
  intros Hnd1 Hnd2.
  destruct (ECC_run_flows recovery removal influent cleaner outs c) as [Hrec [Hrem Hleft]].
  rewrite Hrec, Hrem, Hleft.
  rewrite (split_loop_target_general _ recovery _ _ c Hnd1).
  rewrite (split_loop_target_general _ removal _ _ c Hnd2).
  rewrite mix_two. unfold mixed_mass. ring.
Qed.
(** ** The oxygen quotient of the CANDO3 rate equations *)

Ltac eval_cases cv pv H :=
  repeat first
    [ match type of H with
      | context [bind (cv ?s) _] =>
          let E := fresh "E" in
          destruct (cv s) eqn:E; cbn [bind] in H; [|discriminate H]
      end
    | match type of H with
      | context [bind (pv ?s) _] =>
          let E := fresh "E" in
          destruct (pv s) eqn:E; cbn [bind] in H; [|discriminate H]
      end
    | match type of H with
      | context [if Qc_eq_bool ?y 0 then _ else _] =>
          let E := fresh "Z" in
          destruct (Qc_eq_bool y 0) eqn:E; cbn [bind] in H; [discriminate H|]
      end ].
Ltac cleared_divisor :=
  match goal with
  | Hd : ?D <> 0, Hx : ?x <> 0 |- ?E <> 0 =>
      replace E with (D * x) by (field; assumption);
      apply Qc_mult_nonzero; assumption
  end.

(** X16.  Wherever the rate equations of [_p12] and [_p14] evaluate, their
    value is that of the same product with
    [S_O2/(k_O2+S_O2) * ... * k_O2/S_O2] replaced by the oxygen inhibition
    term [k_O2/(k_O2+S_O2)]. *)
Theorem rate_oxygen_inhibition (cv pv : string -> result Qc) (v : Qc) :
  (eval cv pv p12_rate = Ok v -> eval cv pv p12_inhibited = Ok v) /\
  (eval cv pv p14_rate = Ok v -> eval cv pv p14_inhibited = Ok v).
Proof.
  split; intros H.
  - unfold p12_rate in H. unfold p12_inhibited. cbv zeta in *.
    unfold Sym.S_O2, Sym.S_PO4, Sym.S_ALK, Sym.S_NO3, Sym.X_PHA, Sym.X_PAO, Sym.X_PP,
      Sym.q_PP, Sym.k_O2, Sym.k_PS, Sym.k_ALK, Sym.k_PHA, Sym.k_MAX, Sym.k_IPP,
      Sym.k_NO3, Sym.n_NO3 in *.
    cbn [eval bind] in H. eval_cases cv pv H.
    injection H as <-.
    cbn [eval bind].
    repeat match goal with E : _ = Ok _ |- _ => rewrite E; clear E end.
    cbn [bind].
    repeat match goal with
           | Z : Qc_eq_bool ?y 0 = false |- context [if Qc_eq_bool ?y 0 then _ else _] =>
               rewrite Z; cbn [bind]
           end.
    repeat match goal with Z : Qc_eq_bool _ 0 = false |- _ =>
      apply Qc_eq_bool_nonzero in Z end.
    f_equal. field. repeat split; try assumption; cleared_divisor.
  - unfold p14_rate in H. unfold p14_inhibited. cbv zeta in *.
    unfold Sym.S_O2, Sym.S_PO4, Sym.S_ALK, Sym.S_NO3, Sym.S_NH4, Sym.X_PHA, Sym.X_PAO,
      Sym.mu_PAO, Sym.k_O2, Sym.k_NH4, Sym.k_P, Sym.k_ALK, Sym.k_PHA,
      Sym.k_NO3, Sym.n_NO3 in *.
    cbn [eval bind] in H. eval_cases cv pv H.
    injection H as <-.
    cbn [eval bind].
    repeat match goal with E : _ = Ok _ |- _ => rewrite E; clear E end.
    cbn [bind].
    repeat match goal with
           | Z : Qc_eq_bool ?y 0 = false |- context [if Qc_eq_bool ?y 0 then _ else _] =>
               rewrite Z; cbn [bind]
           end.
    repeat match goal with Z : Qc_eq_bool _ 0 = false |- _ =>
      apply Qc_eq_bool_nonzero in Z end.
    f_equal. field. repeat split; try assumption; cleared_divisor.
Qed.

(** ** The parameters the constructors pass *)

Section ConstructorFacts.
Context {C : Coeff} {F : DataFiles}.

Lemma Forall2_parameters (cmps : list Component) (cons : list string)
  (rows : list ReactionTemplate) (ps : list Process) :
  Forall2 (fun t p => Process_new cmps cons t = Ok p) rows ps ->
  flat_map p_parameters ps = flat_map parameters rows.
Proof.
  induction 1 as [|t p rows ps H _ IH]; simpl; [reflexivity|].
  destruct (Process_new_inv _ _ _ _ H) as [_ [sol [_ [_ [_ [_ [_ [Hp _]]]]]]]].
  rewrite Hp, IH. reflexivity.
Qed.

Lemma load_and_compile_table (path : string) (cons params : list string)
  (cmps : list Component) (self : CompiledProcesses) :
  load_and_compile path cons params cmps = Ok self ->
  exists rows, read_tsv path = Some rows /\
    parameter_table self =
      map (fun n => (n, None)) (nodup string_dec (params ++ flat_map parameters rows)).
Proof.
  unfold load_and_compile. intros H.
  destruct (load_from_file path cons params cmps) as [pc|e] eqn:El; simpl in H; [|discriminate].
  destruct (load_from_file_inv _ _ _ _ _ El) as [rows [Hr [_ [Hg HF]]]].
  destruct (compile_inv _ _ H) as [_ [_ [_ [_ Ht]]]].
  exists rows. split; [exact Hr|]. rewrite Ht. unfold merged_parameters.
  rewrite Hg, (Forall2_parameters _ _ _ _ HF). reflexivity.
Qed.

Lemma recognized_table (names : list string) (n : string) :
  recognized (map (fun n => (n, None)) (nodup string_dec names)) n = true <-> In n names.
Proof.
  rewrite recognized_In, map_map. simpl. rewrite map_id. apply nodup_In.
Qed.

Lemma CANDO_call_raises (cmps : list Component) (kw : string -> Qc)
  (path : string) (kwargs : list (string * Qc))
  (rows : list ReactionTemplate) (self : CompiledProcesses) :
  read_tsv path = Some rows ->
  Forall (fun t => ~ In "q_PHA"%string (parameters t)) rows ->
  load_and_compile path ["COD"; "charge"; "N"]%string CANDO_params cmps = Ok self ->
  after_set_parameters (set_parameters (keywords CANDO_call_names kw kwargs) self)
  = Err UnknownParameterError.
Proof.
  intros Hr Hrows El. unfold after_set_parameters.
  destruct (load_and_compile_table _ _ _ _ _ El) as [rows' [Hr' Ht]].
  rewrite Hr in Hr'. injection Hr' as <-.
  assert (Hq : recognized (parameter_table self) "q_PHA" = false).
  { destruct (recognized (parameter_table self) "q_PHA") eqn:E; [|reflexivity].
    exfalso. rewrite Ht in E. apply recognized_table in E.
    apply in_app_or in E. destruct E as [E|E].
    - assert (Hb : existsb (String.eqb "q_PHA") CANDO_params = false)
        by (vm_compute; reflexivity).
      assert (Ht' : existsb (String.eqb "q_PHA") CANDO_params = true).
      { apply existsb_exists. exists "q_PHA"%string. split; [exact E|reflexivity]. }
      congruence.
    - apply in_flat_map in E. destruct E as [t [Hin Hp]].
      rewrite Forall_forall in Hrows. exact (Hrows t Hin Hp). }
  unfold set_parameters.
  destruct (forallb _ (keywords CANDO_call_names kw kwargs)) eqn:Ef; [|reflexivity].
  exfalso. rewrite forallb_forall in Ef.
  assert (Hin : In ("q_PHA"%string, kw "q_PHA"%string) (keywords CANDO_call_names kw kwargs)).
  { unfold keywords. apply in_or_app. left.
    apply (in_map (fun n => (n, kw n)) CANDO_call_names "q_PHA"%string).
    simpl. tauto. }
  apply Ef in Hin. cbn [fst] in Hin. congruence.
Qed.

(** X17.  [CANDO.__new__] passes [q_PHA] to [set_parameters], a name its
    [_params] does not declare ([_params] declares [q_PSA]).  Under the
    contract that an undeclared name raises, the constructor raises
    [UnknownParameterError] for every registry, argument and keyword,
    whenever the file loads and compiles and none of its rows declares
    [q_PHA]. *)
Theorem CANDO_new_raises_on_q_PHA (cmps : list Component) (kw : string -> Qc)
  (fr_SS_COD : K) (path : option string) (kwargs : list (string * Qc))
  (rows : list ReactionTemplate) :
  read_tsv (effective_path _path_CANDO path) = Some rows ->
  Forall (fun t => ~ In "q_PHA"%string (parameters t)) rows ->
  is_ok (do cmps' <- set_i_mass cmps "X_I" fr_SS_COD;
         load_and_compile (effective_path _path_CANDO path)
           ["COD"; "charge"; "N"]%string CANDO_params cmps') = true ->
  snd (CANDO_new cmps kw fr_SS_COD path kwargs) = Err UnknownParameterError.
Proof.
  intros Hr Hrows Hok. unfold CANDO_new.
  destruct (set_i_mass cmps "X_I" fr_SS_COD) as [cmps'|e]; [|discriminate Hok].
  cbn [bind] in Hok. unfold refresh_constants. cbn [snd].
  destruct (load_and_compile _ _ CANDO_params cmps') as [self|e] eqn:El; [|discriminate Hok].
  cbn [bind]. exact (CANDO_call_raises cmps' kw _ kwargs rows self Hr Hrows El).
Qed.

Lemma assign_names (kw : string -> Qc) (names : list string) :
  forall tbl : list (string * option Qc),
    fold_left assign (map (fun n => (n, kw n)) names) tbl =
    map (fun e => if existsb (String.eqb (fst e)) names
                  then (fst e, Some (kw (fst e))) else e) tbl.
Proof.
  induction names as [|n0 rest IH]; intros tbl.
  - simpl. symmetry. apply map_id.
  - cbn [map fold_left]. rewrite IH. unfold assign. rewrite map_map.
    apply map_ext. intros e. cbn [fst snd existsb].
    destruct (String.eqb_spec (fst e) n0) as [E|E]; cbn [fst snd orb].
    + subst n0. destruct (existsb (String.eqb (fst e)) rest); reflexivity.
    + reflexivity.
Qed.

Lemma parameter_value_assigned (kw : string -> Qc) (names all : list string) (n : string) :
  In n names -> In n all ->
  parameter_value
    (map (fun e => if existsb (String.eqb (fst e)) names
                   then (fst e, Some (kw (fst e))) else e)
       (map (fun n => (n, @None Qc)) all)) n = Ok (kw n).
Proof.
  intros Hn Ha. unfold parameter_value. rewrite map_map. simpl.
  induction all as [|a all IH]; [contradiction|]. simpl.
  destruct (existsb (String.eqb a) names) eqn:Ea; simpl.
  - destruct (String.eqb_spec a n) as [E|E].
    + subst a. reflexivity.
    + apply IH. destruct Ha as [Ha|Ha]; [contradiction|exact Ha].
  - destruct (String.eqb_spec a n) as [E|E].
    + subst a. exfalso.
      assert (Ht : existsb (String.eqb n) names = true).
      { apply existsb_exists. exists n. split; [exact Hn|apply String.eqb_refl]. }
      congruence.
    + apply IH. destruct Ha as [Ha|Ha]; [contradiction|exact Ha].
Qed.

Lemma CANDO3_names_declared : forall n, In n CANDO3_call_names -> In n CANDO3_params.
Proof.
  assert (Hb : forallb (fun n => existsb (String.eqb n) CANDO3_params) CANDO3_call_names = true)
    by (vm_compute; reflexivity).
  rewrite forallb_forall in Hb. intros n Hn. specialize (Hb n Hn).
  apply existsb_exists in Hb. destruct Hb as [x [Hx E]].
  apply String.eqb_eq in E. subst x. exact Hx.
Qed.

(** X18.  Every name [CANDO3.__new__] passes to [set_parameters] is
    declared in [_params]: called without further keywords, the
    constructor returns whenever the collection compiles, with the compiled
    matrix as it is, and every passed parameter then reads the value of the
    constructor's argument of that name. *)
Theorem CANDO3_new_sets_every_parameter (cmps : list Component) (kw : string -> Qc)
  (fr_SS_COD : K) (path : option string) :
  is_ok (do cmps' <- set_i_mass cmps "X_I" fr_SS_COD;
         do pc <- CANDO3_collection cmps' (effective_path _path_CANDO3 path);
         compile pc) = true ->
  exists cp, snd (CANDO3_new cmps kw fr_SS_COD path []) = Ok cp /\
    forall n, In n CANDO3_call_names -> parameter_value (parameter_table cp) n = Ok (kw n).
Proof.
  intros Hok. unfold CANDO3_new.
  destruct (set_i_mass cmps "X_I" fr_SS_COD) as [cmps'|e]; [|discriminate Hok].
  cbn [bind] in Hok. unfold refresh_constants. cbn [snd].
  destruct (CANDO3_collection cmps' (effective_path _path_CANDO3 path)) as [pc|e] eqn:Hc;
    [|discriminate Hok].
  cbn [bind] in Hok. cbn [bind].
  destruct (compile pc) as [self|e] eqn:Hp; [|discriminate Hok].
  cbn [bind].
  destruct (compile_inv _ _ Hp) as [_ [_ [_ [_ Ht]]]].
  assert (Hg : global_parameters pc = CANDO3_params).
  { unfold CANDO3_collection in Hc.
    destruct (load_from_file _ _ CANDO3_params cmps') as [l|e] eqn:El; cbn [bind] in Hc;
      [|discriminate].
    destruct (load_from_file_inv _ _ _ _ _ El) as [rows [_ [_ [Hg _]]]].
    destruct (String.eqb _ _path_CANDO3).
    - destruct (Process_new cmps' [] p12_template); cbn [bind] in Hc; [|discriminate].
      destruct (Process_new cmps' [] p14_template); cbn [bind] in Hc; [|discriminate].
      injection Hc as <-. exact Hg.
    - injection Hc as <-. exact Hg. }
  assert (Hrec : forall n, In n CANDO3_call_names -> In n (merged_parameters pc)).
  { intros n Hn. unfold merged_parameters. apply nodup_In. apply in_or_app. left.
    rewrite Hg. apply CANDO3_names_declared. exact Hn. }
  unfold after_set_parameters, set_parameters, keywords. rewrite app_nil_r.
  assert (Hall : forallb (fun kv => recognized (parameter_table self) (fst kv))
                   (map (fun n => (n, kw n)) CANDO3_call_names) = true).
  { apply forallb_forall. intros kv Hin. apply in_map_iff in Hin.
    destruct Hin as [n [<- Hn]]. cbn [fst]. apply recognized_In. rewrite Ht, map_map.
    cbn [fst]. rewrite map_id. apply Hrec. exact Hn. }
  rewrite Hall. cbn [fst snd]. eexists. split; [reflexivity|].
  intros n Hn. unfold with_table. cbn [parameter_table]. rewrite assign_names, Ht.
  apply parameter_value_assigned; [exact Hn|apply Hrec; exact Hn].
Qed.

End ConstructorFacts.

(** ** The properties on the example installation *)

Lemma ABR_run_gas_outlets_witness :
  exists o, @ABR_run example_props example_ABR example_waste example_ABR_outs = Ok o /\
            carries_nothing (CH4 o) /\ carries_nothing (N2O o).
Proof.
  destruct (@ABR_run_ok example_props example_ABR example_waste example_ABR_outs
              (num 1000) eq_refl) as [o Ho].
  exists o. split; [exact Ho|].
  destruct (@ABR_run_gas_outlets example_props example_ABR example_waste example_ABR_outs
              o Ho) as [Hc [_ [Hn _]]].
  split; [exact (proj1 (Hc eq_refl))|exact (Hn eq_refl)].
Defined.

Lemma ABR_run_nitrogen_witness :
  exists o, @ABR_run example_props_N example_ABR example_waste example_ABR_outs = Ok o /\
            imass (treated o) "NH3" + imass (treated o) "NonNH3"
            = imass example_waste "NH3" + imass example_waste "NonNH3"
              - num 50 / num 1000 * num 10 * Q2Qc (1 # 2).
Proof.
  destruct (@ABR_run_ok example_props_N example_ABR example_waste example_ABR_outs
              (num 1000) eq_refl) as [o Ho].
  exists o. split; [exact Ho|].
  apply (@ABR_run_nitrogen example_props_N example_ABR example_waste example_ABR_outs o Ho).
  apply Qc_is_canon. vm_compute. reflexivity.
Defined.

Lemma ABR_series_reads_composite_COD_witness :
  exists o o2,
    @ABR_run example_props example_ABR_full example_waste example_ABR_outs = Ok o /\
    _COD (treated o) = Some 0 /\
    @ABR_run example_props example_ABR (treated o) example_ABR_outs = Ok o2.
Proof.
  destruct (@ABR_run_ok example_props example_ABR_full example_waste example_ABR_outs
              (num 1000) eq_refl) as [o Ho].
  destruct (@ABR_series_reads_composite_COD example_props example_ABR_full example_ABR
              example_waste example_ABR_outs example_ABR_outs o Ho eq_refl)
    as [H0 [o2 [Ho2 _]]].
  exists o, o2. split; [exact Ho|]. split; [exact H0|exact Ho2].
Defined.

Lemma AD_run_agrees_with_ABR_witness :
  is_ok (@AD._run example_props example_decay example_AD example_waste example_ABR_outs)
  = is_ok (@ABR_run example_props example_ABR example_waste example_ABR_outs).
Proof.
  exact (proj1 (@AD_run_agrees_with_ABR example_props example_decay example_AD example_ABR
                  example_waste example_ABR_outs eq_refl eq_refl eq_refl eq_refl eq_refl)).
Defined.

Lemma AD_run_nitrogen_witness :
  exists o,
    @AD._run example_props_N example_decay example_AD example_waste example_ABR_outs = Ok o /\
    imass (N2O o) "N2O" =
      num 2 * (num 30 / num 365) * Q2Qc (1 # 2) * num 50 / num 1000 * num 10
      * Q2Qc (1 # 100) * num 44 / num 28.
Proof.
  destruct (@AD_run_ok example_props_N example_decay example_AD example_waste
              example_ABR_outs (num 1000) eq_refl) as [o Ho].
  exists o. split; [exact Ho|].
  destruct (@AD_run_nitrogen example_props_N example_decay example_AD example_waste
              example_ABR_outs o Ho) as [_ Hn].
  apply (Hn eq_refl
           (num 2 * (num 30 / num 365) * Q2Qc (1 # 2) * num 50 / num 1000 * num 10) eq_refl).
  apply Qc_is_canon. vm_compute. reflexivity.
Defined.

Lemma AD_single_reactor_volume_witness :
  exists V, AD.single_reactor_volume example_AD (num 5) = Some V /\
            V * num (3 - 1) * (1 - Q2Qc (1 # 10)) = num 5 * num 24 * num 30 * num 24.
Proof.
  destruct (AD.single_reactor_volume example_AD (num 5)) as [V|] eqn:E.
  - exists V. split; [reflexivity|].
    exact (proj1 (proj2 (AD_single_reactor_volume example_AD (num 5))) V E).
  - exfalso.
    destruct (proj1 (proj1 (AD_single_reactor_volume example_AD (num 5))) E) as [H|H].
    + apply (f_equal this) in H. vm_compute in H. discriminate H.
    + discriminate H.
Defined.

Lemma AD_N_reactor_setter_witness :
  AD.single_reactor_volume (AD.set_N_reactor example_AD (Q2Qc (1 # 2))) (num 5) = None.
Proof.
  apply (proj2 (proj2 (proj2 (AD_N_reactor_setter example_AD (Q2Qc (1 # 2)) (num 5))))).
  - reflexivity.
  - vm_compute. discriminate.
Defined.

Lemma t_slab_positive_witness :
  0 < SD.t_slab (SD.set_t_slab example_SD 0).
Proof.
  apply (t_slab_positive example_SD 0).
  - vm_compute. discriminate.
  - vm_compute. discriminate.
Defined.

Lemma Legacy_run_agrees_with_ABR_witness :
  exists o o',
    @ABR_run example_props example_ABR_fugitive example_waste example_ABR_outs = Ok o /\
    @Legacy._run example_props example_decay example_legacy example_waste
      example_legacy_outs = Ok o' /\
    imass (CH4 o) "CH4" = imass (Legacy.CH4 o') "CH4".
Proof.
  assert (Hne : num 1000 <> 0) by (apply Qc_eq_bool_nonzero; vm_compute; reflexivity).
  destruct (@Legacy_run_agrees_with_ABR example_props example_decay example_legacy
              example_ABR_fugitive example_waste example_ABR_outs example_legacy_outs
              (num 1000) eq_refl eq_refl eq_refl eq_refl eq_refl eq_refl Hne)
    as [o [o' [Ho [Ho' [_ [Hg _]]]]]].
  exists o, o'. split; [exact Ho|]. split; [exact Ho'|exact Hg].
Defined.

Lemma ECC_run_stale_balance_witness :
  imass (recovered (ECC_run [("H2O"%string, Q2Qc (1 # 10))] []
                      example_influent empty_stream example_ECC_stale)) "NH3"
  + imass (removed (ECC_run [("H2O"%string, Q2Qc (1 # 10))] []
                      example_influent empty_stream example_ECC_stale)) "NH3"
  + imass (left (ECC_run [("H2O"%string, Q2Qc (1 # 10))] []
                   example_influent empty_stream example_ECC_stale)) "NH3"
  = imass example_influent "NH3" + imass empty_stream "NH3"
    + imass (recovered example_ECC_stale) "NH3" + imass (removed example_ECC_stale) "NH3".
Proof.
  apply (ECC_run_stale_balance [("H2O"%string, Q2Qc (1 # 10))] []
           example_influent empty_stream example_ECC_stale "NH3").
  - simpl. constructor; [intros H; exact H|constructor].
  - simpl. constructor.
Defined.

Lemma rate_oxygen_inhibition_witness :
  exists v, eval aerobic_cv half_pv p12_rate = Ok v /\
            eval aerobic_cv half_pv p12_inhibited = Ok v.
Proof.
  destruct (eval aerobic_cv half_pv p12_rate) as [v|e] eqn:E.
  - exists v. split; [reflexivity|].
    exact (proj1 (rate_oxygen_inhibition aerobic_cv half_pv v) E).
  - exfalso.
    assert (H : is_ok (eval aerobic_cv half_pv p12_rate) = true) by (vm_compute; reflexivity).
    rewrite E in H. discriminate H.
Defined.

Lemma CANDO_new_raises_on_q_PHA_witness :
  snd (@CANDO_new QcK example_files example_cmps example_kw 1 None [])
  = Err UnknownParameterError.
Proof.
  apply (@CANDO_new_raises_on_q_PHA QcK example_files example_cmps example_kw 1 None []
           [example_row]).
  - reflexivity.
  - constructor; [|constructor]. simpl. intros [H|H]; [discriminate H|exact H].
  - vm_compute. reflexivity.
Defined.

Lemma CANDO3_new_sets_every_parameter_witness :
  exists cp, snd (@CANDO3_new QcK example_files example_cmps example_kw 1 None []) = Ok cp /\
             parameter_value (parameter_table cp) "k_O2" = Ok (example_kw "k_O2"%string).
Proof.
  assert (Hok : is_ok (do cmps' <- @set_i_mass QcK example_cmps "X_I" 1;
                       do pc <- @CANDO3_collection QcK example_files cmps'
                                  (effective_path (@_path_CANDO3 QcK example_files) None);
                       compile pc) = true) by (vm_compute; reflexivity).
  destruct (@CANDO3_new_sets_every_parameter QcK example_files example_cmps example_kw 1
              None Hok) as [cp [Hcp Hv]].
  exists cp. split; [exact Hcp|]. apply Hv.
  assert (Hb : existsb (String.eqb "k_O2") CANDO3_call_names = true)
    by (vm_compute; reflexivity).
  apply existsb_exists in Hb. destruct Hb as [x [Hx E]].
  apply String.eqb_eq in E. subst x. exact Hx.
Defined.

(** ** AnaerobicBaffledReactor._design *)

Lemma num_plus_one (z : Z) : num z + 1 = num (z + 1).
Proof.
  unfold num, Qcplus. apply Q2Qc_eq_iff.
  change (this (Q2Qc (inject_Z z))) with (Qred (inject_Z z)).
  rewrite Qred_correct, inject_Z_plus. reflexivity.
Qed.

(** X19.  [AnaerobicBaffledReactor._design] has no gravel quantity, and so
    no result, exactly when the stored baffle number is -1, which the
    [N_baffle] setter stores for no value above -1.  Otherwise the
    excavation is the reactor number times the single reactor volume, the
    gravel times [N_baffle + 1] is that volume times the gravel density,
    [add_concrete] multiplies the whole concrete quantity (at 0 there is no
    concrete at all), and every baffle adds
    [N * concrete_thickness * W * H * add_concrete] of concrete. *)
Theorem ABR_design_quantities (self : ABR.dimensions) :
  (ABR._design self = None <-> ABR._N_baffle self = (-1)%Z) /\
  (forall i, Qcopp 1 < i -> ABR._design (ABR.set_N_baffle self i) <> None) /\
  (forall q, ABR._design self = Some q ->
     ABR.volume q = ABR.reactor_L self * ABR.reactor_W self * ABR.reactor_H self /\
     ABR.excavation q = num (ABR._N_reactor self) * ABR.volume q /\
     ABR.gravel q * num (ABR._N_baffle self + 1) =
       num (ABR._N_reactor self) * ABR.volume q * ABR.gravel_density /\
     (ABR.add_concrete self = 0 -> ABR.concrete q = 0) /\
     ABR.concrete q =
       num (ABR._N_reactor self) * ABR.concrete_thickness self
       * (num 2 * ABR.reactor_L self * ABR.reactor_W self
          + num 2 * ABR.reactor_L self * ABR.reactor_H self
          + num 2 * ABR.reactor_W self * ABR.reactor_H self) * ABR.add_concrete self
       + num (ABR._N_baffle self)
         * (num (ABR._N_reactor self) * ABR.concrete_thickness self
            * ABR.reactor_W self * ABR.reactor_H self * ABR.add_concrete self)).
Proof.
  assert (Hnone : forall d, ABR._design d = None <-> ABR._N_baffle d = (-1)%Z).
  { intros d. unfold ABR._design. cbv zeta.
    destruct (fdiv _ (num (ABR._N_baffle d) + 1)) as [x|] eqn:E.
    - apply fdiv_some in E. destruct E as [Hn _]. split; [discriminate|].
      intros H. exfalso. apply Hn. rewrite num_plus_one. apply num_zero. lia.
    - apply fdiv_none in E. rewrite num_plus_one in E. apply num_zero in E.
      split; [intros _; lia|reflexivity]. }
  split; [apply Hnone|]. split.
  - intros i Hi H. apply Hnone in H. unfold ABR.set_N_baffle, ceil in H.
    cbn [ABR._N_baffle] in H.
    assert (H1 : (this i <= inject_Z (Qceiling i))%Q) by apply Qle_ceiling.
    rewrite H in H1.
    assert (Hi' : (inject_Z (-1) < this i)%Q) by exact Hi.
    exact (Qlt_irrefl _ (Qlt_le_trans _ _ _ Hi' H1)).
  - intros q. unfold ABR._design. cbv zeta.
    destruct (fdiv _ (num (ABR._N_baffle self) + 1)) as [x|] eqn:E; [|discriminate].
    intros H. injection H as <-. apply fdiv_some in E. destruct E as [Hn ->].
    cbn [ABR.volume ABR.excavation ABR.gravel ABR.concrete].
    split; [reflexivity|]. split; [reflexivity|]. split; [|split].
    + rewrite <- num_plus_one. field. exact Hn.
    + intros Ha. rewrite Ha. ring.
    + ring.
Qed.

Lemma ABR_design_quantities_witness :
  exists q, ABR._design example_dimensions = Some q /\
            ABR.excavation q = num 2 * ABR.volume q.
Proof.
  destruct (ABR._design example_dimensions) as [q|] eqn:E.
  - exists q. split; [reflexivity|].
    exact (proj1 (proj2 (proj2 (proj2 (ABR_design_quantities example_dimensions)) q E))).
  - exfalso.
    pose proof (proj1 (proj1 (ABR_design_quantities example_dimensions)) E) as H.
    discriminate H.
Defined.
